(** * SpiralsMain: the orchestration panel of the spiral workflow

    A shallow embedding of [SpiralsMain.py]: the manifest reader, the
    subprocess logger, the port-configuration popup and the main panel.

    Python values are modelled as follows.
    - [str] is [string]; a character is a code point below 256.
    - [pathlib.Path] is an interface (in [Runtime]); the state of the disk is
      a record [FS] that answers [exists], [is_file], [read_text],
      [resolve] and [write_text], each with the exception it raises when
      it raises one.
    - A [dict] is an association list in insertion order ([PyDict]).
    - A method is a function from the state to an outcome and a new
      state; a raised exception keeps the state reached when it was
      raised ([M]).
    - Code of the repository outside this file ([PlotGeneration]), the
      interpreter's builtins and the operating system are the fields of
      the interfaces [Runtime], [Collaborators] and [Launcher]. *)

From Stdlib Require Import List String Ascii Bool Arith ZArith Lia.
From Stdlib Require Import DecimalString.
Import ListNotations.
Open Scope string_scope.
Open Scope list_scope.
Open Scope nat_scope.

(** String concatenation, as Python's [+] on [str] and the pieces of an
    f-string. *)
Infix "+++" := String.append (right associativity, at level 60).

(** ** Python strings *)

Module PyStr.

Definition code (c : ascii) : nat := nat_of_ascii c.

(** [str.isspace] on one character, for code points below 256. *)
Definition is_space (c : ascii) : bool :=
  let n := code c in
  ((9 <=? n) && (n <=? 13)) || ((28 <=? n) && (n <=? 32))
  || (n =? 133) || (n =? 160).

Definition mem_char (chars : string) (c : ascii) : bool :=
  existsb (Ascii.eqb c) (list_ascii_of_string chars).

Fixpoint lstrip_by (p : ascii -> bool) (s : string) : string :=
  match s with
  | EmptyString => EmptyString
  | String c r => if p c then lstrip_by p r else s
  end.

Fixpoint rstrip_by (p : ascii -> bool) (s : string) : string :=
  match s with
  | EmptyString => EmptyString
  | String c r =>
      match rstrip_by p r with
      | EmptyString => if p c then EmptyString else String c EmptyString
      | r' => String c r'
      end
  end.

Definition strip_by (p : ascii -> bool) (s : string) : string :=
  rstrip_by p (lstrip_by p s).

(** [s.strip()] *)
Definition strip (s : string) : string := strip_by is_space s.

(** [s.strip(chars)] *)
Definition strip_chars (chars s : string) : string :=
  strip_by (mem_char chars) s.

(** The line boundaries of [str.splitlines] below code point 256. *)
Definition is_linebreak (c : ascii) : bool :=
  let n := code c in
  ((10 <=? n) && (n <=? 13)) || ((28 <=? n) && (n <=? 30)) || (n =? 133).

Definition snoc (s : string) (c : ascii) : string :=
  s +++ String c EmptyString.

Definition flush (cur : string) : list string :=
  match cur with EmptyString => [] | _ => [cur] end.

Fixpoint splitlines_from (cur s : string) : list string :=
  match s with
  | EmptyString => flush cur
  | String c r =>
      if is_linebreak c then
        match r with
        | String c2 r2 =>
            if (code c =? 13) && (code c2 =? 10)
            then cur :: splitlines_from EmptyString r2
            else cur :: splitlines_from EmptyString r
        | EmptyString => [cur]
        end
      else splitlines_from (snoc cur c) r
  end.

(** [s.splitlines()] *)
Definition splitlines (s : string) : list string :=
  splitlines_from EmptyString s.

Fixpoint split_from (cur s : string) : list string :=
  match s with
  | EmptyString => flush cur
  | String c r =>
      if is_space c then flush cur ++ split_from EmptyString r
      else split_from (snoc cur c) r
  end.

(** [s.split()] *)
Definition split (s : string) : list string := split_from EmptyString s.

(** [s.replace(a, b)] for one-character [a] and [b]. *)
Fixpoint replace_char (a b : ascii) (s : string) : string :=
  match s with
  | EmptyString => EmptyString
  | String c r =>
      String (if Ascii.eqb c a then b else c) (replace_char a b r)
  end.

(** [sep.join(parts)] *)
Fixpoint join (sep : string) (parts : list string) : string :=
  match parts with
  | [] => EmptyString
  | [p] => p
  | p :: rest => p +++ sep +++ join sep rest
  end.

(** The truth value of a string: [not s] is [is_empty s]. *)
Definition is_empty (s : string) : bool :=
  match s with EmptyString => true | _ => false end.

(** [str(n)] for a non-negative [int]. *)
Definition of_nat (n : nat) : string :=
  NilEmpty.string_of_uint (Nat.to_uint n).

(** [str(z)] for an [int]. *)
Definition of_Z (z : Z) : string :=
  match z with
  | Z0 => "0"
  | Zpos p => of_nat (Pos.to_nat p)
  | Zneg p => "-" +++ of_nat (Pos.to_nat p)
  end.

Definition dquote : string := String (ascii_of_nat 34) EmptyString.
Definition squote : string := String (ascii_of_nat 39) EmptyString.
Definition newline : string := String (ascii_of_nat 10) EmptyString.
Definition backslash : string := String (ascii_of_nat 92) EmptyString.

(** [str.isprintable] on one character, for code points below 256. *)
Definition is_printable (c : ascii) : bool :=
  let n := code c in
  ((32 <=? n) && (n <=? 126)) || ((161 <=? n) && negb (n =? 173)).

Definition hex_digit (n : nat) : string :=
  String.substring n 1 "0123456789abcdef".

(** One character inside [repr(s)], where [q] is the code of the quote
    character that surrounds the text. *)
Definition escape (q : nat) (c : ascii) : string :=
  let n := code c in
  if (n =? q) || (n =? 92) then backslash +++ String c EmptyString
  else if n =? 9 then backslash +++ "t"
  else if n =? 10 then backslash +++ "n"
  else if n =? 13 then backslash +++ "r"
  else if is_printable c then String c EmptyString
  else backslash +++ "x" +++ hex_digit (n / 16) +++ hex_digit (n mod 16).

(** [repr(s)]: double quotes surround a text that holds a single quote
    and no double quote, single quotes any other text. *)
Definition repr (s : string) : string :=
  let chars := list_ascii_of_string s in
  let q :=
    if existsb (fun c => code c =? 39) chars
       && negb (existsb (fun c => code c =? 34) chars)
    then 34 else 39 in
  let quote := String (ascii_of_nat q) EmptyString in
  quote +++ String.concat EmptyString (map (escape q) chars) +++ quote.

End PyStr.

(** ** Python dictionaries

    A [dict] keeps its keys in insertion order: assigning to a key that
    is present replaces the value where it stands, assigning to a new key
    appends it. *)

Module PyDict.
Section Dict.
Context {K V : Type} (K_eq_dec : forall a b : K, {a = b} + {a <> b}).

Definition t : Type := list (K * V).

(** [d.get(k)] *)
Fixpoint get (d : t) (k : K) : option V :=
  match d with
  | [] => None
  | (k', v) :: rest => if K_eq_dec k k' then Some v else get rest k
  end.

(** [k in d] *)
Definition mem (d : t) (k : K) : bool :=
  match get d k with Some _ => true | None => false end.

(** [d[k] = v] *)
Fixpoint set (d : t) (k : K) (v : V) : t :=
  match d with
  | [] => [(k, v)]
  | (k', v') :: rest =>
      if K_eq_dec k k' then (k', v) :: rest else (k', v') :: set rest k v
  end.

(** [d.setdefault(k, dflt)]: the value found, and the dictionary. *)
Definition setdefault (d : t) (k : K) (dflt : V) : V * t :=
  match get d k with
  | Some v => (v, d)
  | None => (dflt, set d k dflt)
  end.

(** [d.pop(k)] for a key that is present. *)
Fixpoint pop (d : t) (k : K) : t :=
  match d with
  | [] => []
  | (k', v') :: rest =>
      if K_eq_dec k k' then rest else (k', v') :: pop rest k
  end.

(** [d.items()] *)
Definition items (d : t) : list (K * V) := d.

(** The truth value of a dictionary: [not d] is [is_empty d]. *)
Definition is_empty (d : t) : bool :=
  match d with [] => true | _ => false end.

End Dict.
End PyDict.

(** ** Exceptions and outcomes

    Every exception below is a subclass of [Exception], so every
    [except Exception] clause catches it.  [KeyboardInterrupt] and
    [SystemExit] are not modelled. *)

Inductive exn : Type :=
| OSError (msg : string)
| ValueError (msg : string)
| KeyError (key : string)
| IndexError (msg : string)
| TclError (msg : string)
| RuntimeError (msg : string)
| CalledProcessError (cmd : list string) (returncode : Z)
                     (out err : string)
| OtherError (msg : string).

Inductive result (A : Type) : Type :=
| Ok (a : A)
| Raise (e : exn).
Arguments Ok {A} a.
Arguments Raise {A} e.

Definition is_ok {A} (r : result A) : bool :=
  match r with Ok _ => true | Raise _ => false end.

(** [repr] of a list of [str]. *)
Definition repr_str_list (l : list string) : string :=
  "[" +++ PyStr.join ", " (map PyStr.repr l) +++ "]".

(** A list comprehension [[x for x in xs if test(x)]] whose test may
    raise: the first exception leaves the comprehension. *)
Fixpoint select {X} (test : X -> result bool) (xs : list X)
  : result (list X) :=
  match xs with
  | [] => Ok []
  | x :: rest =>
      match test x with
      | Raise e => Raise e
      | Ok b =>
          match select test rest with
          | Raise e => Raise e
          | Ok kept => Ok (if b then x :: kept else kept)
          end
      end
  end.

(** [not r] for a test that may raise. *)
Definition not_r (r : result bool) : result bool :=
  match r with Ok b => Ok (negb b) | Raise e => Raise e end.

(** ** The state monad with exceptions *)

Definition M (S A : Type) : Type := S -> result A * S.

Definition ret {S A} (a : A) : M S A := fun s => (Ok a, s).

Definition raise {S A} (e : exn) : M S A := fun s => (Raise e, s).

Definition bind {S A B} (c : M S A) (k : A -> M S B) : M S B :=
  fun s =>
    match c s with
    | (Ok a, s') => k a s'
    | (Raise e, s') => (Raise e, s')
    end.

(** [try: c / except Exception as e: h e] *)
Definition try_except {S A} (c : M S A) (h : exn -> M S A) : M S A :=
  fun s =>
    match c s with
    | (Ok a, s') => (Ok a, s')
    | (Raise e, s') => h e s'
    end.

Definition get {S} : M S S := fun s => (Ok s, s).

Definition gets {S A} (f : S -> A) : M S A := fun s => (Ok (f s), s).

Definition modify {S} (f : S -> S) : M S unit := fun s => (Ok tt, f s).

(** An outcome that does not depend on the state. *)
Definition lift_result {S A} (r : result A) : M S A := fun s => (r, s).

Declare Scope py_scope.
Delimit Scope py_scope with py.
Notation "x <- c ;; k" := (bind c (fun x => k))
  (at level 61, c at next level, right associativity) : py_scope.
Notation "c ;; k" := (bind c (fun _ => k))
  (at level 61, right associativity) : py_scope.
Open Scope py_scope.

(** [for x in xs: body x], where the body answers [Some r] when it
    executes [return r] and [None] when it runs to its end.  The loop
    answers [Some r] when the enclosing function has returned. *)
Fixpoint for_ {S X R} (xs : list X) (body : X -> M S (option R))
  : M S (option R) :=
  match xs with
  | [] => ret None
  | x :: rest =>
      r <- body x ;;
      match r with
      | Some v => ret (Some v)
      | None => for_ rest body
      end
  end.

(** A loop whose body has no [return]. *)
Fixpoint for_each {S X} (xs : list X) (body : X -> M S unit) : M S unit :=
  match xs with
  | [] => ret tt
  | x :: rest => body x ;; for_each rest body
  end.

(** ** The Python runtime: paths, floats and signals *)

Class Runtime : Type := {
  (** [pathlib.Path] *)
  Path : Type;
  Path_eq_dec : forall p q : Path, {p = q} + {p <> q};
  (** [Path(s)] *)
  mkPath : string -> Path;
  (** [str(p)] *)
  str_path : Path -> string;
  (** [p.is_absolute()] *)
  is_absolute : Path -> bool;
  (** [p.parent] *)
  parent : Path -> Path;
  (** [p / q] *)
  joinpath : Path -> Path -> Path;
  (** [p.name] *)
  name : Path -> string;
  (** [float] *)
  Float : Type;
  (** [float(s)]; [None] when it raises [ValueError] *)
  float_of_str : string -> option Float;
  (** [repr(x)] of a float *)
  repr_float : Float -> string;
  (** [signal.Signals(n).name]; [None] when [n] is no signal of the
      platform *)
  signal_name : Z -> option string
}.

(** [str(exc)].  A [CalledProcessError] with a negative return code
    tells the signal that ended the child. *)
Definition str_exn `{RT : Runtime} (e : exn) : string :=
  match e with
  | OSError m | ValueError m | IndexError m | TclError m | RuntimeError m
  | OtherError m => m
  | KeyError k => PyStr.repr k
  | CalledProcessError cmd rc _ _ =>
      if (rc <? 0)%Z then
        match signal_name (- rc)%Z with
        | Some signame =>
            "Command '" +++ repr_str_list cmd +++ "' died with <Signals."
              +++ signame +++ ": " +++ PyStr.of_Z (- rc)%Z +++ ">."
        | None =>
            "Command '" +++ repr_str_list cmd
              +++ "' died with unknown signal " +++ PyStr.of_Z (- rc)%Z
              +++ "."
        end
      else
        "Command '" +++ repr_str_list cmd
          +++ "' returned non-zero exit status " +++ PyStr.of_Z rc +++ "."
  end.

(** [p / "segment"] *)
Definition joinstr `{Runtime} (p : Path) (segment : string) : Path :=
  joinpath p (mkPath segment).
Infix "//" := joinstr (at level 40, left associativity).

(** ** The disk *)

(** What a path names: a file that is read as [text], a file whose
    reading raises [e] (no permission, bytes that are no text), or a
    directory. *)
Inductive node : Type :=
| File (text : string)
| Unreadable (e : exn)
| Dir.

Section Disk.
Context `{RT : Runtime}.

(** What the operating system answers about each path.  [writable p]
    tells whether a write to [p] succeeds (permissions, free space,
    parent directory).  [stat_error p] is the message of the [OSError]
    that [os.stat] raises for [p] and that [exists] and [is_file] let
    through (a name too long, a directory that may not be searched);
    a path that is merely absent has none.  [realpath p] is what
    [p.resolve()] returns, or the exception it raises ([ValueError] for
    an embedded null character, [RuntimeError] for a symlink loop). *)
Record FS : Type := mkFS {
  node_at : Path -> option node;
  writable : Path -> bool;
  stat_error : Path -> option string;
  realpath : Path -> result Path
}.

(** [p.exists()] *)
Definition exists_ (fs : FS) (p : Path) : result bool :=
  match stat_error fs p with
  | Some msg => Raise (OSError msg)
  | None => Ok (match node_at fs p with Some _ => true | None => false end)
  end.

(** [p.is_file()] *)
Definition is_file (fs : FS) (p : Path) : result bool :=
  match stat_error fs p with
  | Some msg => Raise (OSError msg)
  | None =>
      Ok (match node_at fs p with
          | Some (File _) | Some (Unreadable _) => true
          | _ => false
          end)
  end.

(** [p.read_text()] *)
Definition read_text (fs : FS) (p : Path) : result string :=
  match node_at fs p with
  | Some (File text) => Ok text
  | Some (Unreadable e) => Raise e
  | Some Dir => Raise (OSError "Is a directory")
  | None => Raise (OSError "No such file or directory")
  end.

(** [p.resolve()] *)
Definition resolve (fs : FS) (p : Path) : result Path := realpath fs p.

Definition put_file (fs : FS) (p : Path) (text : string) : FS :=
  mkFS (fun q => if Path_eq_dec q p then Some (File text) else node_at fs q)
       (writable fs) (stat_error fs) (realpath fs).

(** [p.write_text(text)] *)
Definition write_text (p : Path) (text : string) : M FS unit :=
  fun fs =>
    if writable fs p then (Ok tt, put_file fs p text)
    else (Raise (OSError "write failed"), fs).

End Disk.

(** ** Values exchanged with the collaborators *)

Section Values.
Context `{RT : Runtime}.

(** The [object] values stored in a port definition and in a plot
    record. *)
#[warnings="-register-all"] Inductive pyobj : Type :=
| PyNone
| PyStr (s : string)
| PyFloat (x : Float)
| PyList (items : list pyobj).

(** [repr(o)] *)
Fixpoint py_repr (o : pyobj) : string :=
  match o with
  | PyNone => "None"
  | PyStr s => PyStr.repr s
  | PyFloat x => repr_float x
  | PyList items => "[" +++ PyStr.join ", " (map py_repr items) +++ "]"
  end.

(** [str(o)], the text an f-string inserts for [{o}]. *)
Definition py_str (o : pyobj) : string :=
  match o with
  | PyStr s => s
  | _ => py_repr o
  end.

(** One port definition: [{"type": ..., "signs": [...]}],
    a [Dict[str, object]]. *)
Definition PortData : Type := PyDict.t (K := string) (V := pyobj).

(** The ports of one variant, by port name. *)
Definition PortMap : Type := PyDict.t (K := string) (V := PortData).

(** [self.ports]: [Dict[Path, Dict[str, Dict[str, object]]]]. *)
Definition Ports : Type := PyDict.t (K := Path) (V := PortMap).

(** One row of the plot summary, a [Dict[str, object]]. *)
Definition PlotRecord : Type := PyDict.t (K := string) (V := pyobj).

(** The array returned by the capacitance loader: only its [shape] is
    used. *)
Record Matrix : Type := mkMatrix { shape : list nat }.

(** What [subprocess.run] observes of a child process. *)
Inductive proc_outcome : Type :=
| Exited (returncode : Z) (out err : string)
| SpawnFailed (e : exn).

Inductive box_kind : Type := BoxError | BoxWarning | BoxInfo.

(** One [messagebox] call. *)
Record MessageBox : Type := mkBox {
  box_kind_of : box_kind;
  box_title : string;
  box_message : string
}.

(** Everything outside the two windows: the disk, the text of the
    shared log widget, the message boxes shown so far and the commands
    handed to [subprocess.run] so far. *)
Record World : Type := mkWorld {
  fs : FS;
  log : string;
  boxes : list MessageBox;
  invoked : list (list string)
}.

Definition in_fs {A} (c : M FS A) : M World A :=
  fun w =>
    let '(r, fs') := c (fs w) in
    (r, mkWorld fs' (log w) (boxes w) (invoked w)).

(** [log_widget.insert("end", text)]; [log_widget.see("end")] only
    scrolls and is left out. *)
Definition log_insert (text : string) : M World unit :=
  modify (fun w => mkWorld (fs w) (log w +++ text) (boxes w) (invoked w)).

Definition show (k : box_kind) (title message : string) : M World unit :=
  modify (fun w =>
    mkWorld (fs w) (log w) (boxes w ++ [mkBox k title message]) (invoked w)).

Definition showerror := show BoxError.
Definition showwarning := show BoxWarning.
Definition showinfo := show BoxInfo.

Definition note_invoked (cmd : list string) : M World unit :=
  modify (fun w => mkWorld (fs w) (log w) (boxes w) (invoked w ++ [cmd])).

End Values.

(** ** The collaborators

    [PlotGeneration] ([PG]), [json], [pandas], [subprocess] and the
    constants computed from [__file__] are not part of this file. *)

Class Collaborators `{RT : Runtime} : Type := {
  (** [sys.executable] *)
  sys_executable : string;
  (** [Path(__file__).resolve().parents[1]] *)
  REPO_ROOT : Path;
  (** The child process that [subprocess.run(cmd, capture_output=True,
      text=True)] starts, and what it leaves on the disk. *)
  os_spawn : list string -> FS -> proc_outcome * FS;
  (** [PG.load_capacitance_matrix(cap)]: reads the disk. *)
  PG_load_capacitance_matrix : Path -> FS -> result Matrix;
  (** [PG.ensure_analysis_dirs(path)]: may create directories. *)
  PG_ensure_analysis_dirs : Path -> M FS (PyDict.t (K := string) (V := Path));
  (** [PG.process_spiral(path, records, ports_override=ports,
      auto_reuse_ports=True)]: answers the contents of [records] after
      the call. *)
  PG_process_spiral :
    Path -> list PlotRecord -> PortMap -> bool -> M FS (list PlotRecord);
  (** [json.dumps({"ports": ports}, indent=2)] *)
  json_dumps_ports : PortMap -> string;
  (** [json.loads(text).get("ports", {})], for a document whose ports
    have the shape that the annotation of [self.ports] gives them *)
  json_loads_ports : string -> result PortMap;
  (** [import pandas as pd; pd.DataFrame(records).to_csv(path,
      index=False)] *)
  pd_to_csv : list PlotRecord -> Path -> M FS unit
}.

(** ** Helpers *)

Section Helpers.
Context `{CO : Collaborators}.

(** The three chained [strip] calls of the loop: whitespace, then the
    double-quote character, then the single-quote character. *)
Definition clean_line (line : string) : string :=
  PyStr.strip_chars PyStr.squote
    (PyStr.strip_chars PyStr.dquote (PyStr.strip line)).

(** The path of a cleaned, non-empty line before it is resolved. *)
Definition located (address_file : Path) (stripped : string) : Path :=
  let p := mkPath stripped in
  if is_absolute p then p else joinpath (parent address_file) p.

(** The entry appended for a cleaned, non-empty line. *)
Definition entry_of (fs : FS) (address_file : Path) (stripped : string)
  : result Path :=
  resolve fs (located address_file stripped).

(** The loop of [read_address_entries]; [entries] is the list being
    appended to.  An exception of [resolve] leaves the loop. *)
Fixpoint read_lines (fs : FS) (address_file : Path) (cleaned : list string)
  (entries : list Path) : result (list Path) :=
  match cleaned with
  | [] => Ok entries
  | line :: rest =>
      let stripped := clean_line line in
      if PyStr.is_empty stripped
      then read_lines fs address_file rest entries
      else
        match entry_of fs address_file stripped with
        | Raise e => Raise e
        | Ok p => read_lines fs address_file rest (entries ++ [p])
        end
  end.

Definition read_address_entries (fs : FS) (address_file : Path)
  : result (list Path) :=
  match read_text fs address_file with
  | Raise e => Raise e
  | Ok text => read_lines fs address_file (PyStr.splitlines text) []
  end.

(** [subprocess.run(cmd, capture_output=True, text=True, check=True)] *)
Definition subprocess_run_check (cmd : list string)
  : M World (string * string) :=
  note_invoked cmd ;;
  o <- in_fs (fun fs => let '(o, fs') := os_spawn cmd fs in (Ok o, fs')) ;;
  match o with
  | Exited rc out err =>
      if (rc =? 0)%Z then ret (out, err)
      else raise (CalledProcessError cmd rc out err)
  | SpawnFailed e => raise e
  end.

Definition when {S} (b : bool) (c : M S unit) : M S unit :=
  if b then c else ret tt.

Definition log_subprocess (cmd : list string) : M World bool :=
  log_insert (PyStr.newline +++ "$ " +++ PyStr.join " " cmd
                +++ PyStr.newline) ;;
  fun w0 =>
    match subprocess_run_check cmd w0 with
    | (Ok (out, err), w) =>
        (when (negb (PyStr.is_empty out)) (log_insert out) ;;
         when (negb (PyStr.is_empty err)) (log_insert err) ;;
         ret true) w
    | (Raise (CalledProcessError c rc out err as exc), w) =>
        (log_insert out ;;
         log_insert err ;;
         log_insert ("Command failed: " +++ str_exn exc +++ PyStr.newline) ;;
         match cmd with
         | [] => raise (IndexError "list index out of range")
         | cmd0 :: _ =>
             showerror "Command failed"
               (cmd0 +++ " exited with status " +++ PyStr.of_Z rc) ;;
             ret false
         end) w
    | (Raise e, w) => (Raise e, w)
    end.

End Helpers.

(** ** Port configuration popup *)

Module PortsPopup.
Section Popup.
Context `{CO : Collaborators}.

(** The attributes of the window that the methods read or assign.
    [tree] holds the rows of the [Treeview]: the item id, the folder
    name and the number of conductors. *)
Record Self : Type := mkSelf {
  address_file : Path;
  spiral_paths : list Path;
  ports : Ports;
  tree : list (string * (string * nat));
  selection : list string;
  var_port_name : string;
  var_type : string;
  var_signs : string;
  summary : string;
  destroyed : bool
}.

Record St : Type := mkSt { self : Self; world : World }.

Definition in_world {A} (c : M World A) : M St A :=
  fun st => let '(r, w) := c (world st) in (r, mkSt (self st) w).

Definition on_self (f : Self -> Self) : M St unit :=
  modify (fun st => mkSt (f (self st)) (world st)).

Definition set_spiral_paths (v : list Path) (s : Self) : Self :=
  mkSelf (address_file s) v (ports s) (tree s) (selection s)
    (var_port_name s) (var_type s) (var_signs s) (summary s) (destroyed s).

Definition set_ports (v : Ports) (s : Self) : Self :=
  mkSelf (address_file s) (spiral_paths s) v (tree s) (selection s)
    (var_port_name s) (var_type s) (var_signs s) (summary s) (destroyed s).

Definition set_tree (v : list (string * (string * nat))) (s : Self) : Self :=
  mkSelf (address_file s) (spiral_paths s) (ports s) v (selection s)
    (var_port_name s) (var_type s) (var_signs s) (summary s) (destroyed s).

Definition set_selection (v : list string) (s : Self) : Self :=
  mkSelf (address_file s) (spiral_paths s) (ports s) (tree s) v
    (var_port_name s) (var_type s) (var_signs s) (summary s) (destroyed s).

Definition set_var_signs (v : string) (s : Self) : Self :=
  mkSelf (address_file s) (spiral_paths s) (ports s) (tree s) (selection s)
    (var_port_name s) (var_type s) v (summary s) (destroyed s).

Definition set_summary (v : string) (s : Self) : Self :=
  mkSelf (address_file s) (spiral_paths s) (ports s) (tree s) (selection s)
    (var_port_name s) (var_type s) (var_signs s) v (destroyed s).

Definition set_destroyed (v : bool) (s : Self) : Self :=
  mkSelf (address_file s) (spiral_paths s) (ports s) (tree s) (selection s)
    (var_port_name s) (var_type s) (var_signs s) (summary s) v.

(** The path of the capacitance matrix of a variant. *)
Definition cap_path (p : Path) : Path :=
  p // "FastSolver" // "CapacitanceMatrix.txt".

Definition _load_spiral_paths : M St (list Path) :=
  st <- get ;;
  match read_address_entries (fs (world st)) (address_file (self st)) with
  | Raise exc =>
      in_world (showerror "Address read error" (str_exn exc)) ;;
      ret []
  | Ok paths =>
      existing <-
        lift_result
          (select (fun p => exists_ (fs (world st)) (cap_path p)) paths) ;;
      when (match existing with [] => true | _ => false end)
        (in_world (showwarning "No solved spirals"
                     "No FastSolver outputs found yet.")) ;;
      ret existing
  end.

(** [dirs["ports_config"]] *)
Definition ports_config (dirs : PyDict.t (K := string) (V := Path))
  : result Path :=
  match PyDict.get string_dec dirs "ports_config" with
  | Some p => Ok p
  | None => Raise (KeyError "ports_config")
  end.

Definition cfg_path_of (path : Path) : M St Path :=
  dirs <- in_world (in_fs (PG_ensure_analysis_dirs path)) ;;
  lift_result (ports_config dirs).

(** The loop of [_load_existing_ports]; [configs] is the dictionary
    being filled. *)
Fixpoint load_ports_loop (paths : list Path) (configs : Ports)
  : M St Ports :=
  match paths with
  | [] => ret configs
  | path :: rest =>
      cfg_path <- cfg_path_of path ;;
      st <- get ;;
      present <- lift_result (exists_ (fs (world st)) cfg_path) ;;
      if present then
        match read_text (fs (world st)) cfg_path with
        | Raise _ =>
            load_ports_loop rest (PyDict.set Path_eq_dec configs path [])
        | Ok text =>
            match json_loads_ports text with
            | Ok data =>
                load_ports_loop rest
                  (PyDict.set Path_eq_dec configs path data)
            | Raise _ =>
                load_ports_loop rest
                  (PyDict.set Path_eq_dec configs path [])
            end
        end
      else load_ports_loop rest configs
  end.

Definition _load_existing_ports : M St Ports :=
  paths <- gets (fun st => spiral_paths (self st)) ;;
  load_ports_loop paths [].

Definition _count_conductors (path : Path) : M St nat :=
  let cap := cap_path path in
  try_except
    (st <- get ;;
     matrix <- lift_result (PG_load_capacitance_matrix cap (fs (world st))) ;;
     match shape matrix with
     | n :: _ => ret n
     | [] => raise (IndexError "tuple index out of range")
     end)
    (fun _ => ret 0).

(** [pdata.get(key)] followed by its insertion in an f-string. *)
Definition field_text (pdata : PortData) (key : string) : string :=
  match PyDict.get string_dec pdata key with
  | Some o => py_str o
  | None => py_str PyNone
  end.

Definition summary_insert (text : string) : M St unit :=
  on_self (fun s => set_summary (summary s +++ text) s).

Definition _refresh_summary : M St unit :=
  on_self (set_summary "") ;;
  all_ports <- gets (fun st => PyDict.items (ports (self st))) ;;
  for_each all_ports (fun '(path, pmap) =>
    summary_insert (name path +++ ":" +++ PyStr.newline) ;;
    for_each (PyDict.items pmap) (fun '(pname, pdata) =>
      summary_insert ("  - " +++ pname +++ ": " +++ field_text pdata "type"
                        +++ " | signs=" +++ field_text pdata "signs"
                        +++ PyStr.newline))).

Definition _on_select : M St unit :=
  sel <- gets (fun st => selection (self st)) ;;
  match sel with
  | [] => ret tt
  | item :: _ =>
      n <- _count_conductors (mkPath item) ;;
      on_self (set_var_signs (PyStr.join " " (repeat "+1" n)))
  end.

(** [self.tree.insert("", "end", iid=iid, values=(name, n))] *)
Definition tree_insert (iid fname : string) (n : nat) : M St unit :=
  st <- get ;;
  if existsb (fun row => String.eqb (fst row) iid) (tree (self st))
  then raise (TclError ("Item " +++ iid +++ " already exists"))
  else on_self (fun s => set_tree (tree s ++ [(iid, (fname, n))]) s).

(** The part of [_build_ui] that reads or assigns the attributes; the
    creation and packing of the widgets is left out. *)
Definition _build_ui : M St unit :=
  paths <- gets (fun st => spiral_paths (self st)) ;;
  for_each paths (fun path =>
    n <- _count_conductors path ;;
    tree_insert (str_path path) (name path) n) ;;
  _refresh_summary ;;
  rows <- gets (fun st => tree (self st)) ;;
  match rows with
  | [] => ret tt
  | (iid, _) :: _ => on_self (set_selection [iid]) ;; _on_select
  end.

(** [[float(s) for s in signs_raw]] *)
Fixpoint floats (signs_raw : list string) : result (list Float) :=
  match signs_raw with
  | [] => Ok []
  | s :: rest =>
      match float_of_str s with
      | None =>
          Raise (ValueError ("could not convert string to float: "
                               +++ PyStr.repr s))
      | Some x =>
          match floats rest with
          | Ok xs => Ok (x :: xs)
          | Raise e => Raise e
          end
      end
  end.

(** The tokens of the signs entry. *)
Definition signs_tokens (text : string) : list string :=
  filter (fun s => negb (PyStr.is_empty s))
    (PyStr.split (PyStr.replace_char "," " " text)).

(** [self.ports.setdefault(path, {})[name] = value] *)
Definition define_port (path : Path) (pname : string) (value : PortData)
  (all_ports : Ports) : Ports :=
  let '(pmap, ports1) := PyDict.setdefault Path_eq_dec all_ports path [] in
  PyDict.set Path_eq_dec ports1 path (PyDict.set string_dec pmap pname value).

(** The first loop of [_apply_to_paths]: [Some tt] when it returned. *)
Definition validate (signs_raw : list string) (paths : list Path)
  : M St (option unit) :=
  for_ paths (fun path =>
    n <- _count_conductors path ;;
    if negb (n =? 0) && negb (List.length signs_raw =? n) then
      in_world (showwarning "Size mismatch"
        (name path +++ ": expected " +++ PyStr.of_nat n
           +++ " entries, got " +++ PyStr.of_nat (List.length signs_raw))) ;;
      ret (Some tt)
    else ret None).

(** The second loop of [_apply_to_paths].  The right-hand side of the
    assignment is evaluated before [setdefault] is called. *)
Definition commit (pname : string) (signs_raw : list string)
  (paths : list Path) : M St unit :=
  for_each paths (fun path =>
    ty <- gets (fun st => var_type (self st)) ;;
    signs <- lift_result (floats signs_raw) ;;
    let value : PortData :=
      [("type", PyStr ty); ("signs", PyList (map PyFloat signs))] in
    on_self (fun s => set_ports (define_port path pname value (ports s)) s)).

Definition _apply_to_paths (paths : list Path) : M St unit :=
  pname <- gets (fun st => PyStr.strip (var_port_name (self st))) ;;
  if PyStr.is_empty pname then
    in_world (showwarning "Missing name" "Please enter a port name.")
  else
    signs_raw <- gets (fun st => signs_tokens (var_signs (self st))) ;;
    returned <- validate signs_raw paths ;;
    match returned with
    | Some _ => ret tt
    | None => commit pname signs_raw paths ;; _refresh_summary
    end.

Definition _apply_to_selected : M St unit :=
  sel <- gets (fun st => selection (self st)) ;;
  match sel with
  | [] => ret tt
  | _ => _apply_to_paths (map mkPath sel)
  end.

Definition _apply_to_all : M St unit :=
  children <- gets (fun st => map fst (tree (self st))) ;;
  _apply_to_paths (map mkPath children).

Definition _remove_from_selected : M St unit :=
  sel <- gets (fun st => selection (self st)) ;;
  match sel with
  | [] => ret tt
  | item :: _ =>
      let path := mkPath item in
      st <- get ;;
      let pname := PyStr.strip (var_port_name (self st)) in
      match PyDict.get Path_eq_dec (ports (self st)) path with
      | Some pmap =>
          if PyDict.mem string_dec pmap pname then
            on_self (fun s =>
              set_ports (PyDict.set Path_eq_dec (ports s) path
                           (PyDict.pop string_dec pmap pname)) s) ;;
            _refresh_summary
          else ret tt
      | None => ret tt
      end
  end.

(** [self.ports.get(path, {})] *)
Definition ports_get (all_ports : Ports) (path : Path) : PortMap :=
  match PyDict.get Path_eq_dec all_ports path with
  | Some m => m
  | None => []
  end.

(** The loop of [_run_plots]; [records] is the list handed to every
    call of the plot collaborator. *)
Fixpoint plot_loop (paths : list Path) (records : list PlotRecord)
  : M St (list PlotRecord) :=
  match paths with
  | [] => ret records
  | path :: rest =>
      pmap <- gets (fun st => ports_get (ports (self st)) path) ;;
      records' <-
        in_world (in_fs (PG_process_spiral path records pmap true)) ;;
      plot_loop rest records'
  end.

(** The arrow in the last log message is written [->] here. *)
Definition _run_plots : M St unit :=
  paths <- gets (fun st => spiral_paths (self st)) ;;
  records <- plot_loop paths [] ;;
  summary_path <-
    gets (fun st => parent (address_file (self st)) // "ports_summary.csv") ;;
  match records with
  | [] =>
      in_world (log_insert
        ("Plot generation finished (no records written)." +++ PyStr.newline))
  | _ =>
      in_world (in_fs (pd_to_csv records summary_path)) ;;
      in_world (log_insert
        ("Plot generation complete. Summary -> " +++ str_path summary_path
           +++ PyStr.newline))
  end.

(** The body of the saving loop for one item of [self.ports]. *)
Definition save_one (path : Path) (pmap : PortMap) : M St unit :=
  cfg_path <- cfg_path_of path ;;
  in_world (in_fs (write_text cfg_path (json_dumps_ports pmap))).

(** The saving loop of [_save_and_run]. *)
Definition save_loop (items : list (Path * PortMap)) : M St unit :=
  for_each items (fun '(path, pmap) => save_one path pmap).

Definition _save_and_run : M St unit :=
  all_ports <- gets (fun st => ports (self st)) ;;
  if PyDict.is_empty all_ports then
    in_world (showwarning "No ports"
                "Define at least one port before generating plots.")
  else
    save_loop (PyDict.items all_ports) ;;
    in_world (log_insert
      ("Saved ports_config.json for all selected spirals."
       +++ PyStr.newline)) ;;
    _run_plots ;;
    on_self (set_destroyed true).

(** The attributes before [__init__] assigns them. *)
Definition blank (address : Path) : Self :=
  mkSelf address [] [] [] [] "Port1" "series" "" "" false.

(** [PortsPopup(master, address_file, log_widget)] *)
Definition __init__ (address : Path) : M World Self :=
  fun w =>
    let body : M St unit :=
      paths <- _load_spiral_paths ;;
      on_self (set_spiral_paths paths) ;;
      loaded <- _load_existing_ports ;;
      on_self (set_ports loaded) ;;
      _build_ui in
    match body (mkSt (blank address) w) with
    | (Ok _, st) => (Ok (self st), world st)
    | (Raise e, st) => (Raise e, world st)
    end.

End Popup.
End PortsPopup.

(** ** Main panel *)

Module MainApp.
Section App.
Context `{CO : Collaborators}.

(** [popups] lists the port windows opened so far, as [__init__] left
    them; what the operator does in a window while [wait_window]
    blocks is a later sequence of calls of its methods. *)
Record App : Type := mkApp {
  var_address : string;
  var_eps : string;
  popups : list PortsPopup.Self;
  app_world : World
}.

Definition in_world {A} (c : M World A) : M App A :=
  fun a =>
    let '(r, w) := c (app_world a) in
    (r, mkApp (var_address a) (var_eps a) (popups a) w).

Definition add_popup (p : PortsPopup.Self) : M App unit :=
  modify (fun a =>
    mkApp (var_address a) (var_eps a) (popups a ++ [p]) (app_world a)).

Definition FAST_UI : Path :=
  REPO_ROOT // "FastSolver" // "Automation" // "fast_solver_batch_ui.py".

Definition AUTOMATE : Path :=
  REPO_ROOT // "FastSolver" // "Automation" // "automate_solvers.py".

(** [[p for p in entries if not p.exists()]] *)
Definition missing_entries (fs : FS) (entries : list Path)
  : result (list Path) :=
  select (fun p => not_r (exists_ fs p)) entries.

Definition _verify_address : M App bool :=
  a <- get ;;
  let path := mkPath (var_address a) in
  regular <- lift_result (is_file (fs (app_world a)) path) ;;
  if negb regular then
    in_world (showerror "Address missing"
                "Select a valid Address.txt first.") ;;
    ret false
  else
    match read_address_entries (fs (app_world a)) path with
    | Raise exc =>
        in_world (showerror "Invalid Address.txt" (str_exn exc)) ;;
        ret false
    | Ok entries =>
        missing <-
          lift_result (missing_entries (fs (app_world a)) entries) ;;
        match missing with
        | _ :: _ =>
            in_world (showwarning "Missing folders"
              (PyStr.join PyStr.newline (map str_path missing))) ;;
            ret false
        | [] =>
            in_world (showinfo "Address check"
              (PyStr.of_nat (List.length entries) +++ " folders found.")) ;;
            ret true
        end
    end.

Definition _open_ports_popup : M App unit :=
  a <- get ;;
  if PyStr.is_empty (var_address a) then
    in_world (showwarning "Address needed" "Select Address.txt first.")
  else
    popup <- in_world (PortsPopup.__init__ (mkPath (var_address a))) ;;
    add_popup popup.

(** The command of the conversion stage. *)
Definition convert_cmd (addr : Path) : list string :=
  [sys_executable; str_path FAST_UI; "--non-interactive"; str_path addr].

(** The command of the solver stage. *)
Definition solve_cmd (addr : Path) (eps : string) : list string :=
  [sys_executable; str_path AUTOMATE; str_path addr; eps].

(** [self.var_eps.get().strip() or "1"] *)
Definition eps_of (a : App) : string :=
  let e := PyStr.strip (var_eps a) in
  if PyStr.is_empty e then "1" else e.

(** Every path through [_run_pipeline] ends in a bare [return] or at
    the end of the body: the method answers [None]. *)
Definition _run_pipeline : M App unit :=
  verified <- _verify_address ;;
  if negb verified then ret tt
  else
    a <- get ;;
    let addr := mkPath (var_address a) in
    let eps := eps_of a in
    ok <- in_world (log_subprocess (convert_cmd addr)) ;;
    if negb ok then ret tt
    else
      ok <- in_world (log_subprocess (solve_cmd addr eps)) ;;
      if ok then
        in_world (showinfo "Solvers complete"
                    "FastHenry/FasterCap runs finished.") ;;
        _open_ports_popup
      else ret tt.

End App.
End MainApp.

(** ** A small runtime and disk for evaluating the model

    Paths are strings compared as written and a float is an integer
    written with an optional sign.  [resolve] leaves a path as it is and
    raises on a null character; a name of more than 255 characters
    cannot be examined. *)

Module Sample.

Definition has_slash (s : string) : bool := PyStr.mem_char s "/"%char.

Fixpoint basename (s : string) : string :=
  match s with
  | EmptyString => EmptyString
  | String c r =>
      if has_slash r then basename r
      else if Ascii.eqb c "/" then r else s
  end.

Fixpoint dirname (s : string) : string :=
  match s with
  | EmptyString => EmptyString
  | String c r => if has_slash r then String c (dirname r) else EmptyString
  end.

Definition starts_with_slash (s : string) : bool :=
  match s with String c _ => Ascii.eqb c "/" | EmptyString => false end.

Definition join2 (a b : string) : string :=
  if starts_with_slash b then b else a +++ "/" +++ b.

Fixpoint digits (s : string) (acc : Z) : option Z :=
  match s with
  | EmptyString => Some acc
  | String c r =>
      let n := PyStr.code c in
      if (48 <=? n) && (n <=? 57)
      then digits r (10 * acc + Z.of_nat (n - 48))%Z
      else None
  end.

Definition parse_int (s : string) : option Z :=
  match s with
  | EmptyString => None
  | String c r =>
      if Ascii.eqb c "+" then
        match r with EmptyString => None | _ => digits r 0%Z end
      else if Ascii.eqb c "-" then
        match r with
        | EmptyString => None
        | _ => option_map Z.opp (digits r 0%Z)
        end
      else digits s 0%Z
  end.

Definition signals (n : Z) : option string :=
  if (n =? 9)%Z then Some "SIGKILL"
  else if (n =? 15)%Z then Some "SIGTERM" else None.

#[export] Instance runtime : Runtime := {|
  Path := string;
  Path_eq_dec := string_dec;
  mkPath := fun s => s;
  str_path := fun p => p;
  is_absolute := starts_with_slash;
  parent := dirname;
  joinpath := join2;
  name := basename;
  Float := Z;
  float_of_str := parse_int;
  repr_float := fun z => PyStr.of_Z z +++ ".0";
  signal_name := signals
|}.

(** Strings are read as paths of this runtime where a path is expected. *)
Canonical Structure runtime.

Fixpoint assoc (files : list (string * node)) (p : string) : option node :=
  match files with
  | [] => None
  | (q, n) :: rest => if String.eqb p q then Some n else assoc rest p
  end.

(** The length of the longest name between the slashes of [s]; [cur]
    counts the name being read. *)
Fixpoint longest_name (s : string) (cur best : nat) : nat :=
  match s with
  | EmptyString => Nat.max cur best
  | String c r =>
      if Ascii.eqb c "/" then longest_name r 0 (Nat.max cur best)
      else longest_name r (S cur) best
  end.

Definition has_null (s : string) : bool :=
  existsb (fun c => PyStr.code c =? 0) (list_ascii_of_string s).

(** A disk holding [files], where writing to a path of [readonly]
    fails. *)
Definition disk (files : list (string * node)) (readonly : list string)
  : FS :=
  mkFS (assoc files)
       (fun p => negb (existsb (String.eqb p) readonly))
       (fun p =>
          if 255 <? longest_name p 0 0
          then Some ("[Errno 36] File name too long: " +++ PyStr.repr p)
          else None)
       (fun p =>
          if has_null p then Raise (ValueError "embedded null byte")
          else Ok p).

(** A capacitance matrix with one row per line of the file. *)
Definition load (cap : Path) (fs : FS) : result Matrix :=
  match read_text fs cap with
  | Raise e => Raise e
  | Ok text =>
      let n := List.length (PyStr.splitlines text) in
      Ok (mkMatrix [n; n])
  end.

(** Plotting fails for a variant that holds a file named [broken];
    otherwise it appends one record and leaves a file [plot.done]. *)
Definition plot (path : Path) (records : list PlotRecord) (pmap : PortMap)
  (reuse : bool) : M FS (list PlotRecord) :=
  fun fs =>
    match node_at fs (path // "broken") with
    | Some _ => (Raise (OtherError "plot failed"), fs)
    | None =>
        (Ok (records ++ [[("variant", PyStr (name path))]]),
         put_file fs (path // "plot.done") "")
    end.

(** A configuration is parsed when its text begins with a brace, and
    then holds no port. *)
Definition parse_ports (text : string) : result PortMap :=
  match text with
  | String c _ =>
      if Ascii.eqb c "{" then Ok []
      else Raise (ValueError "Expecting value: line 1 column 1 (char 0)")
  | EmptyString =>
      Raise (ValueError "Expecting value: line 1 column 1 (char 0)")
  end.

(** The tools: a child process exits with [status cmd] and leaves the
    disk as it is. *)
Definition tools (status : list string -> Z) : Collaborators := {|
  sys_executable := "python3";
  REPO_ROOT := "/repo";
  os_spawn := fun cmd fs => (Exited (status cmd) "done" "", fs);
  PG_load_capacitance_matrix := load;
  PG_ensure_analysis_dirs := fun path =>
    ret [("ports_config", path // "Analysis" // "ports_config.json")];
  PG_process_spiral := plot;
  json_dumps_ports := fun _ => "{}";
  json_loads_ports := parse_ports;
  pd_to_csv := fun _ p => write_text p "csv"
|}.

Definition all_succeed : Collaborators := tools (fun _ => 0%Z).

Definition world_of (fs : FS) : World := mkWorld fs "" [] [].

Definition nl : string := PyStr.newline.

(** Three solved variants: [a] and [b] with two conductors, [c] with
    three. *)
Definition solved : list (string * node) :=
  [("/work/Address.txt", File ("a" +++ nl +++ "b" +++ nl +++ "c" +++ nl));
   ("/work/a", Dir); ("/work/b", Dir); ("/work/c", Dir);
   ("/work/a/FastSolver/CapacitanceMatrix.txt",
      File ("1 2" +++ nl +++ "2 1" +++ nl));
   ("/work/b/FastSolver/CapacitanceMatrix.txt",
      File ("1 2" +++ nl +++ "2 1" +++ nl));
   ("/work/c/FastSolver/CapacitanceMatrix.txt",
      File ("1 2 3" +++ nl +++ "2 1 3" +++ nl +++ "3 2 1" +++ nl))].

Definition solved_disk : FS := disk solved [].

(** The same disk, where plotting variant [b] fails. *)
Definition solved_b_broken : list (string * node) :=
  solved ++ [("/work/b/broken", File "")].

Definition variants : list string := ["/work/a"; "/work/b"; "/work/c"].

(** The port window over the three variants, with [signs] typed in the
    signs entry and [defined] as its port mapping. *)
Definition window `{CO : Collaborators (RT := runtime)}
  (fs : FS) (signs : string) (defined : Ports) : PortsPopup.St :=
  PortsPopup.mkSt
    (PortsPopup.mkSelf "/work/Address.txt" variants defined
       [("/work/a", ("a", 2)); ("/work/b", ("b", 2)); ("/work/c", ("c", 3))]
       ["/work/a"] "Port1" "series" signs "" false)
    (world_of fs).

Definition series2 : PortData :=
  [("type", PyStr "series"); ("signs", PyList [PyFloat 1%Z; PyFloat 1%Z])].

(** One port on each of the three variants. *)
Definition three_ports : Ports :=
  [("/work/a", [("Port1", series2)]);
   ("/work/b", [("Port1", series2)]);
   ("/work/c", [("Port1", series2)])].

(** A manifest of two lines: [v1] inside two layers of double quotes,
    and one space inside double quotes. *)
Definition quoted_manifest : string :=
  PyStr.dquote +++ PyStr.dquote +++ "v1" +++ PyStr.dquote +++ PyStr.dquote
    +++ nl +++ PyStr.dquote +++ " " +++ PyStr.dquote +++ nl.

Definition quoted_disk : FS :=
  disk [("/work/Address.txt", File quoted_manifest)] [].

(** The manifest lists [a], [b] and [c], and the folder [b] is not on
    the disk. *)
Definition b_missing_disk : FS :=
  disk [("/work/Address.txt", File ("a" +++ nl +++ "b" +++ nl +++ "c" +++ nl));
        ("/work/a", Dir); ("/work/c", Dir)] [].

(** A name of 300 characters. *)
Definition long_name : string := String.concat "" (repeat "a" 300).

(** The manifest holds one line, a name of 300 characters. *)
Definition long_entry_disk : FS :=
  disk [("/work/Address.txt", File (long_name +++ nl))] [].

(** A manifest of one line with a null character inside. *)
Definition null_manifest : string :=
  "v" +++ String (ascii_of_nat 0) "1" +++ nl.

Definition null_entry_disk : FS :=
  disk [("/work/Address.txt", File null_manifest)] [].

(** One variant, [e], whose capacitance matrix is an empty file: the
    loader reads it and answers a matrix without rows. *)
Definition empty_matrix_disk : FS :=
  disk [("/work/Address.txt", File ("e" +++ nl));
        ("/work/e", Dir);
        ("/work/e/FastSolver/CapacitanceMatrix.txt", File "")] [].

(** The solved variants, where the saved configuration of [a] is no
    JSON document and the one of [b] may not be read. *)
Definition bad_configs_disk : FS :=
  disk (solved
          ++ [("/work/a/Analysis/ports_config.json", File "oops");
              ("/work/b/Analysis/ports_config.json",
               Unreadable (OSError "[Errno 13] Permission denied"))]) [].

(** The conversion stage exits with status 3, every other command
    with status 0. *)
Definition convert_fails : Collaborators :=
  tools (fun cmd =>
           if existsb (String.eqb "--non-interactive") cmd
           then 3%Z else 0%Z).

(** The main panel with the manifest selected. *)
Definition panel `{CO : Collaborators (RT := runtime)} (fs : FS)
  : MainApp.App :=
  MainApp.mkApp "/work/Address.txt" "3.5" [] (world_of fs).

End Sample.

(** ** The popup's answers as functions of the state

    These definitions name what the methods compute, so that the
    statements below can speak of it; each is related to the method it
    describes by a lemma. *)

Section Views.
Context `{CO : Collaborators}.
Import PortsPopup.

(** The number that [_count_conductors path] answers on the disk
    [fs]. *)
Definition count_of (fs : FS) (path : Path) : nat :=
  match PG_load_capacitance_matrix (cap_path path) fs with
  | Ok m => match shape m with n :: _ => n | [] => 0 end
  | Raise _ => 0
  end.

(** The test of the validation loop: [n and len(signs_raw) != n]. *)
Definition mismatch (fs : FS) (signs_raw : list string) (path : Path)
  : bool :=
  let n := count_of fs path in
  negb (n =? 0) && negb (List.length signs_raw =? n).

(** The warning shown for a variant that fails the test. *)
Definition size_box (fs : FS) (signs_raw : list string) (path : Path)
  : MessageBox :=
  mkBox BoxWarning "Size mismatch"
    (name path +++ ": expected " +++ PyStr.of_nat (count_of fs path)
       +++ " entries, got " +++ PyStr.of_nat (List.length signs_raw)).

(** The state after one more message box. *)
Definition with_box (b : MessageBox) (st : St) : St :=
  mkSt (self st)
    (mkWorld (fs (world st)) (log (world st)) (boxes (world st) ++ [b])
       (invoked (world st))).

(** The state on another disk. *)
Definition with_fs (fs' : FS) (st : St) : St :=
  mkSt (self st)
    (mkWorld fs' (log (world st)) (boxes (world st)) (invoked (world st))).

(** [st'] differs from [st] on the disk at most. *)
Definition only_fs (st st' : St) : Prop :=
  st' = with_fs (fs (world st')) st.

(** The port definition that the commit loop stores. *)
Definition port_value (ty : string) (signs : list Float) : PortData :=
  [("type", PyStr ty); ("signs", PyList (map PyFloat signs))].

(** The ports after the commit loop has run over [paths]. *)
Definition committed (pname : string) (value : PortData)
  (paths : list Path) (before : Ports) : Ports :=
  fold_left (fun acc p => define_port p pname value acc) paths before.

(** The variants of a batch that fail the dimension test: non-zero
    count different from the number of signs. *)
Definition failing_variants (fs : FS) (signs_raw : list string)
  (paths : list Path) : list Path :=
  filter (mismatch fs signs_raw) paths.

(** The port named [pname] of variant [path] is [value]. *)
Definition has_port (all_ports : Ports) (path : Path) (pname : string)
  (value : PortData) : Prop :=
  exists pmap,
    PyDict.get Path_eq_dec all_ports path = Some pmap
    /\ PyDict.get string_dec pmap pname = Some value.

End Views.

(** ** The main panel's answers as functions of the state *)

Section AppViews.
Context `{CO : Collaborators}.
Import MainApp.

(** The panel in another world. *)
Definition app_with_world (w : World) (a : App) : App :=
  mkApp (var_address a) (var_eps a) (popups a) w.

(** The panel after one more message box. *)
Definition app_with_box (b : MessageBox) (a : App) : App :=
  app_with_world
    (mkWorld (fs (app_world a)) (log (app_world a))
       (boxes (app_world a) ++ [b]) (invoked (app_world a)))
    a.

(** The error shown by [log_subprocess] for a failed command. *)
Definition failed_box (cmd : list string) (rc : Z) : MessageBox :=
  mkBox BoxError "Command failed"
    (hd "" cmd +++ " exited with status " +++ PyStr.of_Z rc).

(** The notice shown by [_run_pipeline] after the last stage. *)
Definition success_box : MessageBox :=
  mkBox BoxInfo "Solvers complete" "FastHenry/FasterCap runs finished.".

(** The text that [log_subprocess] appends to the log for a child
    that exited with status [rc]. *)
Definition stage_log (cmd : list string) (rc : Z) (out err : string)
  : string :=
  (PyStr.newline +++ "$ " +++ PyStr.join " " cmd +++ PyStr.newline)
    +++ out +++ err
    +++ (if (rc =? 0)%Z then ""
         else "Command failed: "
                +++ str_exn (CalledProcessError cmd rc out err)
                +++ PyStr.newline).

(** The world after [log_subprocess cmd], when the child exited with
    status [rc] and left the disk [fs']. *)
Definition after_stage (cmd : list string) (rc : Z) (out err : string)
  (fs' : FS) (w : World) : World :=
  mkWorld fs' (log w +++ stage_log cmd rc out err)
    (if (rc =? 0)%Z then boxes w else boxes w ++ [failed_box cmd rc])
    (invoked w ++ [cmd]).

(** The variants that [_load_spiral_paths] answers when it returns:
    the entries of the manifest whose capacitance matrix exists, none
    when the manifest cannot be read.  (When [exists] raises the method
    raises, and this list is empty.) *)
Definition solved_entries (fs : FS) (address : Path) : list Path :=
  match read_address_entries fs address with
  | Ok paths =>
      match select (fun p => exists_ fs (PortsPopup.cap_path p)) paths with
      | Ok existing => existing
      | Raise _ => []
      end
  | Raise _ => []
  end.

(** The row of the port view for a variant, on the disk [fs]. *)
Definition row_of (fs : FS) (p : Path) : string * (string * nat) :=
  (str_path p, (name p, count_of fs p)).

End AppViews.

(** ** Describing the cleaning of a manifest line *)

Definition all_chars (p : ascii -> bool) (s : string) : bool :=
  forallb p (list_ascii_of_string s).

Definition first_char (s : string) : option ascii :=
  match s with String c _ => Some c | EmptyString => None end.

Fixpoint last_char (s : string) : option ascii :=
  match s with
  | EmptyString => None
  | String c EmptyString => Some c
  | String _ r => last_char r
  end.

Fixpoint drop_last (s : string) : string :=
  match s with
  | EmptyString => EmptyString
  | String c EmptyString => EmptyString
  | String c r => String c (drop_last r)
  end.

(** [c] fails the test [p], or there is no [c]. *)
Definition fails (p : ascii -> bool) (c : option ascii) : Prop :=
  match c with Some c => p c = false | None => True end.

Definition is_dquote : ascii -> bool := PyStr.mem_char PyStr.dquote.
Definition is_squote : ascii -> bool := PyStr.mem_char PyStr.squote.

(** The cleaned lines for which [read_address_entries] appends an
    entry. *)
Definition kept_lines (text : string) : list string :=
  filter (fun s => negb (PyStr.is_empty s))
    (map (fun line =>
            PyStr.strip_chars PyStr.squote
              (PyStr.strip_chars PyStr.dquote (PyStr.strip line)))
       (PyStr.splitlines text)).

(** [[p.resolve() for p in paths]] on the disk [fs]: the first
    exception leaves it. *)
Fixpoint resolve_all `{RT : Runtime} (fs : FS) (paths : list Path)
  : result (list Path) :=
  match paths with
  | [] => Ok []
  | p :: rest =>
      match resolve fs p with
      | Raise e => Raise e
      | Ok q =>
          match resolve_all fs rest with
          | Raise e => Raise e
          | Ok qs => Ok (q :: qs)
          end
      end
  end.

(** The cleaning of a line in the words of the specification: the
    whitespace around the line is stripped, then a single layer of
    surrounding quote characters, single or double, is removed. *)
Definition spec_unquote (s : string) : string :=
  match s with
  | String c r =>
      if (is_dquote c || is_squote c)
         && match last_char r with
            | Some c' => Ascii.eqb c c'
            | None => false
            end
      then drop_last r
      else s
  | EmptyString => EmptyString
  end.

Definition spec_clean (line : string) : string :=
  spec_unquote (PyStr.strip line).

(** The lines that the specification counts: not blank and not made of
    whitespace only once the optional quotes are stripped. *)
Definition spec_counted (line : string) : bool :=
  negb (PyStr.is_empty (PyStr.strip (spec_clean line))).

(** ** Launching the generator

    [subprocess.Popen] is not part of this file; the child it starts
    runs beside the panel. *)

Class Launcher `{RT : Runtime} : Type := {
  (** [subprocess.Popen(cmd, cwd=cwd, stdout=PIPE, stderr=PIPE,
      text=True)]: the pid of the child, or the exception raised. *)
  os_popen : list string -> string -> FS -> result nat
}.

Module Launch.
Section Launch.
Context `{CO : Collaborators} `{LA : Launcher (RT := RT)}.
Import MainApp.

(** The panel with the checks that [self.after] has scheduled: the
    delay in milliseconds and the pid of the child to check. *)
Record Panel : Type := mkPanel {
  app : App;
  timers : list (nat * nat)
}.

Definition in_app {A} (c : M App A) : M Panel A :=
  fun p => let '(r, a) := c (app p) in (r, mkPanel a (timers p)).

(** [self.after(ms, _check_proc)] for the child [pid]. *)
Definition after (ms pid : nat) : M Panel unit :=
  modify (fun p => mkPanel (app p) (timers p ++ [(ms, pid)])).

Definition SPIRAL_UI : Path :=
  REPO_ROOT // "SpiralGeometryGeneration"
            // "Spiral_Batch_Variants_UI_16.11.2025.py".



Definition _launch_spiral_ui : M Panel unit :=
  p <- get ;;
  let w := app_world (app p) in
  present <- lift_result (exists_ (fs w) SPIRAL_UI) ;;
  if negb present then
    in_app (in_world (showerror "Missing script"
                        ("Cannot find " +++ str_path SPIRAL_UI)))
  else
    match os_popen [sys_executable; str_path SPIRAL_UI]
            (str_path (parent SPIRAL_UI)) (fs w) with
    | Raise exc => in_app (in_world (showerror "Launch failed" (str_exn exc)))
    | Ok pid =>
        in_app (in_world (log_insert
          ("Launched spiral generator UI (pid " +++ PyStr.of_nat pid
             +++ ")." +++ PyStr.newline))) ;;
        after 1200 pid
    end.

End Launch.
End Launch.

(** A launcher for the sample runtime: the child gets pid 4242. *)
Definition sample_launcher : Launcher (RT := Sample.runtime) :=
  {| os_popen := fun _ _ _ => Ok 4242 |}.

(** The characters that the cleaning of a manifest line removes at the
    ends of the line. *)
Definition is_blank_or_quote (c : ascii) : bool :=
  PyStr.is_space c || PyStr.mem_char PyStr.dquote c
  || PyStr.mem_char PyStr.squote c.

(** ** More answers of the popup *)

Section MoreViews.
Context `{CO : Collaborators}.
Import PortsPopup.

(** [self.ports.get(path, {}).get(pname)] *)
Definition port_lookup (all_ports : Ports) (path : Path) (pname : string)
  : option PortData :=
  PyDict.get string_dec (ports_get all_ports path) pname.

(** The summary after the line of one port is inserted. *)
Definition render_port (acc : string) (item : string * PortData) : string :=
  acc +++ "  - " +++ fst item +++ ": " +++ field_text (snd item) "type"
      +++ " | signs=" +++ field_text (snd item) "signs" +++ PyStr.newline.

(** The summary after the lines of one variant are inserted. *)
Definition render_variant (acc : string) (item : Path * PortMap) : string :=
  fold_left render_port (PyDict.items (snd item))
    (acc +++ name (fst item) +++ ":" +++ PyStr.newline).

(** The text of the summary pane for a port mapping. *)
Definition render_ports (all_ports : Ports) : string :=
  fold_left render_variant (PyDict.items all_ports) "".

(** The window with another port mapping and its summary. *)
Definition with_ports (all_ports : Ports) (st : St) : St :=
  mkSt (set_summary (render_ports all_ports) (set_ports all_ports (self st)))
       (world st).

(** The attributes that no method of the window assigns after
    [__init__], the port mapping, the summary and the signs entry
    apart. *)
Definition same_fixed (s s' : Self) : Prop :=
  address_file s' = address_file s /\ spiral_paths s' = spiral_paths s
  /\ tree s' = tree s /\ selection s' = selection s
  /\ var_port_name s' = var_port_name s /\ var_type s' = var_type s
  /\ destroyed s' = destroyed s.

(** The window after [_build_ui] has run to its end: one more row per
    listed variant, the summary of the ports, and the first row
    selected with its default signs. *)
Definition built (st : St) : St :=
  let rows :=
    tree (self st)
    ++ map (row_of (fs (world st))) (spiral_paths (self st)) in
  let s1 :=
    set_summary (render_ports (ports (self st))) (set_tree rows (self st)) in
  match rows with
  | [] => mkSt s1 (world st)
  | (iid, _) :: _ =>
      mkSt (set_var_signs
              (PyStr.join " "
                 (repeat "+1" (count_of (fs (world st)) (mkPath iid))))
              (set_selection [iid] s1))
           (world st)
  end.

(** The loop of [_load_existing_ports] over [paths] meets no call that
    stands outside its [try]: for each variant in turn, on the disk that
    the variants before it have left, [ensure_analysis_dirs] returns
    with a [ports_config] entry and [exists] answers for that path. *)
Fixpoint ensured (paths : list Path) (fs0 : FS) : Prop :=
  match paths with
  | [] => True
  | p :: rest =>
      exists dirs cfg fs1,
        PG_ensure_analysis_dirs p fs0 = (Ok dirs, fs1)
        /\ PyDict.get string_dec dirs "ports_config" = Some cfg
        /\ is_ok (exists_ fs1 cfg) = true
        /\ ensured rest fs1
  end.

(** What [_load_existing_ports] stores for a variant whose
    configuration file exists at [cfg]: the ports of the document, or
    no port when the file cannot be read or parsed. *)
Definition config_at (fs0 : FS) (cfg : Path) : PortMap :=
  match read_text fs0 cfg with
  | Ok text =>
      match json_loads_ports text with
      | Ok data => data
      | Raise _ => []
      end
  | Raise _ => []
  end.

(** The world after one more message box. *)
Definition world_with_box (b : MessageBox) (w : World) : World :=
  mkWorld (fs w) (log w) (boxes w ++ [b]) (invoked w).

End MoreViews.

(** * Properties *)

(** ** Dictionaries *)

Section DictFacts.
Context {K V : Type} (dec : forall a b : K, {a = b} + {a <> b}).

Lemma get_set_same (d : PyDict.t) (k : K) (v : V) :
  PyDict.get dec (PyDict.set dec d k v) k = Some v.
Proof.
  induction d as [|[k' v'] d IH]; simpl.
  - destruct (dec k k); congruence.
  - destruct (dec k k') as [E|N]; simpl.
    + destruct (dec k k'); congruence.
    + destruct (dec k k'); [contradiction|exact IH].
Qed.

Lemma get_set_other (d : PyDict.t) (k k0 : K) (v : V) :
  k0 <> k -> PyDict.get dec (PyDict.set dec d k v) k0 = PyDict.get dec d k0.
Proof.
  intros N. induction d as [|[k' v'] d IH]; simpl.
  - destruct (dec k0 k); congruence.
  - destruct (dec k k') as [E|N']; simpl.
    + subst k'. destruct (dec k0 k); congruence.
    + destruct (dec k0 k'); [reflexivity|exact IH].
Qed.

End DictFacts.

(** ** Counting conductors *)

Section CountFacts.
Context `{CO : Collaborators}.
Import PortsPopup.

Lemma count_conductors_run (path : Path) (st : St) :
  _count_conductors path st = (Ok (count_of (fs (world st)) path), st).
Proof.
  unfold _count_conductors, count_of, try_except, bind, get, lift_result.
  destruct (PG_load_capacitance_matrix (cap_path path) (fs (world st)))
    as [m|e]; [|reflexivity].
  destruct (shape m); reflexivity.
Qed.

(** C7. The conductor count query never raises and leaves the state as
    it is.  It answers 0 whenever the capacitance-matrix loader raises
    (missing, malformed or unparsable artifact), in particular for a
    missing artifact when the loader raises on a missing file; it
    answers the first dimension of the matrix otherwise; asking again
    on the state it leaves gives the same answer. *)
Theorem count_conductors_safe (path : Path) (st : St) :
  exists n,
    _count_conductors path st = (Ok n, st)
    /\ (forall e,
          PG_load_capacitance_matrix (cap_path path) (fs (world st))
          = Raise e -> n = 0)
    /\ (exists_ (fs (world st)) (cap_path path) = Ok false ->
        (forall p fs0, exists_ fs0 p = Ok false ->
           is_ok (PG_load_capacitance_matrix p fs0) = false) ->
        n = 0)
    /\ (forall m rows rest,
          PG_load_capacitance_matrix (cap_path path) (fs (world st))
          = Ok m -> shape m = rows :: rest -> n = rows)
    /\ _count_conductors path (snd (_count_conductors path st))
       = (Ok n, st).
Proof.
  exists (count_of (fs (world st)) path).
  rewrite count_conductors_run. simpl. rewrite count_conductors_run.
  repeat split.
  - intros e H. unfold count_of. now rewrite H.
  - intros Hmiss Hload. specialize (Hload _ _ Hmiss).
    unfold count_of.
    destruct (PG_load_capacitance_matrix (cap_path path) (fs (world st)));
      [discriminate|reflexivity].
  - intros m rows rest H Hs. unfold count_of. now rewrite H, Hs.
Qed.

End CountFacts.

(** ** Applying a port definition to a batch *)

Section ApplyFacts.
Context `{CO : Collaborators}.
Import PortsPopup.

Lemma validate_run (signs_raw : list string) (paths : list Path) (st : St) :
  validate signs_raw paths st =
  match find (mismatch (fs (world st)) signs_raw) paths with
  | Some p =>
      (Ok (Some tt), with_box (size_box (fs (world st)) signs_raw p) st)
  | None => (Ok None, st)
  end.
Proof.
  unfold validate. induction paths as [|p rest IH]; [reflexivity|].
  simpl for_. unfold bind at 1. unfold bind at 1.
  rewrite count_conductors_run. simpl find. unfold mismatch at 1.
  destruct (negb (count_of (fs (world st)) p =? 0)
            && negb (List.length signs_raw =? count_of (fs (world st)) p)).
  - reflexivity.
  - unfold ret at 1. exact IH.
Qed.

Lemma floats_raise_iff (signs_raw : list string) :
  (exists e, floats signs_raw = Raise e)
  <-> (exists tok, In tok signs_raw /\ float_of_str tok = None).
Proof.
  induction signs_raw as [|s rest IH]; simpl.
  - split; [intros [e H]; discriminate|intros [t [[] _]]].
  - destruct (float_of_str s) as [x|] eqn:E.
    + split.
      * intros [e H]. destruct (floats rest) as [xs|e'] eqn:F;
          [discriminate|].
        destruct (proj1 IH) as [t [Ht Hn]]; [now exists e'|].
        exists t. auto.
      * intros [t [[->|Ht] Hn]]; [congruence|].
        destruct (proj2 IH) as [e He]; [now exists t|].
        rewrite He. now exists e.
    + split; [|intros _; eexists; reflexivity].
      intros _. exists s. auto.
Qed.

Lemma commit_raise pname signs_raw p rest st e :
  floats signs_raw = Raise e ->
  commit pname signs_raw (p :: rest) st = (Raise e, st).
Proof.
  intros H. unfold commit. simpl for_each.
  unfold bind, gets, lift_result. now rewrite H.
Qed.

Lemma commit_ok pname signs_raw xs paths st :
  floats signs_raw = Ok xs ->
  commit pname signs_raw paths st =
  (Ok tt,
   mkSt (set_ports
           (committed pname (port_value (var_type (self st)) xs) paths
              (ports (self st)))
           (self st))
        (world st)).
Proof.
  intros H. unfold commit.
  match goal with |- for_each _ ?b _ = _ => set (body := b) end.
  assert (Hb : forall q s,
             body q s =
             (Ok tt,
              mkSt (set_ports
                      (define_port q pname
                         (port_value (var_type (self s)) xs) (ports (self s)))
                      (self s))
                   (world s))).
  { intros q s. unfold body, bind, gets, lift_result. now rewrite H. }
  clearbody body. revert st.
  induction paths as [|p rest IH]; intros st.
  - simpl. unfold ret. destruct st as [[] ?]; reflexivity.
  - simpl for_each. unfold bind. rewrite Hb, IH. reflexivity.
Qed.

Lemma for_each_summary {X} (xs : list X) (body : X -> M St unit) :
  (forall x st, exists t,
      body x st = (Ok tt, mkSt (set_summary t (self st)) (world st))) ->
  forall st, exists t,
    for_each xs body st = (Ok tt, mkSt (set_summary t (self st)) (world st)).
Proof.
  intros Hbody. induction xs as [|x rest IH]; intros st.
  - exists (summary (self st)). destruct st as [[] ?]; reflexivity.
  - simpl. unfold bind. destruct (Hbody x st) as [t1 ->].
    destruct (IH (mkSt (set_summary t1 (self st)) (world st))) as [t2 ->].
    exists t2. reflexivity.
Qed.

Lemma refresh_summary_run (st : St) :
  exists t,
    _refresh_summary st = (Ok tt, mkSt (set_summary t (self st)) (world st)).
Proof.
  unfold _refresh_summary, bind, on_self, modify, gets. simpl.
  match goal with
  | |- context [for_each ?xs ?body ?s] =>
      destruct (for_each_summary xs body) with (st := s) as [t Ht]
  end.
  - intros [path pmap] s. unfold bind, summary_insert, on_self, modify.
    match goal with
    | |- context [for_each ?xs ?body ?s'] =>
        destruct (for_each_summary xs body) with (st := s') as [t Ht]
    end.
    + intros [pname pdata] s'. unfold summary_insert, on_self, modify.
      eexists. reflexivity.
    + rewrite Ht. eexists. reflexivity.
  - rewrite Ht. eexists. reflexivity.
Qed.

(** What [_apply_to_paths] does, by cases. *)
Lemma apply_to_paths_run (paths : list Path) (st : St) :
  let pname := PyStr.strip (var_port_name (self st)) in
  let signs_raw := signs_tokens (var_signs (self st)) in
  _apply_to_paths paths st =
  if PyStr.is_empty pname then
    (Ok tt,
     with_box (mkBox BoxWarning "Missing name" "Please enter a port name.")
       st)
  else
    match find (mismatch (fs (world st)) signs_raw) paths with
    | Some p => (Ok tt, with_box (size_box (fs (world st)) signs_raw p) st)
    | None => (commit pname signs_raw paths ;; _refresh_summary) st
    end.
Proof.
  intros pname signs_raw. unfold _apply_to_paths.
  unfold bind at 1. unfold gets at 1. fold pname.
  destruct (PyStr.is_empty pname); [reflexivity|].
  unfold bind at 1. unfold gets at 1. fold signs_raw.
  unfold bind at 1. rewrite validate_run.
  destruct (find (mismatch (fs (world st)) signs_raw) paths); reflexivity.
Qed.

End ApplyFacts.

Section ApplyClaims.
Context `{CO : Collaborators}.
Import PortsPopup.

Lemma define_port_same p pname value (d : Ports) :
  has_port (define_port p pname value d) p pname value.
Proof.
  unfold has_port, define_port.
  destruct (PyDict.setdefault Path_eq_dec d p []) as [pmap ports1].
  eexists. split; apply get_set_same.
Qed.

Lemma define_port_other p q pname value (d : Ports) :
  q <> p ->
  PyDict.get Path_eq_dec (define_port p pname value d) q
  = PyDict.get Path_eq_dec d q.
Proof.
  intros N. unfold define_port, PyDict.setdefault.
  destruct (PyDict.get Path_eq_dec d p).
  - now apply get_set_other.
  - rewrite get_set_other by assumption. now apply get_set_other.
Qed.

Lemma define_port_keeps p q pname value (d : Ports) :
  has_port d q pname value ->
  has_port (define_port p pname value d) q pname value.
Proof.
  intros H. destruct (Path_eq_dec q p) as [->|N].
  - apply define_port_same.
  - unfold has_port. now rewrite define_port_other.
Qed.

Lemma committed_keeps pname value paths (d : Ports) q :
  has_port d q pname value ->
  has_port (committed pname value paths d) q pname value.
Proof.
  revert d. induction paths as [|p rest IH]; intros d H; [exact H|].
  simpl. apply IH. now apply define_port_keeps.
Qed.

Lemma committed_has_port pname value paths (d : Ports) q :
  In q paths -> has_port (committed pname value paths d) q pname value.
Proof.
  revert d. induction paths as [|p rest IH]; intros d H; [destruct H|].
  destruct H as [E|H].
  - subst p. simpl. apply committed_keeps, define_port_same.
  - simpl. now apply IH.
Qed.

Lemma floats_raise_value signs_raw e :
  floats signs_raw = Raise e -> exists msg, e = ValueError msg.
Proof.
  induction signs_raw as [|s rest IH]; simpl; [discriminate|].
  destruct (float_of_str s).
  - destruct (floats rest); [discriminate|].
    intros H. injection H as <-. now apply IH.
  - intros H. injection H as <-. eexists. reflexivity.
Qed.

Lemma find_first {A} (f : A -> bool) pre x post :
  Forall (fun y => f y = false) pre -> f x = true ->
  find f (pre ++ x :: post) = Some x.
Proof.
  intros Hpre Hx. induction Hpre as [|y pre Hy _ IH]; simpl.
  - now rewrite Hx.
  - now rewrite Hy.
Qed.

(** The state after the commit loop and the refreshed summary. *)
Lemma commit_refresh_ok pname signs_raw xs paths st :
  floats signs_raw = Ok xs ->
  exists text,
    (commit pname signs_raw paths ;; _refresh_summary) st =
    (Ok tt,
     mkSt (set_summary text
             (set_ports
                (committed pname (port_value (var_type (self st)) xs) paths
                   (ports (self st)))
                (self st)))
          (world st)).
Proof.
  intros H. unfold bind. rewrite (commit_ok _ _ _ _ _ H).
  match goal with
  | |- context [_refresh_summary ?s] =>
      destruct (refresh_summary_run s) as [t ->]
  end.
  exists t. reflexivity.
Qed.

(** With a token that [float] rejects, no call changes the ports. *)
Lemma bad_token_keeps_ports paths st tok :
  In tok (signs_tokens (var_signs (self st))) ->
  float_of_str tok = None ->
  ports (self (snd (_apply_to_paths paths st))) = ports (self st).
Proof.
  intros Hin Hbad. rewrite apply_to_paths_run.
  destruct (PyStr.is_empty _); [reflexivity|].
  destruct (find _ paths); [reflexivity|].
  destruct (proj2 (floats_raise_iff (signs_tokens (var_signs (self st)))))
    as [e He]; [now exists tok|].
  destruct paths as [|p rest].
  - unfold bind, commit. simpl.
    destruct (refresh_summary_run st) as [t ->]. reflexivity.
  - unfold bind. now rewrite (commit_raise _ _ _ _ _ _ He).
Qed.

(** C1. A batch apply validates every target before it mutates any.
    If some target with a non-zero conductor count has a different
    number of signs, the call returns normally and neither the window's
    attributes (the port mapping among them) nor the disk change.
    Whenever the port mapping has changed, every target had passed the
    validation, the call completed, and every target holds the new
    definition. *)
Theorem apply_all_or_nothing (paths : list Path) (st : St) :
  let fs0 := fs (world st) in
  let signs_raw := signs_tokens (var_signs (self st)) in
  let pname := PyStr.strip (var_port_name (self st)) in
  let out := _apply_to_paths paths st in
  ((exists p, In p paths /\ count_of fs0 p <> 0
              /\ List.length signs_raw <> count_of fs0 p) ->
   fst out = Ok tt /\ self (snd out) = self st
   /\ fs (world (snd out)) = fs0)
  /\ (ports (self (snd out)) <> ports (self st) ->
      (forall p, In p paths ->
         count_of fs0 p = 0 \/ List.length signs_raw = count_of fs0 p)
      /\ fst out = Ok tt
      /\ exists xs, floats signs_raw = Ok xs
         /\ forall p, In p paths ->
              has_port (ports (self (snd out))) p pname
                (port_value (var_type (self st)) xs)).
Proof.
  intros fs0 signs_raw pname out. subst out.
  rewrite apply_to_paths_run. fold fs0 signs_raw pname.
  destruct (PyStr.is_empty pname).
  { split; [intros _; auto|]. simpl. intros H. now contradiction H. }
  destruct (find (mismatch fs0 signs_raw) paths) as [q|] eqn:F.
  { split; [intros _; auto|]. simpl. intros H. now contradiction H. }
  assert (Hall : forall p, In p paths ->
            count_of fs0 p = 0 \/ List.length signs_raw = count_of fs0 p).
  { intros p Hp. pose proof (find_none _ _ F p Hp) as Hm.
    unfold mismatch in Hm. apply andb_false_iff in Hm.
    destruct Hm as [Hm|Hm]; apply negb_false_iff in Hm;
      apply Nat.eqb_eq in Hm; auto. }
  split.
  { intros [p [Hp [Hn Hl]]]. destruct (Hall p Hp); contradiction. }
  destruct (floats signs_raw) as [xs|e] eqn:Hf.
  - destruct (commit_refresh_ok pname signs_raw xs paths st Hf) as [t ->].
    simpl. intros _. repeat split; auto.
    exists xs. split; [reflexivity|].
    intros p Hp. now apply committed_has_port.
  - intros H. exfalso. apply H. destruct paths as [|p rest].
    + unfold bind, commit. simpl.
      destruct (refresh_summary_run st) as [t ->]. reflexivity.
    + unfold bind. now rewrite (commit_raise _ _ _ _ _ _ Hf).
Qed.

(** C3, as amended. When a batch apply fails the dimension validation,
    one warning is shown, for the first failing variant in batch order,
    and the call returns with nothing else changed; variants that fail
    later in the batch are not reported. *)
Theorem apply_reports_first_failing (pre post : list Path) (p : Path)
  (st : St) :
  let fs0 := fs (world st) in
  let signs_raw := signs_tokens (var_signs (self st)) in
  PyStr.is_empty (PyStr.strip (var_port_name (self st))) = false ->
  Forall (fun q => mismatch fs0 signs_raw q = false) pre ->
  mismatch fs0 signs_raw p = true ->
  _apply_to_paths (pre ++ p :: post) st
  = (Ok tt, with_box (size_box fs0 signs_raw p) st).
Proof.
  intros fs0 signs_raw Hname Hpre Hp.
  rewrite apply_to_paths_run. rewrite Hname.
  fold fs0 signs_raw. now rewrite (find_first _ pre p post Hpre Hp).
Qed.

(** C9, as amended. When the number of tokens passes the dimension
    check of every target but some token is not a float, the batch
    apply raises [ValueError] at the first target of the commit loop,
    before anything is stored: the state, and with it every variant's
    port mapping, is as before the call.  The conversion is made in the
    commit loop, not in the validation loop, but on the right-hand side
    of the assignment, which is evaluated first. *)
Theorem apply_bad_token_raises_unchanged (p : Path) (rest : list Path)
  (st : St) (tok : string) :
  let fs0 := fs (world st) in
  let signs_raw := signs_tokens (var_signs (self st)) in
  PyStr.is_empty (PyStr.strip (var_port_name (self st))) = false ->
  (forall q, In q (p :: rest) -> mismatch fs0 signs_raw q = false) ->
  In tok signs_raw -> float_of_str tok = None ->
  exists msg,
    _apply_to_paths (p :: rest) st = (Raise (ValueError msg), st).
Proof.
  intros fs0 signs_raw Hname Hall Hin Hbad.
  rewrite apply_to_paths_run. rewrite Hname. fold fs0 signs_raw.
  destruct (find (mismatch fs0 signs_raw) (p :: rest)) as [q|] eqn:F.
  { apply find_some in F. destruct F as [Hq Hm].
    rewrite (Hall q Hq) in Hm. discriminate. }
  destruct (proj2 (floats_raise_iff signs_raw)) as [e He];
    [now exists tok|].
  destruct (floats_raise_value _ _ He) as [msg ->].
  exists msg. unfold bind. now rewrite (commit_raise _ _ _ _ _ _ He).
Qed.

End ApplyClaims.

(** ** Saving and plotting *)

Section SaveAndPlotFacts.
Context `{CO : Collaborators}.
Import PortsPopup.

Lemma only_fs_refl st : only_fs st st.
Proof. destruct st as [s []]. reflexivity. Qed.

Lemma only_fs_trans a b c : only_fs a b -> only_fs b c -> only_fs a c.
Proof. unfold only_fs. intros H1 H2. rewrite H2, H1. reflexivity. Qed.

Lemma only_fs_fields st st' :
  only_fs st st' ->
  self st' = self st /\ log (world st') = log (world st)
  /\ boxes (world st') = boxes (world st)
  /\ invoked (world st') = invoked (world st).
Proof. intros H. rewrite H. simpl. auto. Qed.

Lemma in_fs_only_fs {A} (c : M FS A) st :
  only_fs st (snd (in_world (in_fs c) st)).
Proof.
  unfold only_fs, in_world, in_fs, with_fs.
  destruct (c (fs (world st))) as [r f]. reflexivity.
Qed.

Lemma cfg_path_of_only_fs path st :
  only_fs st (snd (cfg_path_of path st)).
Proof.
  unfold cfg_path_of, bind.
  pose proof (in_fs_only_fs (PG_ensure_analysis_dirs path) st) as H.
  destruct (in_world (in_fs (PG_ensure_analysis_dirs path)) st) as [[d|e] s];
    simpl in *; [|exact H].
  unfold lift_result. exact H.
Qed.

Lemma save_one_only_fs path pmap st :
  only_fs st (snd (save_one path pmap st)).
Proof.
  unfold save_one, bind.
  pose proof (cfg_path_of_only_fs path st) as H.
  destruct (cfg_path_of path st) as [[c|e] s]; simpl in *; [|exact H].
  eapply only_fs_trans; [exact H|apply in_fs_only_fs].
Qed.

Lemma save_loop_only_fs items st :
  only_fs st (snd (save_loop items st)).
Proof.
  unfold save_loop. revert st.
  induction items as [|[p m] rest IH]; intros st.
  - apply only_fs_refl.
  - simpl. unfold bind.
    pose proof (save_one_only_fs p m st) as H.
    destruct (save_one p m st) as [[u|e] s]; simpl in *; [|exact H].
    eapply only_fs_trans; [exact H|apply IH].
Qed.


Lemma plot_loop_only_fs paths records st :
  only_fs st (snd (plot_loop paths records st)).
Proof.
  revert records st.
  induction paths as [|p rest IH]; intros records st.
  - apply only_fs_refl.
  - simpl. unfold bind at 1. unfold gets at 1. unfold bind.
    match goal with
    | |- context [in_world (in_fs ?c) st] =>
        pose proof (in_fs_only_fs c st) as H;
        destruct (in_world (in_fs c) st) as [[r|e] s]
    end; simpl in *; [|exact H].
    eapply only_fs_trans; [exact H|apply IH].
Qed.

Lemma plot_loop_app pre post records st :
  plot_loop (pre ++ post) records st =
  match plot_loop pre records st with
  | (Ok records', st1) => plot_loop post records' st1
  | (Raise e, st1) => (Raise e, st1)
  end.
Proof.
  revert records st.
  induction pre as [|p pre IH]; intros records st; [reflexivity|].
  simpl. unfold bind, gets.
  destruct (in_world (in_fs _) st) as [[r|e] s]; [apply IH|reflexivity].
Qed.

(** C2, as amended. A failure raised by the plot collaborator for one
    variant is not caught: it propagates out of [_run_plots].  The
    variants before it have been dispatched, the variants after it are
    not, nothing is logged and no summary is written: the state is the
    one the failing call left, whatever follows in the list. *)
Theorem run_plots_failure_propagates (pre post : list Path) (y : Path)
  (st st1 : St) (recs : list PlotRecord) (e : exn) (fs2 : FS) :
  spiral_paths (self st) = pre ++ y :: post ->
  plot_loop pre [] st = (Ok recs, st1) ->
  PG_process_spiral y recs (ports_get (ports (self st)) y) true
    (fs (world st1)) = (Raise e, fs2) ->
  _run_plots st = (Raise e, with_fs fs2 st).
Proof.
  intros Hpaths Hpre Hy.
  pose proof (plot_loop_only_fs pre [] st) as Hfs.
  rewrite Hpre in Hfs. simpl in Hfs.
  unfold _run_plots. unfold bind at 1. unfold gets at 1.
  rewrite Hpaths. unfold bind at 1. rewrite plot_loop_app, Hpre.
  simpl plot_loop. unfold bind at 1. unfold gets at 1. unfold bind at 1.
  destruct (only_fs_fields _ _ Hfs) as [Hs [Hl [Hb Hi]]].
  rewrite Hs. unfold in_world, in_fs. rewrite Hy.
  unfold with_fs. now rewrite Hs, Hl, Hb, Hi.
Qed.


End SaveAndPlotFacts.

(** ** Reading the manifest *)

Section StripFacts.

Lemma append_empty_r (s : string) : s +++ "" = s.
Proof. induction s; simpl; congruence. Qed.

Lemma append_assoc3 (a b c : string) : (a +++ b) +++ c = a +++ b +++ c.
Proof. induction a; simpl; congruence. Qed.

Lemma all_chars_append p a b :
  all_chars p a = true -> all_chars p b = true ->
  all_chars p (a +++ b) = true.
Proof.
  unfold all_chars. induction a as [|c a IH]; simpl; [auto|].
  intros H Hb. apply andb_true_iff in H. destruct H as [Hc Ha].
  rewrite Hc. simpl. auto.
Qed.

Lemma lstrip_by_shape p s :
  exists pre,
    s = pre +++ PyStr.lstrip_by p s /\ all_chars p pre = true
    /\ fails p (first_char (PyStr.lstrip_by p s)).
Proof.
  induction s as [|c s IH]; simpl.
  - exists "". simpl. auto.
  - destruct (p c) eqn:E.
    + destruct IH as [pre [H1 [H2 H3]]].
      exists (String c pre). simpl. rewrite <- H1.
      unfold all_chars in *. simpl. rewrite E, H2. auto.
    + exists "". simpl. auto.
Qed.

Lemma rstrip_by_shape p s :
  exists suf,
    s = PyStr.rstrip_by p s +++ suf /\ all_chars p suf = true
    /\ fails p (last_char (PyStr.rstrip_by p s))
    /\ (PyStr.rstrip_by p s <> "" ->
        first_char (PyStr.rstrip_by p s) = first_char s).
Proof.
  induction s as [|c s IH]; simpl.
  - exists "". simpl. auto.
  - destruct IH as [suf [H1 [H2 [H3 H4]]]].
    destruct (PyStr.rstrip_by p s) as [|c' r'] eqn:R.
    + simpl in H1. subst suf. destruct (p c) eqn:E.
      * exists (String c s). simpl.
        unfold all_chars in *. simpl. rewrite E, H2.
        repeat split; auto. intros X. now contradiction X.
      * exists s. simpl. repeat split; auto.
    + exists suf. simpl in *. rewrite <- H1. repeat split; auto.
Qed.

(** [strip_by p] removes every leading and every trailing character
    that passes [p], and nothing else. *)
Lemma strip_by_shape p s :
  exists pre suf,
    s = pre +++ PyStr.strip_by p s +++ suf
    /\ all_chars p pre = true /\ all_chars p suf = true
    /\ fails p (first_char (PyStr.strip_by p s))
    /\ fails p (last_char (PyStr.strip_by p s)).
Proof.
  unfold PyStr.strip_by.
  destruct (lstrip_by_shape p s) as [pre [H1 [H2 H3]]].
  destruct (rstrip_by_shape p (PyStr.lstrip_by p s))
    as [suf [H4 [H5 [H6 H7]]]].
  exists pre, suf. repeat split; auto.
  - rewrite <- H4. exact H1.
  - destruct (PyStr.rstrip_by p (PyStr.lstrip_by p s)) eqn:R;
      [exact I|].
    rewrite H7 by discriminate. exact H3.
Qed.

End StripFacts.

Section SelectFacts.
Context {X : Type}.

Lemma select_total (test : X -> result bool) (xs : list X) :
  (forall x, In x xs -> is_ok (test x) = true) ->
  let kept :=
    filter (fun x => match test x with Ok b => b | Raise _ => false end) xs in
  select test xs = Ok kept
  /\ (forall x, In x kept <-> In x xs /\ test x = Ok true).
Proof.
  intros Hall kept. subst kept.
  split.
  - induction xs as [|x rest IH]; [reflexivity|]. simpl.
    pose proof (Hall x (or_introl eq_refl)) as Hx.
    destruct (test x) as [b|e]; [|discriminate].
    rewrite IH by (intros y Hy; apply Hall; now right).
    now destruct b.
  - intros x. rewrite filter_In. split; intros [Hx Ht]; (split; [exact Hx|]).
    + destruct (test x) as [[|]|e]; congruence.
    + now rewrite Ht.
Qed.

Lemma select_ok (test : X -> result bool) (xs kept : list X) :
  select test xs = Ok kept ->
  (forall x, In x xs -> is_ok (test x) = true)
  /\ (forall x, In x kept <-> In x xs /\ test x = Ok true).
Proof.
  intros H.
  assert (Hall : forall x, In x xs -> is_ok (test x) = true).
  { revert kept H. induction xs as [|x rest IH]; intros kept H y Hy;
      [destruct Hy|]. simpl in H.
    destruct (test x) as [b|e] eqn:T; [|discriminate].
    destruct (select test rest) as [k|e]; [|discriminate].
    destruct Hy as [<-|Hy]; [now rewrite T|].
    now apply (IH k). }
  split; [exact Hall|].
  destruct (select_total test xs Hall) as [H' Hin].
  rewrite H in H'. injection H' as ->. exact Hin.
Qed.

Lemma select_raise (test : X -> result bool) (xs : list X) (e : exn) :
  select test xs = Raise e ->
  exists pre x post,
    xs = pre ++ x :: post
    /\ Forall (fun y => is_ok (test y) = true) pre
    /\ test x = Raise e.
Proof.
  induction xs as [|x rest IH]; simpl; [discriminate|].
  destruct (test x) as [b|e'] eqn:T.
  - destruct (select test rest) as [k|e'']; [discriminate|].
    intros H. injection H as ->.
    destruct (IH eq_refl) as [pre [y [post [-> [Hpre Hy]]]]].
    exists (x :: pre), y, post. repeat split; auto.
    constructor; [now rewrite T|exact Hpre].
  - intros H. injection H as ->. exists [], x, rest. repeat split; auto.
Qed.

Lemma select_first_raise (test : X -> result bool) (pre post : list X)
  (x : X) (e : exn) :
  Forall (fun y => is_ok (test y) = true) pre ->
  test x = Raise e ->
  select test (pre ++ x :: post) = Raise e.
Proof.
  intros Hpre Hx. induction pre as [|y pre IH]; simpl.
  - now rewrite Hx.
  - inversion Hpre as [|? ? Hy Hrest]; subst.
    destruct (test y); [|discriminate]. now rewrite (IH Hrest).
Qed.

End SelectFacts.

Section ManifestFacts.
Context `{CO : Collaborators}.

Lemma read_lines_run fs address_file cleaned entries :
  read_lines fs address_file cleaned entries =
  match resolve_all fs
          (map (located address_file)
             (filter (fun s => negb (PyStr.is_empty s))
                (map clean_line cleaned))) with
  | Ok qs => Ok (entries ++ qs)
  | Raise e => Raise e
  end.
Proof.
  revert entries. induction cleaned as [|line rest IH]; intros entries.
  - simpl. now rewrite app_nil_r.
  - simpl. destruct (PyStr.is_empty (clean_line line)); simpl.
    + apply IH.
    + unfold entry_of.
      destruct (resolve fs (located address_file (clean_line line)))
        as [q|e]; [|reflexivity].
      rewrite IH. destruct (resolve_all fs _); [|reflexivity].
      now rewrite <- app_assoc.
Qed.

Lemma resolve_all_ok fs paths entries :
  resolve_all fs paths = Ok entries
  <-> Forall2 (fun p q => resolve fs p = Ok q) paths entries.
Proof.
  revert entries. induction paths as [|p rest IH]; intros entries; simpl.
  - split.
    + intros H. injection H as <-. constructor.
    + intros H. inversion H. reflexivity.
  - destruct (resolve fs p) as [q|e] eqn:R.
    + destruct (resolve_all fs rest) as [qs|e] eqn:A.
      * split.
        -- intros H. injection H as <-. constructor; [exact R|].
           now apply IH.
        -- intros H. inversion H as [|? q' ? qs' Hq Hqs]; subst.
           rewrite R in Hq. injection Hq as <-.
           apply IH in Hqs. now injection Hqs as <-.
      * split; [discriminate|].
        intros H. inversion H as [|? q' ? qs' Hq Hqs]; subst.
        apply IH in Hqs. discriminate.
    + split; [discriminate|].
      intros H. inversion H as [|? q' ? qs' Hq Hqs]; subst.
      rewrite R in Hq. discriminate.
Qed.

Lemma resolve_all_raise fs paths e :
  resolve_all fs paths = Raise e
  <-> exists pre p post,
        paths = pre ++ p :: post
        /\ Forall (fun p' => is_ok (resolve fs p') = true) pre
        /\ resolve fs p = Raise e.
Proof.
  induction paths as [|p rest IH]; simpl.
  - split; [discriminate|].
    intros [pre [q [post [H _]]]]. destruct pre; discriminate.
  - destruct (resolve fs p) as [q|e'] eqn:R.
    + destruct (resolve_all fs rest) as [qs|e''] eqn:A.
      * split; [discriminate|].
        intros [pre [p' [post [H [Hpre Hp]]]]].
        destruct pre as [|x pre]; simpl in H; injection H as -> ->.
        -- rewrite R in Hp. discriminate.
        -- inversion Hpre; subst.
           assert (X : @Ok (list Path) qs = Raise e); [|discriminate X].
           apply IH. exists pre, p', post. auto.
      * split.
        -- intros H. injection H as ->.
           destruct (proj1 IH eq_refl) as [pre [p' [post [H [Hpre Hp]]]]].
           exists (p :: pre), p', post. subst rest.
           repeat split; auto. constructor; [now rewrite R|exact Hpre].
        -- intros [pre [p' [post [H [Hpre Hp]]]]].
           destruct pre as [|x pre]; simpl in H; injection H as -> ->.
           ++ rewrite R in Hp. discriminate.
           ++ inversion Hpre; subst.
              apply IH. exists pre, p', post. auto.
    + split.
      * intros H. injection H as ->. exists [], p, rest.
        repeat split; auto.
      * intros [pre [p' [post [H [Hpre Hp]]]]].
        destruct pre as [|x pre]; simpl in H; injection H as -> ->.
        -- congruence.
        -- inversion Hpre as [|? ? Hx _]; subst. rewrite R in Hx.
           discriminate.
Qed.

Lemma read_address_entries_run fs address_file text :
  read_text fs address_file = Ok text ->
  read_address_entries fs address_file
  = resolve_all fs (map (located address_file) (kept_lines text)).
Proof.
  intros H. unfold read_address_entries. rewrite H.
  rewrite read_lines_run. unfold kept_lines. fold clean_line.
  change (fun line : string =>
            PyStr.strip_chars PyStr.squote
              (PyStr.strip_chars PyStr.dquote (PyStr.strip line)))
    with clean_line.
  now destruct (resolve_all fs _).
Qed.

(** C6, as amended. For a manifest that is read, and when [resolve]
    answers for every kept line, [read_address_entries] answers one
    entry per line whose cleaned text is not empty, in file order: the
    entry of a cleaned text is its path, joined to the parent directory
    of the manifest when it is not absolute, and resolved.  When
    [resolve] raises for a kept line, the exception of the first such
    line leaves the function and no entry is answered; a manifest that
    cannot be read raises.  The cleaned text of a line is the line
    without the whitespace around it, then without every leading and
    trailing double-quote character, then without every leading and
    trailing single-quote character (any number of layers, and
    whitespace inside the quotes is kept). *)
Theorem read_address_entries_spec (fs : FS) (address_file : Path) :
  match read_text fs address_file with
  | Raise e => read_address_entries fs address_file = Raise e
  | Ok text =>
      let paths :=
        map (fun stripped =>
               let p := mkPath stripped in
               if is_absolute p then p
               else joinpath (parent address_file) p)
          (kept_lines text) in
      (forall entries,
         read_address_entries fs address_file = Ok entries
         <-> Forall2 (fun p q => resolve fs p = Ok q) paths entries)
      /\ (forall entries,
            read_address_entries fs address_file = Ok entries ->
            List.length entries = List.length (kept_lines text))
      /\ ((forall p, In p paths -> is_ok (resolve fs p) = true) ->
          is_ok (read_address_entries fs address_file) = true)
      /\ (forall e,
            read_address_entries fs address_file = Raise e
            <-> exists pre p post,
                  paths = pre ++ p :: post
                  /\ Forall (fun p' => is_ok (resolve fs p') = true) pre
                  /\ resolve fs p = Raise e)
  end
  /\ forall line, exists ws1 ws2 d1 d2 q1 q2,
       line = ws1 +++ d1 +++ q1 +++ clean_line line +++ q2 +++ d2 +++ ws2
       /\ all_chars PyStr.is_space ws1 = true
       /\ all_chars PyStr.is_space ws2 = true
       /\ all_chars is_dquote d1 = true /\ all_chars is_dquote d2 = true
       /\ all_chars is_squote q1 = true /\ all_chars is_squote q2 = true
       /\ fails is_squote (first_char (clean_line line))
       /\ fails is_squote (last_char (clean_line line)).
Proof.
  split.
  - destruct (read_text fs address_file) as [text|e] eqn:Hread.
    2:{ unfold read_address_entries. now rewrite Hread. }
    intros paths.
    rewrite (read_address_entries_run _ _ _ Hread).
    change paths with (map (located address_file) (kept_lines text)).
    split; [intros entries; apply resolve_all_ok|].
    split.
    { intros entries H. apply resolve_all_ok in H.
      apply Forall2_length in H. rewrite length_map in H. now symmetry. }
    split; [|intros e; apply resolve_all_raise].
    intros Hall.
    destruct (resolve_all fs _) as [qs|e] eqn:A; [reflexivity|].
    apply resolve_all_raise in A.
    destruct A as [pre [p [post [Hp [_ Hr]]]]].
    specialize (Hall p). rewrite Hr in Hall. apply Hall.
    rewrite Hp. apply in_or_app. right. now left.
  - intros line. unfold clean_line, PyStr.strip, PyStr.strip_chars.
    destruct (strip_by_shape PyStr.is_space line)
      as [ws1 [ws2 [H1 [H2 [H3 _]]]]].
    destruct (strip_by_shape (PyStr.mem_char PyStr.dquote)
                (PyStr.strip_by PyStr.is_space line))
      as [d1 [d2 [H4 [H5 [H6 _]]]]].
    destruct (strip_by_shape (PyStr.mem_char PyStr.squote)
                (PyStr.strip_by (PyStr.mem_char PyStr.dquote)
                   (PyStr.strip_by PyStr.is_space line)))
      as [q1 [q2 [H7 [H8 [H9 [H10 H11]]]]]].
    exists ws1, ws2, d1, d2, q1, q2. repeat split; auto.
    rewrite H1 at 1. rewrite H4 at 1. rewrite H7 at 1.
    now rewrite !append_assoc3.
Qed.

End ManifestFacts.

(** ** Verifying the manifest and running the pipeline *)

Section PipelineFacts.
Context `{CO : Collaborators}.
Import MainApp.

Lemma missing_entries_ok fs entries :
  (forall p, In p entries -> is_ok (exists_ fs p) = true) ->
  exists missing,
    missing_entries fs entries = Ok missing
    /\ (missing = [] <-> forall p, In p entries -> exists_ fs p = Ok true)
    /\ (forall p, In p missing <-> In p entries /\ exists_ fs p = Ok false)
    /\ missing
       = filter (fun p => match exists_ fs p with
                          | Ok b => negb b
                          | Raise _ => false
                          end) entries.
Proof.
  intros Hall.
  destruct (select_total (fun p => not_r (exists_ fs p)) entries)
    as [Hm Hin].
  { intros p Hp. specialize (Hall p Hp).
    destruct (exists_ fs p); [reflexivity|discriminate]. }
  cbv zeta in Hm, Hin.
  assert (Hfilter :
    filter (fun p => match not_r (exists_ fs p) with
                     | Ok b => b
                     | Raise _ => false
                     end) entries
    = filter (fun p => match exists_ fs p with
                       | Ok b => negb b
                       | Raise _ => false
                       end) entries).
  { apply filter_ext. intros p. now destruct (exists_ fs p). }
  rewrite Hfilter in Hm, Hin. clear Hfilter.
  eexists. unfold missing_entries. split; [exact Hm|].
  set (missing := filter _ entries) in *.
  assert (Hmem : forall p, In p missing
                   <-> In p entries /\ exists_ fs p = Ok false).
  { intros p. rewrite Hin. split; intros [Hp Ht]; (split; [exact Hp|]).
    - destruct (exists_ fs p) as [[|]|e]; simpl in Ht; congruence.
    - now rewrite Ht. }
  split; [|split; [exact Hmem|reflexivity]].
  split.
  - intros Hnil p Hp. specialize (Hall p Hp).
    destruct (exists_ fs p) as [[|]|e] eqn:E; [reflexivity| |discriminate].
    assert (Hin' : In p missing) by (apply Hmem; auto).
    rewrite Hnil in Hin'. destruct Hin'.
  - intros Hex. destruct missing as [|q rest]; [reflexivity|].
    destruct (proj1 (Hmem q) (or_introl eq_refl)) as [Hq Hf].
    rewrite (Hex q Hq) in Hf. discriminate.
Qed.

(** C8, as amended. For a manifest that is read and whose entries can
    all be examined ([exists] answers for each of them), the missing
    list computed by [_verify_address] is empty if and only if every
    parsed entry exists on disk, and it holds exactly the entries that
    do not exist, in the order of the manifest.  The method answers
    [True] with a notice when the list is empty; otherwise it answers
    [False] and shows the missing entries, one per line. *)
Theorem verify_address_missing (a : App) (entries : list Path) :
  let fs0 := fs (app_world a) in
  let path := mkPath (var_address a) in
  is_file fs0 path = Ok true ->
  read_address_entries fs0 path = Ok entries ->
  (forall p, In p entries -> is_ok (exists_ fs0 p) = true) ->
  exists missing,
    missing_entries fs0 entries = Ok missing
    /\ (missing = [] <-> forall p, In p entries -> exists_ fs0 p = Ok true)
    /\ (forall p, In p missing <-> In p entries /\ exists_ fs0 p = Ok false)
    /\ missing
       = filter (fun p => match exists_ fs0 p with
                          | Ok b => negb b
                          | Raise _ => false
                          end) entries
    /\ _verify_address a =
       match missing with
       | [] =>
           (Ok true,
            app_with_box
              (mkBox BoxInfo "Address check"
                 (PyStr.of_nat (List.length entries) +++ " folders found."))
              a)
       | _ :: _ =>
           (Ok false,
            app_with_box
              (mkBox BoxWarning "Missing folders"
                 (PyStr.join PyStr.newline (map str_path missing)))
              a)
       end.
Proof.
  intros fs0 path Hfile Hread Hall.
  destruct (missing_entries_ok fs0 entries Hall)
    as [missing [Hm [Hnil [Hin Hfilter]]]].
  exists missing. repeat (split; [assumption|]).
  unfold _verify_address. unfold bind at 1. unfold get at 1.
  fold fs0 path. rewrite Hfile. unfold bind at 1. unfold lift_result at 1.
  cbn [negb]. rewrite Hread. unfold bind at 1. rewrite Hm.
  unfold lift_result at 1. destruct missing; reflexivity.
Qed.

Lemma log_subprocess_exited cmd0 rest w rc out err fs' :
  os_spawn (cmd0 :: rest) (fs w) = (Exited rc out err, fs') ->
  log_subprocess (cmd0 :: rest) w
  = (Ok (rc =? 0)%Z, after_stage (cmd0 :: rest) rc out err fs' w).
Proof.
  intros H. unfold log_subprocess, after_stage, stage_log.
  generalize (PyStr.newline +++ "$ " +++ PyStr.join " " (cmd0 :: rest)
                +++ PyStr.newline).
  intros hdr.
  unfold bind at 1. unfold log_insert at 1. unfold modify at 1.
  unfold subprocess_run_check. unfold bind at 1.
  unfold note_invoked, modify. unfold bind at 1.
  unfold in_fs. cbn [fs log boxes invoked]. rewrite H.
  destruct (rc =? 0)%Z.
  - unfold ret at 1. unfold bind, when, log_insert, modify, ret.
    destruct out, err; cbn [PyStr.is_empty negb fs log boxes invoked];
      f_equal; f_equal;
      rewrite ?append_empty_r, ?append_assoc3; cbn [String.append];
      rewrite ?append_empty_r; reflexivity.
  - unfold raise at 1.
    unfold bind, log_insert, modify, showerror, show, ret, failed_box.
    cbn [fs log boxes invoked hd]. f_equal. f_equal.
    now rewrite !append_assoc3.
Qed.

(** C4, as amended. The pipeline has two stages, conversion then
    solvers, run in that order once the manifest is verified.
    [log_subprocess] answers [True] exactly for a stage that exits with
    status 0.  When the conversion exits with a non-zero status the run
    stops there: the solver stage is never invoked, the failure is
    logged and shown in an error box, and the method returns [None].
    When it exits with 0 the solver stage is invoked next; if that one
    fails the failure is reported in the same way and the method
    returns [None]; the success notice is shown, and the port window
    opened, only when both stages exited with status 0. *)
Theorem run_pipeline_fail_fast (a a1 : App) (rc1 : Z) (out1 err1 : string)
  (fs1 : FS) :
  let addr := mkPath (var_address a1) in
  let c1 := convert_cmd addr in
  let c2 := solve_cmd addr (eps_of a1) in
  let w1 := app_world a1 in
  let w1' := after_stage c1 rc1 out1 err1 fs1 w1 in
  _verify_address a = (Ok true, a1) ->
  os_spawn c1 (fs w1) = (Exited rc1 out1 err1, fs1) ->
  log_subprocess c1 w1 = (Ok (rc1 =? 0)%Z, w1')
  /\ (rc1 <> 0%Z ->
      _run_pipeline a = (Ok tt, app_with_world w1' a1)
      /\ invoked w1' = invoked w1 ++ [c1]
      /\ boxes w1' = boxes w1 ++ [failed_box c1 rc1])
  /\ (rc1 = 0%Z ->
      forall rc2 out2 err2 fs2,
        os_spawn c2 fs1 = (Exited rc2 out2 err2, fs2) ->
        let w2 := after_stage c2 rc2 out2 err2 fs2 w1' in
        log_subprocess c2 w1' = (Ok (rc2 =? 0)%Z, w2)
        /\ invoked w2 = invoked w1 ++ [c1; c2]
        /\ (rc2 <> 0%Z ->
            _run_pipeline a = (Ok tt, app_with_world w2 a1)
            /\ boxes w2 = boxes w1 ++ [failed_box c2 rc2])
        /\ (rc2 = 0%Z ->
            _run_pipeline a
            = _open_ports_popup
                (app_with_box success_box (app_with_world w2 a1)))).
Proof.
  intros addr c1 c2 w1 w1' Hv H1.
  assert (L1 : log_subprocess c1 w1 = (Ok (rc1 =? 0)%Z, w1'))
    by exact (log_subprocess_exited _ _ _ _ _ _ _ H1).
  assert (Run : _run_pipeline a =
                (ok <- in_world (log_subprocess c1) ;;
                 if negb ok then ret tt
                 else
                   ok <- in_world (log_subprocess c2) ;;
                   if ok then
                     in_world (showinfo "Solvers complete"
                                 "FastHenry/FasterCap runs finished.") ;;
                     _open_ports_popup
                   else ret tt) a1).
  { unfold _run_pipeline. unfold bind at 1. rewrite Hv.
    cbn [negb]. unfold bind at 1. unfold get at 1. reflexivity. }
  split; [exact L1|]. split.
  - intros Hrc. apply Z.eqb_neq in Hrc.
    split; [|split].
    + rewrite Run. unfold bind at 1. unfold in_world at 1.
      fold w1. rewrite L1, Hrc. reflexivity.
    + unfold w1', after_stage. reflexivity.
    + unfold w1', after_stage. cbn [boxes]. now rewrite Hrc.
  - intros Hrc rc2 out2 err2 fs2 H2 w2.
    assert (L2 : log_subprocess c2 w1' = (Ok (rc2 =? 0)%Z, w2)).
    { apply (log_subprocess_exited (hd "" c2) (tl c2)). exact H2. }
    assert (Run2 : _run_pipeline a =
              (if (rc2 =? 0)%Z then
                 (in_world (showinfo "Solvers complete"
                              "FastHenry/FasterCap runs finished.") ;;
                  _open_ports_popup) (app_with_world w2 a1)
               else (Ok tt, app_with_world w2 a1))).
    { rewrite Run. unfold bind at 1. unfold in_world at 1.
      fold w1. rewrite L1. apply Z.eqb_eq in Hrc. rewrite Hrc.
      cbn [negb]. unfold bind at 1. unfold in_world at 1.
      cbn [app_world]. rewrite L2.
      destruct (rc2 =? 0)%Z; reflexivity. }
    split; [exact L2|]. split.
    { unfold w2, w1', after_stage. cbn [invoked].
      now rewrite <- app_assoc. }
    split.
    + intros Hrc2. apply Z.eqb_neq in Hrc2. split.
      * now rewrite Run2, Hrc2.
      * unfold w2, w1', after_stage. cbn [boxes].
        apply Z.eqb_eq in Hrc. now rewrite Hrc, Hrc2.
    + intros Hrc2. apply Z.eqb_eq in Hrc2.
      rewrite Run2, Hrc2. reflexivity.
Qed.

End PipelineFacts.

(** ** Opening the port window *)

Section InitFacts.
Context `{CO : Collaborators}.
Import PortsPopup.

(** What [_load_spiral_paths] does, by what the disk answers. *)
Lemma load_spiral_paths_run (st : St) :
  _load_spiral_paths st =
  match read_address_entries (fs (world st)) (address_file (self st)) with
  | Raise exc =>
      (Ok [], with_box (mkBox BoxError "Address read error" (str_exn exc)) st)
  | Ok paths =>
      match select (fun p => exists_ (fs (world st)) (cap_path p)) paths with
      | Raise e => (Raise e, st)
      | Ok [] =>
          (Ok [],
           with_box (mkBox BoxWarning "No solved spirals"
                       "No FastSolver outputs found yet.") st)
      | Ok (p :: rest) => (Ok (p :: rest), st)
      end
  end.
Proof.
  unfold _load_spiral_paths. unfold bind at 1. unfold get at 1.
  destruct (read_address_entries (fs (world st)) (address_file (self st)))
    as [paths|e]; [|reflexivity].
  unfold bind at 1. unfold lift_result at 1.
  destruct (select _ paths) as [[|p rest]|e]; reflexivity.
Qed.

(** [_load_spiral_paths] answers the solved entries whenever it
    returns; it keeps the window's attributes, the disk, the log and
    the commands, and shows a box only when it answers no variant. *)
Lemma load_spiral_paths_ok (st st' : St) (paths : list Path) :
  _load_spiral_paths st = (Ok paths, st') ->
  paths = solved_entries (fs (world st)) (address_file (self st))
  /\ self st' = self st /\ fs (world st') = fs (world st)
  /\ log (world st') = log (world st)
  /\ invoked (world st') = invoked (world st)
  /\ (paths <> [] -> boxes (world st') = boxes (world st)).
Proof.
  rewrite load_spiral_paths_run. unfold solved_entries.
  destruct (read_address_entries (fs (world st)) (address_file (self st)))
    as [entries|e].
  - destruct (select _ entries) as [[|p rest]|e]; [| |discriminate];
      intros H; injection H as <- <-; repeat split; auto.
    intros N. now contradiction N.
  - intros H; injection H as <- <-; repeat split; auto.
    intros N. now contradiction N.
Qed.

(** When [_load_spiral_paths] raises, nothing has changed. *)
Lemma load_spiral_paths_raise (st st' : St) (e : exn) :
  _load_spiral_paths st = (Raise e, st') -> st' = st.
Proof.
  rewrite load_spiral_paths_run.
  destruct (read_address_entries (fs (world st)) (address_file (self st)))
    as [entries|e0]; [|discriminate].
  destruct (select _ entries) as [[|p rest]|e0]; try discriminate.
  intros H. now injection H as _ <-.
Qed.

Lemma load_ports_loop_only_fs paths configs st :
  only_fs st (snd (load_ports_loop paths configs st)).
Proof.
  revert configs st.
  induction paths as [|p rest IH]; intros configs st.
  - apply only_fs_refl.
  - simpl. unfold bind at 1.
    pose proof (cfg_path_of_only_fs p st) as H.
    destruct (cfg_path_of p st) as [[c|e] s]; simpl in H; [|exact H].
    unfold bind, get.
    eapply only_fs_trans; [exact H|].
    unfold lift_result.
    destruct (exists_ (fs (world s)) c) as [[|]|e];
      [|apply IH|apply only_fs_refl].
    destruct (read_text (fs (world s)) c); [|apply IH].
    destruct (json_loads_ports a); apply IH.
Qed.

(** The loop of [_build_ui] appends one row per variant. *)
Lemma tree_loop_run (paths : list Path) (st st' : St) :
  for_each paths (fun path =>
    n <- _count_conductors path ;;
    tree_insert (str_path path) (name path) n) st = (Ok tt, st') ->
  st' = mkSt (set_tree (tree (self st)
                          ++ map (row_of (fs (world st))) paths)
                (self st))
             (world st).
Proof.
  revert st. induction paths as [|p rest IH]; intros st.
  - simpl. unfold ret. intros H. injection H as <-.
    rewrite app_nil_r. destruct st as [[] ?]. reflexivity.
  - simpl for_each. unfold bind at 1. unfold bind at 1.
    rewrite count_conductors_run. unfold tree_insert at 1.
    unfold bind at 1. unfold get at 1.
    destruct (existsb _ (tree (self st))); [discriminate|].
    unfold on_self, modify. intros H. apply IH in H. rewrite H.
    simpl. now rewrite <- app_assoc.
Qed.

Lemma on_select_run (st : St) :
  exists v,
    _on_select st = (Ok tt, mkSt (set_var_signs v (self st)) (world st)).
Proof.
  unfold _on_select, bind, gets.
  destruct (selection (self st)) as [|item rest].
  - exists (var_signs (self st)). destruct st as [[] ?]. reflexivity.
  - rewrite count_conductors_run. eexists. reflexivity.
Qed.

Lemma build_ui_run (st st' : St) :
  _build_ui st = (Ok tt, st') ->
  spiral_paths (self st') = spiral_paths (self st)
  /\ tree (self st')
     = tree (self st)
       ++ map (row_of (fs (world st))) (spiral_paths (self st))
  /\ world st' = world st.
Proof.
  unfold _build_ui. unfold bind at 1. unfold gets at 1.
  unfold bind at 1.
  destruct (for_each (spiral_paths (self st)) _ st) as [[[]|e] s1] eqn:L;
    [|discriminate].
  apply tree_loop_run in L.
  unfold bind at 1. destruct (refresh_summary_run s1) as [t ->].
  unfold bind at 1. unfold gets at 1.
  match goal with |- context [tree (self ?s)] => set (s2 := s) end.
  destruct (tree (self s2)) as [|[iid row] rows] eqn:T.
  - unfold ret. intros H. injection H as <-.
    subst s2. rewrite L in *. simpl in *. auto.
  - unfold bind, on_self, modify.
    match goal with
    | |- context [_on_select ?s] =>
        destruct (on_select_run s) as [v ->]
    end.
    intros H. injection H as <-. subst s2. rewrite L. simpl. auto.
Qed.

(** C10, as amended. Every variant listed in the port view had an
    existing capacitance-matrix file when the window was opened: the
    view lists the entries of the manifest whose file exists, in order,
    and no other; an entry whose file is absent has no row.  A row
    shows the count read from the disk as the window's construction
    leaves it, and the count is 0 exactly when the loader raises on the
    file, or answers an array without a first dimension, or answers an
    array whose first dimension is 0. *)
Theorem init_lists_solved_only (address : Path) (w w' : World)
  (popup : Self) :
  __init__ address w = (Ok popup, w') ->
  spiral_paths popup = solved_entries (fs w) address
  /\ tree popup = map (row_of (fs w')) (spiral_paths popup)
  /\ (forall p, In p (spiral_paths popup) ->
        exists_ (fs w) (cap_path p) = Ok true)
  /\ (forall p, exists_ (fs w) (cap_path p) = Ok false ->
        ~ In p (spiral_paths popup))
  /\ (forall iid fname n, In (iid, (fname, n)) (tree popup) ->
        exists p,
          In p (spiral_paths popup)
          /\ iid = str_path p /\ fname = name p
          /\ exists_ (fs w) (cap_path p) = Ok true
          /\ n = count_of (fs w') p
          /\ (n = 0 <->
              (exists e,
                 PG_load_capacitance_matrix (cap_path p) (fs w') = Raise e)
              \/ (exists m,
                    PG_load_capacitance_matrix (cap_path p) (fs w') = Ok m
                    /\ (shape m = [] \/ exists rest, shape m = 0 :: rest)))).
Proof.
  unfold __init__. intros H.
  unfold bind at 1 in H.
  destruct (_load_spiral_paths (mkSt (blank address) w))
    as [[paths|e] s1] eqn:L1; [|discriminate].
  apply load_spiral_paths_ok in L1.
  destruct L1 as [Hpaths [S1 [F1 _]]]. simpl in Hpaths, S1, F1.
  subst paths.
  unfold bind at 1 in H. unfold on_self at 1, modify at 1 in H.
  unfold bind at 1 in H.
  match type of H with
  | context [_load_existing_ports ?s] =>
      pose proof (load_ports_loop_only_fs (spiral_paths (self s)) [] s)
        as L2;
      unfold _load_existing_ports, bind at 1, gets at 1 in H
  end.
  simpl self in H, L2. simpl spiral_paths in H, L2.
  destruct (load_ports_loop _ [] _) as [[loaded|e] s2]; [|discriminate].
  simpl in L2. apply only_fs_fields in L2. destruct L2 as [S2 _].
  unfold bind at 1, on_self at 1, modify at 1 in H.
  destruct (_build_ui _) as [[[]|e] s3] eqn:B; [|discriminate].
  injection H as <- <-.
  apply build_ui_run in B. destruct B as [B1 [B2 B3]].
  simpl in B1, B2, B3. rewrite S2, S1 in B1, B2. simpl in B1, B2.
  assert (Hex : forall p, In p (spiral_paths (self s3)) ->
                  exists_ (fs w) (cap_path p) = Ok true).
  { intros p Hp. rewrite B1 in Hp. unfold solved_entries in Hp.
    destruct (read_address_entries (fs w) address); [|destruct Hp].
    destruct (select _ a) as [kept|e] eqn:Sel; [|destruct Hp].
    apply select_ok in Sel. now apply Sel. }
  assert (Hrows : forall iid fname n, In (iid, (fname, n)) (tree (self s3)) ->
            exists p, In p (spiral_paths (self s3))
                      /\ iid = str_path p /\ fname = name p
                      /\ n = count_of (fs (world s3)) p).
  { intros iid fname n Hrow. rewrite B2, <- B3 in Hrow.
    apply in_map_iff in Hrow. destruct Hrow as [p [E Hp]].
    unfold row_of in E. injection E as <- <- <-.
    rewrite <- B1 in Hp. exists p. auto. }
  split; [exact B1|]. split; [now rewrite B1, B2, B3|].
  split; [exact Hex|]. split.
  { intros p Hmiss Hin. apply Hex in Hin. congruence. }
  intros iid fname n Hrow.
  destruct (Hrows _ _ _ Hrow) as [p [Hp [-> [-> ->]]]].
  exists p. repeat split; auto.
  - intros Hn. unfold count_of in Hn.
    destruct (PG_load_capacitance_matrix (cap_path p) (fs (world s3)))
      as [m|e]; [|left; eauto].
    right. exists m. split; [reflexivity|].
    destruct (shape m) as [|k rest]; [now left|].
    right. exists rest. now subst k.
  - intros [[e He]|[m [Hm [Hs|[rest Hs]]]]]; unfold count_of.
    + now rewrite He.
    + now rewrite Hm, Hs.
    + now rewrite Hm, Hs.
Qed.

End InitFacts.

(** * The properties on the sample disk *)

Section OnTheSampleDisk.
Import Sample PortsPopup.
Existing Instance all_succeed.

(** C1 on a batch whose last variant has three conductors while two
    signs are typed: nothing changes. *)
Lemma apply_all_or_nothing_witness :
  let st := window solved_disk "+1 +1" [] in
  let out := _apply_to_paths variants st in
  (count_of solved_disk "/work/c" <> 0
   /\ List.length (signs_tokens "+1 +1") <> count_of solved_disk "/work/c")
  /\ fst out = Ok tt /\ self (snd out) = self st.
Proof.
  intros st out.
  assert (H : count_of solved_disk "/work/c" <> 0
              /\ List.length (signs_tokens "+1 +1")
                 <> count_of solved_disk "/work/c")
    by (vm_compute; split; discriminate).
  split; [exact H|].
  destruct (apply_all_or_nothing variants st) as [A _].
  destruct A as [A1 [A2 _]].
  - exists "/work/c". split; [simpl; auto|exact H].
  - split; assumption.
Defined.

(** C2 fails: with a failing variant [b] between [a] and [c], the call
    raises, [c] is never dispatched, nothing is logged and no summary
    is written. *)
Lemma run_plots_stops_at_failure :
  let st := window (disk solved_b_broken []) "+1 +1" [] in
  let out := _run_plots st in
  fst out = Raise (OtherError "plot failed")
  /\ exists_ (fs (world (snd out))) "/work/a/plot.done" = Ok true
  /\ exists_ (fs (world (snd out))) "/work/c/plot.done" = Ok false
  /\ exists_ (fs (world (snd out))) "/work/ports_summary.csv" = Ok false
  /\ log (world (snd out)) = "".
Proof. vm_compute. repeat split. Qed.

(** C2, as amended, on the same disk: [a] is dispatched, the call for
    [b] raises, and the exception leaves [_run_plots]. *)
Lemma run_plots_failure_propagates_witness :
  let st := window (disk solved_b_broken []) "+1 +1" [] in
  exists st1 recs fs2,
    plot_loop ["/work/a"] [] st = (Ok recs, st1)
    /\ PG_process_spiral "/work/b" recs [] true (fs (world st1))
       = (Raise (OtherError "plot failed"), fs2)
    /\ _run_plots st = (Raise (OtherError "plot failed"), with_fs fs2 st).
Proof.
  intros st.
  exists (snd (plot_loop ["/work/a"] [] st)).
  exists [[("variant", PyStr "a")]].
  exists (fs (world (snd (plot_loop ["/work/a"] [] st)))).
  assert (H1 : plot_loop ["/work/a"] [] st
               = (Ok [[("variant", PyStr "a")]],
                  snd (plot_loop ["/work/a"] [] st)))
    by reflexivity.
  assert (H2 : PG_process_spiral "/work/b" [[("variant", PyStr "a")]]
                 (ports_get (ports (self st)) "/work/b") true
                 (fs (world (snd (plot_loop ["/work/a"] [] st))))
               = (Raise (OtherError "plot failed"),
                  fs (world (snd (plot_loop ["/work/a"] [] st)))))
    by reflexivity.
  split; [exact H1|]. split; [exact H2|].
  exact (run_plots_failure_propagates ["/work/a"] ["/work/c"] "/work/b"
           st _ _ _ _ eq_refl H1 H2).
Defined.

(** C3 fails: [a] and [b] both fail the validation, and the only
    warning names [a]. *)
Lemma apply_reports_one_of_two :
  let st := window solved_disk "+1" [] in
  let out := _apply_to_paths ["/work/a"; "/work/b"] st in
  failing_variants solved_disk (signs_tokens "+1") ["/work/a"; "/work/b"]
  = ["/work/a"; "/work/b"]
  /\ boxes (world (snd out)) = [size_box solved_disk ["+1"] "/work/a"]
  /\ ~ In (size_box solved_disk ["+1"] "/work/b") (boxes (world (snd out))).
Proof.
  vm_compute. repeat split.
  intros [H|[]]. discriminate H.
Qed.

(** C3, as amended, on the same batch: the warning is the one of [a]. *)
Lemma apply_reports_first_failing_witness :
  let st := window solved_disk "+1" [] in
  mismatch solved_disk (signs_tokens "+1") "/work/a" = true
  /\ _apply_to_paths ([] ++ "/work/a" :: ["/work/b"]) st
     = (Ok tt,
      with_box (size_box solved_disk (signs_tokens "+1") "/work/a") st).
Proof.
  intros st.
  assert (H : mismatch solved_disk (signs_tokens "+1") "/work/a" = true)
    by reflexivity.
  split; [exact H|].
  exact (apply_reports_first_failing [] ["/work/b"] "/work/a" st
           eq_refl (Forall_nil _) H).
Defined.



(** C6 fails: both layers of quotes around [v1] are removed where a
    single layer would leave one, and the line holding a quoted space
    gives an entry although the specification does not count it.  And
    a manifest that is read may give no entry at all: its one counted
    line holds a null character, and [resolve] raises for it. *)
Lemma read_address_entries_strips_every_layer :
  map spec_clean (PyStr.splitlines quoted_manifest)
  = [PyStr.dquote +++ "v1" +++ PyStr.dquote; " "]
  /\ List.length (filter spec_counted (PyStr.splitlines quoted_manifest))
     = 1
  /\ read_address_entries quoted_disk "/work/Address.txt"
     = Ok ["/work/v1"; "/work/ "]
  /\ read_text null_entry_disk "/work/Address.txt" = Ok null_manifest
  /\ List.length (filter spec_counted (PyStr.splitlines null_manifest)) = 1
  /\ read_address_entries null_entry_disk "/work/Address.txt"
     = Raise (ValueError "embedded null byte").
Proof. vm_compute. repeat split. Qed.

(** C6, as amended, on the sample manifest: its three lines resolve and
    give the three variants, in order. *)
Lemma read_address_entries_spec_witness :
  (forall p, In p variants -> is_ok (resolve solved_disk p) = true)
  /\ read_address_entries solved_disk "/work/Address.txt" = Ok variants
  /\ Forall2 (fun p q => resolve solved_disk p = Ok q) variants variants.
Proof.
  assert (Hall : forall p, In p variants ->
                   is_ok (resolve solved_disk p) = true)
    by (intros p [<-|[<-|[<-|[]]]]; reflexivity).
  destruct (read_address_entries_spec solved_disk "/work/Address.txt")
    as [H _].
  change (read_text solved_disk "/work/Address.txt")
    with (@Ok string ("a" +++ nl +++ "b" +++ nl +++ "c" +++ nl)) in H.
  cbv zeta iota in H. destruct H as [Hiff [_ [Hok _]]].
  specialize (Hok Hall).
  destruct (read_address_entries solved_disk "/work/Address.txt")
    as [entries|e] eqn:E; [|discriminate Hok].
  assert (Hv : entries = variants) by (injection E as <-; reflexivity).
  subst entries.
  split; [exact Hall|]. split; [reflexivity|].
  exact (proj1 (Hiff variants) eq_refl).
Defined.

(** C7 on variant [a], whose matrix has two rows, and on a variant
    without the file. *)
Lemma count_conductors_safe_witness :
  let st := window solved_disk "" [] in
  _count_conductors "/work/a" st = (Ok 2, st)
  /\ _count_conductors "/work/missing" st = (Ok 0, st).
Proof.
  intros st. split.
  - destruct (count_conductors_safe "/work/a" st)
      as [n [H [_ [_ [Hrows _]]]]].
    rewrite (Hrows (mkMatrix [2; 2]) 2 [2] eq_refl eq_refl) in H.
    exact H.
  - destruct (count_conductors_safe "/work/missing" st)
      as [n [H [Hraise _]]].
    rewrite (Hraise (OSError "No such file or directory") eq_refl) in H.
    exact H.
Defined.

(** C8 fails: the entry of a manifest line of 300 characters cannot be
    examined, [exists] raises for it and the exception leaves
    [_verify_address], which answers no list and shows no box. *)
Lemma verify_address_entry_too_long :
  let a := panel long_entry_disk in
  is_file long_entry_disk "/work/Address.txt" = Ok true
  /\ read_address_entries long_entry_disk "/work/Address.txt"
     = Ok ["/work/" +++ long_name]
  /\ (exists msg,
        MainApp.missing_entries long_entry_disk ["/work/" +++ long_name]
        = Raise (OSError msg)
        /\ MainApp._verify_address a = (Raise (OSError msg), a)).
Proof.
  intros a. split; [reflexivity|]. split; [reflexivity|].
  eexists. split; reflexivity.
Qed.

(** C8, as amended, on a manifest whose folder [b] is missing: the
    missing list is [b] alone, the answer is [False] and the warning
    names [b]. *)
Lemma verify_address_missing_witness :
  let a := panel b_missing_disk in
  is_file b_missing_disk "/work/Address.txt" = Ok true
  /\ read_address_entries b_missing_disk "/work/Address.txt" = Ok variants
  /\ MainApp.missing_entries b_missing_disk variants = Ok ["/work/b"]
  /\ MainApp._verify_address a
     = (Ok false,
        app_with_box (mkBox BoxWarning "Missing folders" "/work/b") a).
Proof.
  intros a.
  assert (H1 : is_file b_missing_disk "/work/Address.txt" = Ok true)
    by reflexivity.
  assert (H2 : read_address_entries b_missing_disk "/work/Address.txt"
             = Ok variants)
    by reflexivity.
  assert (H3 : forall p, In p variants ->
                 is_ok (exists_ b_missing_disk p) = true).
  { intros p Hp. simpl in Hp.
    destruct Hp as [<-|[<-|[<-|[]]]]; reflexivity. }
  destruct (verify_address_missing a variants H1 H2 H3)
    as [missing [Hm [_ [_ [Hf Hrun]]]]].
  assert (Hb : missing = ["/work/b"]) by (rewrite Hf; reflexivity).
  subst missing.
  split; [exact H1|]. split; [exact H2|]. split; [exact Hm|]. exact Hrun.
Defined.

(** C9 on the batch [a], [b] with the signs [+1, x]: the call raises
    and the state is as before. *)
Lemma apply_bad_token_raises_unchanged_witness :
  let st := window solved_disk "+1, x" [] in
  In "x" (signs_tokens "+1, x") /\ float_of_str "x" = None
  /\ exists msg,
       _apply_to_paths ["/work/a"; "/work/b"] st
       = (Raise (ValueError msg), st).
Proof.
  intros st.
  assert (H1 : In "x" (signs_tokens "+1, x")) by (simpl; auto).
  split; [exact H1|]. split; [reflexivity|].
  apply (apply_bad_token_raises_unchanged "/work/a" ["/work/b"] st "x").
  - reflexivity.
  - intros q [<-|[<-|[]]]; reflexivity.
  - exact H1.
  - reflexivity.
Defined.

(** C10 on the sample manifest: the window opens and lists the three
    solved variants, each with its matrix on the disk. *)
Lemma init_lists_solved_only_witness :
  exists popup w',
    __init__ "/work/Address.txt" (world_of solved_disk)
    = (Ok popup, w')
    /\ spiral_paths popup = variants
    /\ map fst (tree popup) = variants.
Proof.
  assert (Hok : is_ok (fst (__init__ "/work/Address.txt"
                              (world_of solved_disk))) = true)
    by (vm_compute; reflexivity).
  destruct (__init__ "/work/Address.txt"
              (world_of solved_disk)) as [[popup|e] w'] eqn:E;
    [|discriminate Hok].
  exists popup, w'. split; [reflexivity|].
  destruct (init_lists_solved_only _ _ _ _ E)
    as [H1 [H2 _]].
  assert (Hs : spiral_paths popup = variants)
    by (rewrite H1; vm_compute; reflexivity).
  split; [exact Hs|].
  rewrite H2, Hs. reflexivity.
Defined.

(** C10 fails: the capacitance matrix of [e] is a file that is read
    and loaded, without rows, and [e] is listed with count 0. *)
Lemma listed_with_readable_empty_matrix :
  let cap := "/work/e/FastSolver/CapacitanceMatrix.txt" in
  let out := __init__ "/work/Address.txt" (world_of empty_matrix_disk) in
  cap_path "/work/e" = cap
  /\ read_text empty_matrix_disk cap = Ok ""
  /\ PG_load_capacitance_matrix cap empty_matrix_disk = Ok (mkMatrix [0; 0])
  /\ (exists popup,
        fst out = Ok popup /\ tree popup = [("/work/e", ("e", 0))])
  /\ PG_load_capacitance_matrix cap (fs (snd out)) = Ok (mkMatrix [0; 0]).
Proof.
  intros cap out. split; [reflexivity|]. split; [reflexivity|].
  split; [reflexivity|]. split.
  - assert (H : match fst out with
                | Ok popup => tree popup = [("/work/e", ("e", 0))]
                | Raise _ => False
                end) by (vm_compute; reflexivity).
    destruct (fst out) as [popup|e]; [eauto|destruct H].
  - vm_compute. reflexivity.
Qed.

End OnTheSampleDisk.

Section OnAFailingConversion.
Import Sample MainApp.
Existing Instance convert_fails.

(** C4 when the conversion exits with status 3: the solver stage is
    never invoked. *)
Lemma run_pipeline_fail_fast_witness :
  let a := panel (disk solved []) in
  let a1 := snd (_verify_address a) in
  let c1 := convert_cmd "/work/Address.txt" in
  _verify_address a = (Ok true, a1)
  /\ os_spawn c1 (fs (app_world a1))
     = (Exited 3 "done" "", fs (app_world a1))
  /\ fst (_run_pipeline a) = Ok tt
  /\ invoked (app_world (snd (_run_pipeline a))) = [c1].
Proof.
  intros a a1 c1.
  assert (H1 : _verify_address a = (Ok true, a1)) by reflexivity.
  assert (H2 : os_spawn c1 (fs (app_world a1))
               = (Exited 3 "done" "", fs (app_world a1))) by reflexivity.
  split; [exact H1|]. split; [exact H2|].
  destruct (run_pipeline_fail_fast a a1 3 "done" "" _ H1 H2)
    as [_ [Hfail _]].
  destruct Hfail as [Hrun [Hinv _]]; [discriminate|].
  rewrite Hrun. split; [reflexivity|]. exact Hinv.
Defined.

(** C4 fails: the run reports neither failure nor success.  When the
    conversion exits with status 3 the run stops after it, and when
    both stages exit with status 0 the run completes; [_run_pipeline]
    answers [None] in both runs, so that no reading of its answer tells
    the failed run from the successful one. *)
Lemma run_pipeline_answers_none :
  let failed := _run_pipeline (CO := convert_fails) (panel solved_disk) in
  let passed := _run_pipeline (CO := all_succeed) (panel solved_disk) in
  let c1 := convert_cmd "/work/Address.txt" in
  let c2 := solve_cmd "/work/Address.txt" "3.5" in
  invoked (app_world (snd failed)) = [c1]
  /\ map box_title (boxes (app_world (snd failed)))
     = ["Address check"; "Command failed"]
  /\ invoked (app_world (snd passed)) = [c1; c2]
  /\ map box_title (boxes (app_world (snd passed)))
     = ["Address check"; "Solvers complete"]
  /\ fst failed = Ok tt /\ fst passed = Ok tt
  /\ forall report : result unit -> bool,
       report (fst failed) = report (fst passed).
Proof.
  intros failed passed c1 c2.
  assert (Hf : fst failed = Ok tt) by (vm_compute; reflexivity).
  assert (Hp : fst passed = Ok tt) by (vm_compute; reflexivity).
  split; [vm_compute; reflexivity|]. split; [vm_compute; reflexivity|].
  split; [vm_compute; reflexivity|]. split; [vm_compute; reflexivity|].
  split; [exact Hf|]. split; [exact Hp|].
  intros report. now rewrite Hf, Hp.
Qed.

End OnAFailingConversion.

(** C9 fails: no input makes a rejected token leave the port set
    partially applied.  Whatever the runtime, the collaborators, the
    batch and the state, a call that raises with a token that [float]
    rejects leaves every port mapping as it was. *)
Lemma apply_bad_token_never_partial :
  ~ exists (RT : Runtime) (CO : Collaborators) (paths : list Path)
      (st : PortsPopup.St) (tok : string),
      let signs_raw :=
        PortsPopup.signs_tokens (PortsPopup.var_signs (PortsPopup.self st)) in
      In tok signs_raw /\ float_of_str tok = None
      /\ (forall q, In q paths ->
            mismatch (fs (PortsPopup.world st)) signs_raw q = false)
      /\ exists e st',
           PortsPopup._apply_to_paths paths st = (Raise e, st')
           /\ PortsPopup.ports (PortsPopup.self st')
              <> PortsPopup.ports (PortsPopup.self st).
Proof.
  intros (RT & CO & paths & st & tok & Hin & Hbad & _ & e & st' & Hrun & Hne).
  apply Hne.
  pose proof (bad_token_keeps_ports paths st tok Hin Hbad) as H.
  now rewrite Hrun in H.
Qed.

(** ** Python strings on examples *)

Example splitlines_ex :
  PyStr.splitlines
    ("a" +++ PyStr.newline +++ PyStr.newline +++ "b" +++ PyStr.newline)
  = ["a"; ""; "b"].
Proof. reflexivity. Qed.

Example split_ex : PyStr.split "  +1  -1 x " = ["+1"; "-1"; "x"].
Proof. reflexivity. Qed.

Example strip_ex : PyStr.strip "  a b  " = "a b".
Proof. reflexivity. Qed.

(** * Further properties of the port window *)

Section DictMoreFacts.
Context {K V : Type} (dec : forall a b : K, {a = b} + {a <> b}).

Lemma set_get_id (d : PyDict.t (K := K) (V := V)) (k : K) (v : V) :
  PyDict.get dec d k = Some v -> PyDict.set dec d k v = d.
Proof.
  induction d as [|[k' v'] d IH]; simpl; [discriminate|].
  destruct (dec k k') as [E|N].
  - intros H. injection H as ->. reflexivity.
  - intros H. now rewrite IH.
Qed.

Lemma set_fresh (d : PyDict.t (K := K) (V := V)) (k : K) (v : V) :
  PyDict.get dec d k = None -> PyDict.set dec d k v = d ++ [(k, v)].
Proof.
  induction d as [|[k' v'] d IH]; simpl; [reflexivity|].
  destruct (dec k k'); [discriminate|].
  intros H. now rewrite IH.
Qed.

Lemma set_set (d : PyDict.t (K := K) (V := V)) (k : K) (v w : V) :
  PyDict.set dec (PyDict.set dec d k v) k w = PyDict.set dec d k w.
Proof.
  induction d as [|[k' v'] d IH]; simpl.
  - destruct (dec k k); [reflexivity|contradiction].
  - destruct (dec k k') as [E|N]; simpl.
    + destruct (dec k k'); [reflexivity|contradiction].
    + destruct (dec k k'); [contradiction|now rewrite IH].
Qed.

Lemma get_app_fresh (d : PyDict.t (K := K) (V := V)) (k : K) (v : V) :
  PyDict.get dec d k = None -> PyDict.get dec (d ++ [(k, v)]) k = Some v.
Proof.
  induction d as [|[k' v'] d IH]; simpl.
  - destruct (dec k k); [reflexivity|contradiction].
  - destruct (dec k k'); [discriminate|exact IH].
Qed.

Lemma set_app_last (d : PyDict.t (K := K) (V := V)) (k : K) (a b : V) :
  PyDict.get dec d k = None ->
  PyDict.set dec (d ++ [(k, a)]) k b = d ++ [(k, b)].
Proof.
  induction d as [|[k' v'] d IH]; simpl.
  - destruct (dec k k); [reflexivity|contradiction].
  - destruct (dec k k'); [discriminate|].
    intros H. now rewrite IH.
Qed.

Lemma get_pop_other (d : PyDict.t (K := K) (V := V)) (k k0 : K) :
  k0 <> k -> PyDict.get dec (PyDict.pop dec d k) k0 = PyDict.get dec d k0.
Proof.
  intros N. induction d as [|[k' v'] d IH]; simpl; [reflexivity|].
  destruct (dec k k') as [E|N']; simpl.
  - subst k'. destruct (dec k0 k); [contradiction|reflexivity].
  - destruct (dec k0 k'); [reflexivity|exact IH].
Qed.

Lemma get_none_not_in (d : PyDict.t (K := K) (V := V)) (k : K) :
  ~ In k (map fst d) -> PyDict.get dec d k = None.
Proof.
  induction d as [|[k' v'] d IH]; simpl; [reflexivity|].
  intros H. destruct (dec k k') as [E|N].
  - exfalso. apply H. left. now symmetry.
  - apply IH. intros H'. apply H. now right.
Qed.

(** In a dictionary, whose keys are distinct, a popped key is gone. *)
Lemma get_pop_same (d : PyDict.t (K := K) (V := V)) (k : K) :
  NoDup (map fst d) -> PyDict.get dec (PyDict.pop dec d k) k = None.
Proof.
  induction d as [|[k' v'] d IH]; simpl; [reflexivity|].
  intros H. inversion H as [|? ? Hnot Hrest]; subst.
  destruct (dec k k') as [E|N]; simpl.
  - subst k'. now apply get_none_not_in.
  - destruct (dec k k'); [contradiction|now apply IH].
Qed.

End DictMoreFacts.

Section SummaryFacts.
Context `{CO : Collaborators}.
Import PortsPopup.

Lemma for_each_fold_summary {X} (f : string -> X -> string) (xs : list X)
  (body : X -> M St unit) :
  (forall x st,
      body x st
      = (Ok tt, mkSt (set_summary (f (summary (self st)) x) (self st))
                     (world st))) ->
  forall st,
    for_each xs body st
    = (Ok tt, mkSt (set_summary (fold_left f xs (summary (self st))) (self st))
                   (world st)).
Proof.
  intros Hbody. induction xs as [|x rest IH]; intros st.
  - simpl. unfold ret. destruct st as [[] ?]. reflexivity.
  - simpl. unfold bind. rewrite Hbody, IH. reflexivity.
Qed.

(** [_refresh_summary] rewrites the summary pane from the port mapping
    alone. *)
Lemma refresh_summary_render (st : St) :
  _refresh_summary st
  = (Ok tt,
     mkSt (set_summary (render_ports (ports (self st))) (self st)) (world st)).
Proof.
  unfold _refresh_summary. unfold bind at 1. unfold on_self at 1.
  unfold modify at 1. unfold bind at 1. unfold gets at 1.
  cbn [self ports set_summary].
  rewrite (for_each_fold_summary render_variant).
  - reflexivity.
  - intros [path pmap] s. unfold bind at 1.
    unfold summary_insert at 1, on_self at 1, modify at 1.
    rewrite (for_each_fold_summary render_port).
    + reflexivity.
    + intros [pname pdata] s'. reflexivity.
Qed.

End SummaryFacts.

Section ApplyMore.
Context `{CO : Collaborators}.
Import PortsPopup.

Lemma define_port_id p pname value (d : Ports) :
  has_port d p pname value -> define_port p pname value d = d.
Proof.
  intros [pmap [H1 H2]]. unfold define_port, PyDict.setdefault. rewrite H1.
  rewrite (set_get_id string_dec _ _ _ H2). now apply set_get_id.
Qed.

Lemma committed_id pname value paths (d : Ports) :
  (forall p, In p paths -> has_port d p pname value) ->
  committed pname value paths d = d.
Proof.
  induction paths as [|p rest IH]; simpl; intros H; [reflexivity|].
  rewrite define_port_id by (apply H; auto).
  apply IH. intros q Hq. apply H. auto.
Qed.

Lemma committed_other pname value paths (d : Ports) q :
  ~ In q paths ->
  PyDict.get Path_eq_dec (committed pname value paths d) q
  = PyDict.get Path_eq_dec d q.
Proof.
  revert d. induction paths as [|p rest IH]; simpl; intros d H;
    [reflexivity|].
  rewrite IH by tauto. apply define_port_other.
  intros E. apply H. left. now symmetry.
Qed.

Lemma port_lookup_define p pname value (d : Ports) q n :
  n <> pname ->
  port_lookup (define_port p pname value d) q n = port_lookup d q n.
Proof.
  intros N. unfold port_lookup, ports_get.
  destruct (Path_eq_dec q p) as [->|Nq].
  - unfold define_port, PyDict.setdefault.
    destruct (PyDict.get Path_eq_dec d p) as [pmap|] eqn:G.
    + rewrite get_set_same. now apply get_set_other.
    + rewrite get_set_same. now rewrite get_set_other by assumption.
  - now rewrite define_port_other.
Qed.

Lemma port_lookup_committed pname value paths (d : Ports) q n :
  n <> pname ->
  port_lookup (committed pname value paths d) q n = port_lookup d q n.
Proof.
  intros N. revert d. induction paths as [|p rest IH]; simpl; intros d;
    [reflexivity|].
  rewrite IH. now apply port_lookup_define.
Qed.

Lemma find_all_false {A} (f : A -> bool) (l : list A) :
  (forall x, In x l -> f x = false) -> find f l = None.
Proof.
  induction l as [|a l IH]; simpl; intros H; [reflexivity|].
  rewrite (H a) by auto. apply IH. intros x Hx. apply H. auto.
Qed.

(** The state after a batch apply that passes every check. *)
Lemma apply_success (paths : list Path) (st : St) (xs : list Float) :
  let fs0 := fs (world st) in
  let signs_raw := signs_tokens (var_signs (self st)) in
  let pname := PyStr.strip (var_port_name (self st)) in
  PyStr.is_empty pname = false ->
  (forall q, In q paths -> mismatch fs0 signs_raw q = false) ->
  floats signs_raw = Ok xs ->
  _apply_to_paths paths st
  = (Ok tt,
     with_ports
       (committed pname (port_value (var_type (self st)) xs) paths
          (ports (self st)))
       st).
Proof.
  intros fs0 signs_raw pname Hname Hall Hf.
  rewrite apply_to_paths_run. fold fs0 signs_raw pname. rewrite Hname.
  rewrite (find_all_false _ _ Hall). unfold bind.
  rewrite (commit_ok _ _ _ _ _ Hf). rewrite refresh_summary_render.
  reflexivity.
Qed.

(** After a batch apply that passes every check each target holds the
    definition. *)
Lemma apply_stores_and_frames_aux (paths : list Path) (st : St)
  (xs : list Float) :
  let fs0 := fs (world st) in
  let signs_raw := signs_tokens (var_signs (self st)) in
  let pname := PyStr.strip (var_port_name (self st)) in
  let out := _apply_to_paths paths st in
  PyStr.is_empty pname = false ->
  (forall q, In q paths -> mismatch fs0 signs_raw q = false) ->
  floats signs_raw = Ok xs ->
  fst out = Ok tt
  /\ (forall p, In p paths ->
        port_lookup (ports (self (snd out))) p pname
        = Some (port_value (var_type (self st)) xs)).
Proof.
  intros fs0 signs_raw pname out Hname Hall Hf. subst out.
  rewrite (apply_success paths st xs Hname Hall Hf). fold pname.
  cbn [fst snd with_ports self world ports summary set_summary set_ports].
  split; [reflexivity|].
  intros p Hp.
  destruct (committed_has_port pname (port_value (var_type (self st)) xs)
              paths (ports (self st)) p Hp) as [pmap [H1 H2]].
  unfold port_lookup, ports_get. now rewrite H1.
Qed.

(** X1. A batch apply that passes every check returns normally, stores
    the definition under the port name for each target and refreshes
    the summary pane; it leaves the mapping of every variant outside the
    batch, every port of another name, the disk, the log and the message
    boxes as they were. *)
Theorem apply_stores_and_frames (paths : list Path) (st : St)
  (xs : list Float) :
  let fs0 := fs (world st) in
  let signs_raw := signs_tokens (var_signs (self st)) in
  let pname := PyStr.strip (var_port_name (self st)) in
  let out := _apply_to_paths paths st in
  PyStr.is_empty pname = false ->
  (forall q, In q paths -> mismatch fs0 signs_raw q = false) ->
  floats signs_raw = Ok xs ->
  fst out = Ok tt
  /\ world (snd out) = world st
  /\ summary (self (snd out)) = render_ports (ports (self (snd out)))
  /\ (forall p, In p paths ->
        port_lookup (ports (self (snd out))) p pname
        = Some (port_value (var_type (self st)) xs))
  /\ (forall q, ~ In q paths ->
        PyDict.get Path_eq_dec (ports (self (snd out))) q
        = PyDict.get Path_eq_dec (ports (self st)) q)
  /\ (forall q n, n <> pname ->
        port_lookup (ports (self (snd out))) q n
        = port_lookup (ports (self st)) q n).
Proof.
  intros fs0 signs_raw pname out Hname Hall Hf. subst out.
  rewrite (apply_success paths st xs Hname Hall Hf). fold pname.
  cbn [fst snd with_ports self world ports summary set_summary set_ports].
  repeat split.
  - intros p Hp.
    destruct (committed_has_port pname (port_value (var_type (self st)) xs)
                paths (ports (self st)) p Hp) as [pmap [H1 H2]].
    unfold port_lookup, ports_get. now rewrite H1.
  - intros q Hq. now apply committed_other.
  - intros q n Hn. now apply port_lookup_committed.
Qed.

(** X2. Applying the same definition a second time changes nothing: the
    call returns normally and the state is the one the first call
    left. *)
Theorem apply_twice_same (paths : list Path) (st : St) (xs : list Float) :
  let fs0 := fs (world st) in
  let signs_raw := signs_tokens (var_signs (self st)) in
  let pname := PyStr.strip (var_port_name (self st)) in
  let st1 := snd (_apply_to_paths paths st) in
  PyStr.is_empty pname = false ->
  (forall q, In q paths -> mismatch fs0 signs_raw q = false) ->
  floats signs_raw = Ok xs ->
  _apply_to_paths paths st1 = (Ok tt, st1).
Proof.
  intros fs0 signs_raw pname st1 Hname Hall Hf. subst st1.
  rewrite (apply_success paths st xs Hname Hall Hf). fold pname.
  cbn [snd].
  rewrite (apply_success paths _ xs); [|exact Hname|exact Hall|exact Hf].
  cbn [with_ports self world ports var_type var_port_name set_summary
       set_ports].
  fold pname.
  rewrite (committed_id pname _ paths
             (committed pname (port_value (var_type (self st)) xs) paths
                (ports (self st)))).
  - reflexivity.
  - intros p Hp. now apply committed_has_port.
Qed.

(** X3. Whatever the batch and the entries, a batch apply never writes
    to the disk, the log or the list of commands, never assigns another
    attribute of the window than the port mapping and the summary,
    shows at most one message box, a warning, in which case the port
    mapping is unchanged, and raises nothing but [ValueError]. *)
Theorem apply_outcomes (paths : list Path) (st : St) :
  let out := _apply_to_paths paths st in
  (fst out = Ok tt \/ exists msg, fst out = Raise (ValueError msg))
  /\ fs (world (snd out)) = fs (world st)
  /\ log (world (snd out)) = log (world st)
  /\ invoked (world (snd out)) = invoked (world st)
  /\ same_fixed (self st) (self (snd out))
  /\ var_signs (self (snd out)) = var_signs (self st)
  /\ (boxes (world (snd out)) = boxes (world st)
      \/ (exists title message,
            boxes (world (snd out))
            = boxes (world st) ++ [mkBox BoxWarning title message])
         /\ ports (self (snd out)) = ports (self st)).
Proof.
  intros out. subst out. rewrite apply_to_paths_run.
  destruct (PyStr.is_empty _).
  { unfold same_fixed. cbn. repeat split; eauto 10. }
  destruct (find _ paths) as [p|] eqn:F.
  { unfold same_fixed, size_box. cbn. repeat split; eauto 10. }
  destruct (floats (signs_tokens (var_signs (self st)))) as [xs|e] eqn:Hf.
  - unfold bind. rewrite (commit_ok _ _ _ _ _ Hf).
    rewrite refresh_summary_render.
    unfold same_fixed. cbn. repeat split; auto.
  - destruct paths as [|p rest].
    + unfold bind, commit. cbn [for_each]. unfold ret.
      rewrite refresh_summary_render.
      unfold same_fixed. cbn. repeat split; auto.
    + unfold bind. rewrite (commit_raise _ _ _ _ _ _ Hf).
      destruct (floats_raise_value _ _ Hf) as [msg ->].
      unfold same_fixed. cbn. repeat split; eauto.
Qed.

(** X4. Validation is deferred for unsolved variants: when every target
    has conductor count 0, a definition with any number of signs is
    stored for each of them. *)
Theorem apply_unsolved_accepts_any_length (paths : list Path) (st : St)
  (xs : list Float) :
  let fs0 := fs (world st) in
  let signs_raw := signs_tokens (var_signs (self st)) in
  let pname := PyStr.strip (var_port_name (self st)) in
  let out := _apply_to_paths paths st in
  PyStr.is_empty pname = false ->
  (forall q, In q paths -> count_of fs0 q = 0) ->
  floats signs_raw = Ok xs ->
  fst out = Ok tt
  /\ forall p, In p paths ->
       has_port (ports (self (snd out))) p pname
         (port_value (var_type (self st)) xs).
Proof.
  intros fs0 signs_raw pname out Hname Hzero Hf. subst out.
  rewrite (apply_success paths st xs); [|exact Hname| |exact Hf].
  - split; [reflexivity|]. intros p Hp. cbn. fold pname.
    now apply committed_has_port.
  - intros q Hq. unfold mismatch. fold fs0. now rewrite (Hzero q Hq).
Qed.

End ApplyMore.

Section SelectAndRemove.
Context `{CO : Collaborators}.
Import PortsPopup.

Lemma plus_ones_step (n : nat) :
  PyStr.join " " (repeat "+1" (S (S n)))
  = String "+" (String "1" (String " " (PyStr.join " " (repeat "+1" (S n))))).
Proof. reflexivity. Qed.

Lemma plus_ones_no_comma (n : nat) :
  PyStr.replace_char "," " " (PyStr.join " " (repeat "+1" n))
  = PyStr.join " " (repeat "+1" n).
Proof.
  destruct n as [|n]; [reflexivity|].
  induction n as [|n IH]; [reflexivity|].
  rewrite plus_ones_step. cbn [PyStr.replace_char].
  rewrite IH. reflexivity.
Qed.

Lemma plus_ones_split (n : nat) :
  PyStr.split (PyStr.join " " (repeat "+1" n)) = repeat "+1" n.
Proof.
  destruct n as [|n]; [reflexivity|].
  unfold PyStr.split. induction n as [|n IH]; [reflexivity|].
  rewrite plus_ones_step.
  transitivity
    ("+1" :: PyStr.split_from "" (PyStr.join " " (repeat "+1" (S n)))).
  - reflexivity.
  - now rewrite IH.
Qed.

Lemma plus_ones_tokens (n : nat) :
  signs_tokens (PyStr.join " " (repeat "+1" n)) = repeat "+1" n.
Proof.
  unfold signs_tokens. rewrite plus_ones_no_comma, plus_ones_split.
  induction n as [|n IH]; [reflexivity|].
  simpl. now rewrite IH.
Qed.

Lemma floats_repeat (tok : string) (x : Float) (n : nat) :
  float_of_str tok = Some x -> floats (repeat tok n) = Ok (repeat x n).
Proof.
  intros H. induction n as [|n IH]; [reflexivity|].
  simpl. now rewrite H, IH.
Qed.

Lemma on_select_some (st : St) (item : string) (rest : list string) :
  selection (self st) = item :: rest ->
  _on_select st
  = (Ok tt,
     mkSt (set_var_signs
             (PyStr.join " "
                (repeat "+1" (count_of (fs (world st)) (mkPath item))))
             (self st))
          (world st)).
Proof.
  intros H. unfold _on_select. unfold bind at 1. unfold gets at 1.
  rewrite H. unfold bind. rewrite count_conductors_run. reflexivity.
Qed.

(** X5. Selecting a variant fills the signs entry with one [+1] per
    conductor of the first selected item, so that the entry always
    passes the dimension check of that variant; with nothing selected
    the state is left as it is. *)
Theorem on_select_prefills_valid_signs (st : St) :
  match selection (self st) with
  | [] => _on_select st = (Ok tt, st)
  | item :: _ =>
      let n := count_of (fs (world st)) (mkPath item) in
      exists st',
        _on_select st = (Ok tt, st')
        /\ world st' = world st
        /\ ports (self st') = ports (self st)
        /\ summary (self st') = summary (self st)
        /\ same_fixed (self st) (self st')
        /\ signs_tokens (var_signs (self st')) = repeat "+1" n
        /\ mismatch (fs (world st')) (signs_tokens (var_signs (self st')))
             (mkPath item) = false
  end.
Proof.
  destruct (selection (self st)) as [|item rest] eqn:S.
  - unfold _on_select, bind, gets. now rewrite S.
  - intros n. eexists. split; [exact (on_select_some st item rest S)|].
    cbn [self world set_var_signs var_signs ports summary].
    rewrite plus_ones_tokens. fold n.
    unfold same_fixed. cbn. repeat split; auto.
    unfold mismatch. fold n. rewrite repeat_length.
    rewrite Nat.eqb_refl. now rewrite andb_false_r.
Qed.

(** X6. Selecting one variant and applying at once succeeds whenever a
    port name is entered and [float] reads [+1]: the variant gets a
    port whose signs are one coefficient per conductor. *)
Theorem select_then_apply_succeeds (st : St) (item : string) (one : Float) :
  let n := count_of (fs (world st)) (mkPath item) in
  let pname := PyStr.strip (var_port_name (self st)) in
  let out := (_on_select ;; _apply_to_selected) st in
  selection (self st) = [item] ->
  PyStr.is_empty pname = false ->
  float_of_str "+1" = Some one ->
  fst out = Ok tt
  /\ port_lookup (ports (self (snd out))) (mkPath item) pname
     = Some (port_value (var_type (self st)) (repeat one n)).
Proof.
  intros n pname out Hsel Hname Hone. subst out.
  assert (E : (_on_select ;; _apply_to_selected) st
              = _apply_to_paths [mkPath item]
                  (mkSt (set_var_signs (PyStr.join " " (repeat "+1" n))
                           (self st))
                        (world st))).
  { unfold bind at 1. rewrite (on_select_some st item [] Hsel). fold n.
    unfold _apply_to_selected. unfold bind at 1. unfold gets at 1.
    cbn [self selection set_var_signs]. rewrite Hsel. reflexivity. }
  rewrite E.
  match goal with
  | |- context [_apply_to_paths ?ps ?s] =>
      pose proof (apply_stores_and_frames_aux ps s (repeat one n)) as H
  end.
  cbn [self world var_signs var_port_name var_type set_var_signs] in H.
  rewrite plus_ones_tokens in H. fold n pname in H.
  specialize (H Hname).
  destruct H as [H1 H2].
  - intros q [<-|[]]. unfold mismatch. fold n. rewrite repeat_length.
    rewrite Nat.eqb_refl. now rewrite andb_false_r.
  - now apply floats_repeat.
  - split; [exact H1|]. apply H2. now left.
Qed.

End SelectAndRemove.

Section RemoveFacts.
Context `{CO : Collaborators}.
Import PortsPopup.

Lemma remove_run (st : St) (item : string) (rest : list string)
  (pmap : PortMap) :
  selection (self st) = item :: rest ->
  PyDict.get Path_eq_dec (ports (self st)) (mkPath item) = Some pmap ->
  PyDict.mem string_dec pmap (PyStr.strip (var_port_name (self st))) = true ->
  _remove_from_selected st
  = (Ok tt,
     with_ports
       (PyDict.set Path_eq_dec (ports (self st)) (mkPath item)
          (PyDict.pop string_dec pmap
             (PyStr.strip (var_port_name (self st)))))
       st).
Proof.
  intros Hsel Hget Hmem. unfold _remove_from_selected.
  unfold bind at 1. unfold gets at 1. rewrite Hsel.
  unfold bind at 1. unfold get at 1. rewrite Hget, Hmem.
  unfold bind, on_self, modify. rewrite refresh_summary_render.
  reflexivity.
Qed.

(** X7. Removing a port that the first selected variant holds deletes
    that port there and refreshes the summary; the other ports of the
    variant, the mappings of all other variants (the other selected
    ones among them), the disk, the log and the boxes are left as they
    were. *)
Theorem remove_port_effect (st : St) (item : string) (rest : list string)
  (pmap : PortMap) :
  let p := mkPath item in
  let pname := PyStr.strip (var_port_name (self st)) in
  let out := _remove_from_selected st in
  selection (self st) = item :: rest ->
  PyDict.get Path_eq_dec (ports (self st)) p = Some pmap ->
  NoDup (map fst pmap) ->
  PyDict.mem string_dec pmap pname = true ->
  fst out = Ok tt
  /\ world (snd out) = world st
  /\ summary (self (snd out)) = render_ports (ports (self (snd out)))
  /\ port_lookup (ports (self (snd out))) p pname = None
  /\ (forall n, n <> pname ->
        port_lookup (ports (self (snd out))) p n
        = port_lookup (ports (self st)) p n)
  /\ (forall q, q <> p ->
        PyDict.get Path_eq_dec (ports (self (snd out))) q
        = PyDict.get Path_eq_dec (ports (self st)) q).
Proof.
  intros p pname out Hsel Hget Hnd Hmem. subst out.
  rewrite (remove_run st item rest pmap Hsel Hget Hmem).
  fold p pname.
  cbn [fst snd with_ports self world ports summary set_summary set_ports].
  repeat split.
  - unfold port_lookup, ports_get. rewrite get_set_same.
    now apply get_pop_same.
  - intros n Hn. unfold port_lookup, ports_get.
    rewrite get_set_same, Hget. now apply get_pop_other.
  - intros q Hq. now apply get_set_other.
Qed.

(** X8. Removing does nothing at all, and raises nothing, when no item
    is selected, when the first selected variant has no mapping, or
    when its mapping has no port of the entered name. *)
Theorem remove_port_noop (st : St) :
  match selection (self st) with
  | [] => True
  | item :: _ =>
      port_lookup (ports (self st)) (mkPath item)
        (PyStr.strip (var_port_name (self st))) = None
  end ->
  _remove_from_selected st = (Ok tt, st).
Proof.
  unfold _remove_from_selected, bind, gets, get.
  destruct (selection (self st)) as [|item rest]; [reflexivity|].
  unfold port_lookup, ports_get, PyDict.mem.
  destruct (PyDict.get Path_eq_dec (ports (self st)) (mkPath item))
    as [pmap|]; [|reflexivity].
  intros H. now rewrite H.
Qed.

Lemma define_port_fresh p pname value (d : Ports) :
  PyDict.get Path_eq_dec d p = None ->
  define_port p pname value d = d ++ [(p, [(pname, value)])].
Proof.
  intros H. unfold define_port, PyDict.setdefault. rewrite H.
  rewrite set_set. now apply set_fresh.
Qed.

(** X9. Defining a port for a variant that had no mapping and removing
    it again does not restore the port mapping: the variant keeps an
    empty mapping, appended after the others, so the port mapping is not
    empty any more even if it was before. *)
Theorem define_then_remove_leaves_empty_mapping (st : St) (item : string)
  (xs : list Float) :
  let p := mkPath item in
  let fs0 := fs (world st) in
  let signs_raw := signs_tokens (var_signs (self st)) in
  let pname := PyStr.strip (var_port_name (self st)) in
  let out := (_apply_to_selected ;; _remove_from_selected) st in
  selection (self st) = [item] ->
  PyDict.get Path_eq_dec (ports (self st)) p = None ->
  PyStr.is_empty pname = false ->
  mismatch fs0 signs_raw p = false ->
  floats signs_raw = Ok xs ->
  out = (Ok tt, with_ports (ports (self st) ++ [(p, [])]) st)
  /\ PyDict.is_empty (ports (self (snd out))) = false
  /\ ports_get (ports (self (snd out))) p = [].
Proof.
  intros p fs0 signs_raw pname out Hsel Hnone Hname Hmis Hf.
  assert (E : out = (Ok tt, with_ports (ports (self st) ++ [(p, [])]) st)).
  { subst out. unfold bind at 1. unfold _apply_to_selected at 1.
    unfold bind at 1. unfold gets at 1. rewrite Hsel. cbn [map].
    fold p. rewrite (apply_success [p] st xs);
      [|exact Hname|intros q [<-|[]]; exact Hmis|exact Hf].
    fold pname. cbn [committed fold_left].
    rewrite (define_port_fresh _ _ _ _ Hnone).
    set (value := port_value (var_type (self st)) xs).
    rewrite (remove_run _ item [] [(pname, value)]).
    - cbn [with_ports self world ports var_port_name set_summary set_ports].
      fold pname. cbn [PyDict.pop].
      destruct (string_dec pname pname); [|contradiction].
      fold p. rewrite (set_app_last Path_eq_dec _ _ _ _ Hnone).
      reflexivity.
    - exact Hsel.
    - cbn [with_ports self ports set_summary set_ports]. fold p.
      now apply get_app_fresh.
    - cbn [with_ports self var_port_name set_summary set_ports].
      fold pname. unfold PyDict.mem. cbn [PyDict.get].
      destruct (string_dec pname pname); [reflexivity|contradiction]. }
  split; [exact E|]. rewrite E.
  cbn [snd with_ports self ports set_summary set_ports]. split.
  - destruct (ports (self st)); reflexivity.
  - unfold ports_get. now rewrite (get_app_fresh Path_eq_dec _ _ _ Hnone).
Qed.

End RemoveFacts.

(** * Further properties of opening the port window *)

Section OpenFacts.
Context `{CO : Collaborators}.
Import PortsPopup.

Lemma mem_set_inv (configs : Ports) (k p : Path) (v : PortMap) :
  PyDict.mem Path_eq_dec (PyDict.set Path_eq_dec configs k v) p = true ->
  p = k \/ PyDict.mem Path_eq_dec configs p = true.
Proof.
  unfold PyDict.mem. destruct (Path_eq_dec p k) as [E|N]; [now left|].
  rewrite get_set_other by assumption. now right.
Qed.

(** One turn of the loop of [_load_existing_ports]. *)
Lemma load_ports_loop_step (path : Path) (rest : list Path)
  (configs : Ports) (st : St) :
  load_ports_loop (path :: rest) configs st =
  match PG_ensure_analysis_dirs path (fs (world st)) with
  | (Raise e, fs1) => (Raise e, with_fs fs1 st)
  | (Ok dirs, fs1) =>
      match PyDict.get string_dec dirs "ports_config" with
      | None => (Raise (KeyError "ports_config"), with_fs fs1 st)
      | Some cfg =>
          match exists_ fs1 cfg with
          | Raise e => (Raise e, with_fs fs1 st)
          | Ok false => load_ports_loop rest configs (with_fs fs1 st)
          | Ok true =>
              load_ports_loop rest
                (PyDict.set Path_eq_dec configs path (config_at fs1 cfg))
                (with_fs fs1 st)
          end
      end
  end.
Proof.
  simpl load_ports_loop. unfold bind at 1. unfold cfg_path_of.
  unfold bind at 1. unfold in_world, in_fs.
  destruct (PG_ensure_analysis_dirs path (fs (world st))) as [[dirs|e] fs1];
    [|reflexivity].
  unfold lift_result at 1, ports_config.
  destruct (PyDict.get string_dec dirs "ports_config") as [cfg|];
    [|reflexivity].
  unfold bind at 1. unfold get at 1. unfold bind at 1.
  unfold lift_result at 1. cbn [world fs]. fold (with_fs fs1 st).
  destruct (exists_ fs1 cfg) as [[|]|e]; try reflexivity.
  unfold config_at.
  destruct (read_text fs1 cfg) as [text|e]; [|reflexivity].
  destruct (json_loads_ports text); reflexivity.
Qed.

Lemma config_at_cases (fs0 : FS) (cfg : Path) :
  config_at fs0 cfg = []
  \/ exists text,
       read_text fs0 cfg = Ok text
       /\ json_loads_ports text = Ok (config_at fs0 cfg).
Proof.
  unfold config_at. destruct (read_text fs0 cfg) as [text|e]; [|now left].
  destruct (json_loads_ports text) as [data|e] eqn:J; [|now left].
  right. exists text. auto.
Qed.

Lemma get_set_cases (configs : Ports) (k p : Path) (v m : PortMap) :
  PyDict.get Path_eq_dec (PyDict.set Path_eq_dec configs k v) p = Some m ->
  m = v \/ PyDict.get Path_eq_dec configs p = Some m.
Proof.
  destruct (Path_eq_dec p k) as [->|N].
  - rewrite get_set_same. intros H. injection H as <-. now left.
  - rewrite get_set_other by assumption. now right.
Qed.

(** The loop returns exactly when it is [ensured]; its answer holds
    listed variants only, each with no port or with the ports of a
    document that was read and parsed. *)
Lemma load_ports_loop_outcome (paths : list Path) (configs : Ports)
  (st : St) :
  (ensured paths (fs (world st))
   <-> is_ok (fst (load_ports_loop paths configs st)) = true)
  /\ forall configs' st',
       load_ports_loop paths configs st = (Ok configs', st') ->
       (forall p, PyDict.mem Path_eq_dec configs' p = true ->
          PyDict.mem Path_eq_dec configs p = true \/ In p paths)
       /\ (forall p m, PyDict.get Path_eq_dec configs' p = Some m ->
             PyDict.get Path_eq_dec configs p = Some m
             \/ m = []
             \/ exists text, json_loads_ports text = Ok m).
Proof.
  revert configs st.
  induction paths as [|path rest IH]; intros configs st.
  - split; [split; [reflexivity|intros _; exact I]|].
    intros configs' st' H. injection H as <- <-. auto.
  - rewrite load_ports_loop_step. cbn [ensured].
    destruct (PG_ensure_analysis_dirs path (fs (world st)))
      as [[dirs|e] fs1].
    2:{ split; [split; [|discriminate]|discriminate].
        intros [d [c [f [H _]]]]. discriminate H. }
    destruct (PyDict.get string_dec dirs "ports_config") as [cfg|] eqn:G.
    2:{ split; [split; [|discriminate]|discriminate].
        intros [d [c [f [H [H' _]]]]]. injection H as <- <-.
        rewrite G in H'. discriminate H'. }
    destruct (exists_ fs1 cfg) as [[|]|e] eqn:Ex.
    + destruct (IH (PyDict.set Path_eq_dec configs path (config_at fs1 cfg))
                  (with_fs fs1 st)) as [IH1 IH2].
      cbn [with_fs world fs] in IH1. split.
      * rewrite <- IH1. split.
        -- intros [d [c [f [H [H' [_ Hr]]]]]]. now injection H as <- <-.
        -- intros Hr. exists dirs, cfg, fs1. rewrite Ex. auto.
      * intros configs' st' H. destruct (IH2 _ _ H) as [K1 K2]. split.
        -- intros p Hp. destruct (K1 p Hp) as [Hm|Hin]; [|simpl; auto].
           destruct (mem_set_inv _ _ _ _ Hm); subst; simpl; auto.
        -- intros p m Hp. destruct (K2 p m Hp) as [Hg|Hother]; [|auto].
           apply get_set_cases in Hg. destruct Hg as [->|Hg]; [|auto].
           right. destruct (config_at_cases fs1 cfg) as [->|[text [_ J]]];
             eauto.
    + destruct (IH configs (with_fs fs1 st)) as [IH1 IH2].
      cbn [with_fs world fs] in IH1. split.
      * rewrite <- IH1. split.
        -- intros [d [c [f [H [H' [_ Hr]]]]]]. now injection H as <- <-.
        -- intros Hr. exists dirs, cfg, fs1. rewrite Ex. auto.
      * intros configs' st' H. destruct (IH2 _ _ H) as [K1 K2]. split.
        -- intros p Hp. destruct (K1 p Hp); simpl; auto.
        -- exact K2.
    + split; [split; [|discriminate]|discriminate].
      intros [d [c [f [H [H' [Hx _]]]]]]. injection H as <- <-.
      rewrite G in H'. injection H' as <-. rewrite Ex in Hx.
      discriminate Hx.
Qed.

(** X10. Loading the saved configurations isolates read and parse
    failures.  [_load_existing_ports] returns normally exactly when the
    calls outside its [try] do: for each listed variant in turn,
    [ensure_analysis_dirs] gives a [ports_config] path and [exists]
    answers for it; what the configuration files hold has no part in
    it.  When it returns it has changed the disk at most, every key of
    its answer is a listed variant and every value is either no port
    or the ports of a parsed document.  In particular, when the
    configuration of the first listed variant exists and cannot be read
    or parsed, the variant gets no port and the loop goes on with the
    others. *)
Theorem load_existing_ports_isolates (st : St) :
  (ensured (spiral_paths (self st)) (fs (world st))
   <-> is_ok (fst (_load_existing_ports st)) = true)
  /\ (forall configs st',
        _load_existing_ports st = (Ok configs, st') ->
        only_fs st st'
        /\ (forall p, PyDict.mem Path_eq_dec configs p = true ->
              In p (spiral_paths (self st)))
        /\ (forall p m, PyDict.get Path_eq_dec configs p = Some m ->
              m = [] \/ exists text, json_loads_ports text = Ok m))
  /\ (forall p rest dirs cfg fs1,
        spiral_paths (self st) = p :: rest ->
        PG_ensure_analysis_dirs p (fs (world st)) = (Ok dirs, fs1) ->
        PyDict.get string_dec dirs "ports_config" = Some cfg ->
        exists_ fs1 cfg = Ok true ->
        (forall text, read_text fs1 cfg = Ok text ->
           is_ok (json_loads_ports text) = false) ->
        _load_existing_ports st
        = load_ports_loop rest [(p, [])] (with_fs fs1 st)).
Proof.
  assert (Run : _load_existing_ports st
                = load_ports_loop (spiral_paths (self st)) [] st)
    by reflexivity.
  destruct (load_ports_loop_outcome (spiral_paths (self st)) [] st)
    as [Hiff Hok].
  split; [now rewrite Run|]. split.
  - intros configs st' H. rewrite Run in H.
    pose proof (load_ports_loop_only_fs (spiral_paths (self st)) [] st) as F.
    rewrite H in F. destruct (Hok _ _ H) as [K1 K2].
    split; [exact F|]. split.
    + intros p Hp. destruct (K1 p Hp) as [Hm|Hin]; [discriminate Hm|auto].
    + intros p m Hp. destruct (K2 p m Hp) as [Hg|Hother];
        [discriminate Hg|auto].
  - intros p rest dirs cfg fs1 Hp He Hg Hex Hbad.
    rewrite Run, Hp, load_ports_loop_step, He, Hg, Hex.
    replace (config_at fs1 cfg) with (@nil (string * PortData));
      [reflexivity|].
    unfold config_at. destruct (read_text fs1 cfg) as [text|e] eqn:R;
      [|reflexivity].
    specialize (Hbad text eq_refl).
    destruct (json_loads_ports text); [discriminate Hbad|reflexivity].
Qed.

Lemma nodup_snoc {A} (l : list A) (x : A) :
  NoDup l -> ~ In x l -> NoDup (l ++ [x]).
Proof.
  induction l as [|a l IH]; simpl; intros Hl Hx.
  - constructor; [intros []|constructor].
  - inversion Hl as [|? ? Ha Hl']; subst. constructor.
    + intros H. apply in_app_or in H. destruct H as [H|[H|[]]].
      * contradiction.
      * subst. apply Hx. now left.
    + apply IH; [assumption|]. intros H. apply Hx. now right.
Qed.

Lemma existsb_iid (rows : list (string * (string * nat))) (iid : string) :
  existsb (fun row => String.eqb (fst row) iid) rows = true
  <-> In iid (map fst rows).
Proof.
  rewrite existsb_exists, in_map_iff. split.
  - intros [row [Hin E]]. apply String.eqb_eq in E. eauto.
  - intros [row [E Hin]]. exists row. split; [exact Hin|].
    now apply String.eqb_eq.
Qed.

(** The loop of [_build_ui] from any rows: it runs to its end exactly
    when no item id is inserted twice. *)
Lemma tree_loop_outcome (paths : list Path) (st : St) :
  let body := fun path =>
    n <- _count_conductors path ;;
    tree_insert (str_path path) (name path) n in
  NoDup (map fst (tree (self st))) ->
  (NoDup (map fst (tree (self st)) ++ map str_path paths) ->
   for_each paths body st
   = (Ok tt,
      mkSt (set_tree (tree (self st) ++ map (row_of (fs (world st))) paths)
              (self st))
           (world st)))
  /\ (~ NoDup (map fst (tree (self st)) ++ map str_path paths) ->
      exists msg st', for_each paths body st = (Raise (TclError msg), st')).
Proof.
  intros body. revert st.
  induction paths as [|p rest IH]; intros st Hrows.
  - split.
    + intros _. simpl. unfold ret. rewrite app_nil_r.
      destruct st as [[] ?]. reflexivity.
    + intros H. exfalso. apply H. simpl. now rewrite app_nil_r.
  - assert (Hstep : forall s, body p s =
              if existsb (fun row => String.eqb (fst row) (str_path p))
                   (tree (self s))
              then (Raise (TclError ("Item " +++ str_path p
                                       +++ " already exists")), s)
              else (Ok tt,
                    mkSt (set_tree (tree (self s)
                                      ++ [row_of (fs (world s)) p])
                            (self s))
                         (world s))).
    { intros s. unfold body, bind. rewrite count_conductors_run.
      unfold tree_insert, bind, get.
      destruct (existsb _ (tree (self s))); reflexivity. }
    simpl for_each. unfold bind. rewrite Hstep.
    destruct (existsb _ (tree (self st))) eqn:Ex.
    + split.
      * intros H. exfalso. apply existsb_iid in Ex.
        simpl in H. apply NoDup_remove_2 in H. apply H.
        apply in_or_app. now left.
      * intros _. eexists. eexists. reflexivity.
    + assert (Hnot : ~ In (str_path p) (map fst (tree (self st)))).
      { intros H. apply existsb_iid in H. congruence. }
      set (st1 := mkSt (set_tree (tree (self st)
                                    ++ [row_of (fs (world st)) p])
                          (self st))
                       (world st)).
      assert (Hrows1 : NoDup (map fst (tree (self st1)))).
      { subst st1. cbn [self tree set_tree]. rewrite map_app. simpl.
        apply nodup_snoc; assumption. }
      assert (Happ : map fst (tree (self st1)) ++ map str_path rest
                     = map fst (tree (self st)) ++ map str_path (p :: rest)).
      { subst st1. cbn [self tree set_tree]. rewrite map_app. simpl.
        now rewrite <- app_assoc. }
      destruct (IH st1 Hrows1) as [IHok IHbad]. rewrite Happ in IHok, IHbad.
      split.
      * intros H. fold body. rewrite (IHok H). subst st1.
        cbn [self world tree set_tree]. rewrite <- app_assoc. reflexivity.
      * intros H. fold body. exact (IHbad H).
Qed.

End OpenFacts.

Section OpenClaims.
Context `{CO : Collaborators}.
Import PortsPopup.

Lemma build_ui_ok (st st' : St) :
  _build_ui st = (Ok tt, st') -> st' = built st.
Proof.
  unfold _build_ui. unfold bind at 1. unfold gets at 1. unfold bind at 1.
  destruct (for_each (spiral_paths (self st)) _ st) as [[[]|e] s1] eqn:L;
    [|discriminate].
  apply tree_loop_run in L. subst s1.
  unfold bind at 1. rewrite refresh_summary_render.
  unfold bind at 1. unfold gets at 1. unfold built.
  cbn [self world tree ports set_tree set_summary].
  destruct (tree (self st)
            ++ map (row_of (fs (world st))) (spiral_paths (self st)))
    as [|[iid row] rows] eqn:T.
  - unfold ret. intros H. now injection H as <-.
  - unfold bind at 1. unfold on_self at 1, modify at 1.
    rewrite (on_select_some _ iid []) by reflexivity.
    intros H. now injection H as <-.
Qed.

Lemma built_world (st : St) : world (built st) = world st.
Proof.
  unfold built. destruct (_ ++ _) as [|[? ?] ?]; reflexivity.
Qed.

(** X11. Starting from an empty tree, [_build_ui] runs to its end
    exactly when the listed variants have pairwise distinct paths as
    text; a manifest that lists a solved folder twice makes it raise
    [TclError] on the second insertion. *)
Theorem build_ui_needs_distinct_ids (st : St) :
  tree (self st) = [] ->
  (NoDup (map str_path (spiral_paths (self st))) ->
   _build_ui st = (Ok tt, built st))
  /\ (~ NoDup (map str_path (spiral_paths (self st))) ->
      exists msg st', _build_ui st = (Raise (TclError msg), st')).
Proof.
  intros Hempty.
  destruct (tree_loop_outcome (spiral_paths (self st)) st) as [Hok Hbad].
  { rewrite Hempty. constructor. }
  rewrite Hempty in Hok, Hbad. simpl in Hok, Hbad.
  split.
  - intros Hnd.
    destruct (_build_ui st) as [[[]|e] st'] eqn:B.
    + now rewrite (build_ui_ok _ _ B).
    + exfalso. revert B. unfold _build_ui.
      unfold bind at 1. unfold gets at 1. unfold bind at 1.
      rewrite (Hok Hnd). unfold bind at 1. rewrite refresh_summary_render.
      unfold bind at 1. unfold gets at 1.
      match goal with
      | |- context [tree (self ?s)] => destruct (tree (self s)) as [|[i r] t]
      end.
      * discriminate.
      * unfold bind, on_self, modify.
        match goal with
        | |- context [_on_select ?s] =>
            destruct (on_select_run s) as [v ->]
        end.
        discriminate.
  - intros Hnd. destruct (Hbad Hnd) as [msg [st' R]].
    exists msg, st'. unfold _build_ui.
    unfold bind at 1. unfold gets at 1. unfold bind at 1. now rewrite R.
Qed.

(** The window that [__init__] answers. *)
Lemma init_ok (address : Path) (w w' : World) (popup : Self) :
  __init__ address w = (Ok popup, w') ->
  exists loaded,
    popup
    = self (built (mkSt (set_ports loaded
                           (set_spiral_paths (solved_entries (fs w) address)
                              (blank address)))
                        w'))
    /\ log w' = log w /\ invoked w' = invoked w
    /\ (solved_entries (fs w) address <> [] -> boxes w' = boxes w).
Proof.
  unfold __init__. intros H.
  unfold bind at 1 in H.
  destruct (_load_spiral_paths (mkSt (blank address) w))
    as [[paths|e] [self1 w1]] eqn:L1; [|discriminate].
  apply load_spiral_paths_ok in L1.
  cbn [self world address_file blank] in L1.
  destruct L1 as [-> [-> [F1 [G1 [I1 B1]]]]].
  unfold bind at 1 in H. unfold on_self at 1, modify at 1 in H.
  unfold bind at 1 in H.
  match type of H with
  | context [_load_existing_ports ?s] =>
      pose proof (load_ports_loop_only_fs (spiral_paths (self s)) [] s)
        as L2;
      unfold _load_existing_ports, bind at 1, gets at 1 in H
  end.
  cbn [self world] in H, L2.
  destruct (load_ports_loop _ [] _) as [[loaded|e] s2]; [|discriminate].
  cbn [snd] in L2. apply only_fs_fields in L2.
  destruct L2 as [S2 [Lg2 [Bx2 Iv2]]]. cbn [self world] in S2, Lg2, Bx2, Iv2.
  unfold bind at 1, on_self at 1, modify at 1 in H.
  destruct (_build_ui _) as [[[]|e] s3] eqn:B; [|discriminate].
  injection H as <- <-.
  apply build_ui_ok in B. subst s3.
  exists loaded. rewrite !built_world. cbn [world]. rewrite S2.
  split; [reflexivity|].
  rewrite Lg2, Iv2, Bx2. repeat split; auto.
Qed.

(** X12. Once the window is open, and as [Path(str(p))] is [p] for every
    path, [Apply to all] is the batch apply over the listed variants,
    in their order. *)
Theorem apply_to_all_targets_listed (address : Path) (w w' : World)
  (popup : Self) :
  (forall p : Path, mkPath (str_path p) = p) ->
  __init__ address w = (Ok popup, w') ->
  spiral_paths popup = solved_entries (fs w) address
  /\ forall w2,
       _apply_to_all (mkSt popup w2)
       = _apply_to_paths (spiral_paths popup) (mkSt popup w2).
Proof.
  intros Hrt H. destruct (init_ok _ _ _ _ H) as [loaded [-> _]].
  assert (Hs : forall s0 : Self,
             tree s0 = [] ->
             spiral_paths (self (built (mkSt s0 w'))) = spiral_paths s0
             /\ map fst (tree (self (built (mkSt s0 w'))))
                = map str_path (spiral_paths s0)).
  { intros s0 Ht. unfold built. cbn [self world]. rewrite Ht.
    cbn [app]. destruct (spiral_paths s0) as [|p rest] eqn:P.
    - cbn. rewrite P. auto.
    - cbn. rewrite P. split; [reflexivity|].
      f_equal. rewrite map_map. reflexivity. }
  destruct (Hs (set_ports loaded
                  (set_spiral_paths (solved_entries (fs w) address)
                     (blank address))) eq_refl) as [Hp Ht].
  split; [exact Hp|]. intros w2.
  unfold _apply_to_all, bind, gets. cbn [self].
  rewrite Ht, Hp. rewrite map_map.
  f_equal. cbn [spiral_paths set_ports set_spiral_paths].
  rewrite <- (map_id (solved_entries (fs w) address)) at 2.
  apply map_ext. exact Hrt.
Qed.

(** X13. When the window opens on at least one solved variant, no
    message box is shown, the first listed variant is selected and the
    signs entry holds one [+1] per conductor of it, so that the entry
    passes its dimension check as the window opens; the port name is
    [Port1] and the type [series]. *)
Theorem init_selects_first (address : Path) (w w' : World) (popup : Self)
  (p : Path) (rest : list Path) :
  __init__ address w = (Ok popup, w') ->
  solved_entries (fs w) address = p :: rest ->
  let first := mkPath (str_path p) in
  boxes w' = boxes w
  /\ selection popup = [str_path p]
  /\ signs_tokens (var_signs popup) = repeat "+1" (count_of (fs w') first)
  /\ mismatch (fs w') (signs_tokens (var_signs popup)) first = false
  /\ var_port_name popup = "Port1" /\ var_type popup = "series".
Proof.
  intros H Hsol first.
  destruct (init_ok _ _ _ _ H) as [loaded [-> [_ [_ Hb]]]].
  split; [apply Hb; rewrite Hsol; discriminate|].
  unfold built. cbn [self world tree spiral_paths blank set_ports
                     set_spiral_paths app].
  rewrite Hsol. cbn [map row_of app].
  cbn [self selection var_signs var_port_name var_type set_var_signs
       set_selection set_summary set_tree set_ports set_spiral_paths blank].
  fold first. rewrite plus_ones_tokens.
  repeat split.
  unfold mismatch. rewrite repeat_length, Nat.eqb_refl.
  now rewrite andb_false_r.
Qed.

Lemma select_none {X} (test : X -> result bool) (xs : list X) :
  (forall x, In x xs -> test x = Ok false) -> select test xs = Ok [].
Proof.
  induction xs as [|x rest IH]; intros H; [reflexivity|]. simpl.
  rewrite (H x (or_introl eq_refl)).
  now rewrite IH by (intros y Hy; apply H; now right).
Qed.

(** X14. What opening the window does when it finds no variant to
    list.  When the manifest cannot be read or one of its lines cannot
    be resolved, the window opens empty after the error box that tells
    the exception.  When the manifest is read and [exists] answers
    [False] for every capacitance matrix, the window opens empty after
    the warning that nothing is solved.  In both cases the disk, the
    log and the commands are untouched.  When [exists] raises for the
    matrix of an entry, opening the window raises that [OSError] and
    nothing at all has changed. *)
Theorem init_nothing_solved (address : Path) (w : World) :
  (forall exc,
     read_address_entries (fs w) address = Raise exc ->
     __init__ address w
     = (Ok (blank address),
        world_with_box
          (mkBox BoxError "Address read error" (str_exn exc)) w))
  /\ (forall paths,
        read_address_entries (fs w) address = Ok paths ->
        (forall p, In p paths -> exists_ (fs w) (cap_path p) = Ok false) ->
        __init__ address w
        = (Ok (blank address),
           world_with_box
             (mkBox BoxWarning "No solved spirals"
                "No FastSolver outputs found yet.") w))
  /\ (forall paths pre p post e,
        read_address_entries (fs w) address = Ok paths ->
        paths = pre ++ p :: post ->
        (forall q, In q pre -> is_ok (exists_ (fs w) (cap_path q)) = true) ->
        exists_ (fs w) (cap_path p) = Raise e ->
        __init__ address w = (Raise e, w) /\ exists msg, e = OSError msg).
Proof.
  assert (Start : forall r st1,
            _load_spiral_paths (mkSt (blank address) w) = (r, st1) ->
            (r = Ok [] ->
             __init__ address w = (Ok (blank address), world st1))
            /\ (forall e, r = Raise e ->
                  __init__ address w = (Raise e, world st1))).
  { intros r st1 L.
    split; [intros ->|intros e ->]; unfold __init__; unfold bind at 1;
      rewrite L; [|reflexivity].
    apply load_spiral_paths_ok in L.
    destruct L as [_ [S1 _]]. destruct st1 as [self1 w1].
    cbn [self] in S1. subst self1. reflexivity. }
  split; [|split].
  - intros exc Hread.
    refine (proj1 (Start (Ok [])
                     (with_box
                        (mkBox BoxError "Address read error" (str_exn exc))
                        (mkSt (blank address) w)) _) eq_refl).
    rewrite load_spiral_paths_run. cbn [self world address_file blank].
    now rewrite Hread.
  - intros paths Hread Hnone.
    refine (proj1 (Start (Ok [])
                     (with_box
                        (mkBox BoxWarning "No solved spirals"
                           "No FastSolver outputs found yet.")
                        (mkSt (blank address) w)) _) eq_refl).
    rewrite load_spiral_paths_run. cbn [self world address_file blank].
    rewrite Hread.
    now rewrite (select_none (fun p => exists_ (fs w) (cap_path p)) paths).
  - intros paths pre p post e Hread -> Hpre Hraise. split.
    + refine (proj2 (Start (Raise e) (mkSt (blank address) w) _) e eq_refl).
      rewrite load_spiral_paths_run. cbn [self world address_file blank].
      rewrite Hread.
      rewrite (select_first_raise
                 (fun p => exists_ (fs w) (cap_path p)) pre post p e);
        [reflexivity| |exact Hraise].
      apply Forall_forall. exact Hpre.
    + revert Hraise. unfold exists_.
      destruct (stat_error (fs w) (cap_path p)) as [msg|]; [|discriminate].
      intros H. injection H as <-. eauto.
Qed.

End OpenClaims.

(** * Further properties of the main panel *)

Section PanelFacts.
Context `{CO : Collaborators}.
Import MainApp.

(** What [_verify_address] does, by what the disk answers. *)
Lemma verify_address_cases (a : App) :
  let fs0 := fs (app_world a) in
  let path := mkPath (var_address a) in
  _verify_address a =
  match is_file fs0 path with
  | Raise e => (Raise e, a)
  | Ok false =>
      (Ok false,
       app_with_box
         (mkBox BoxError "Address missing" "Select a valid Address.txt first.")
         a)
  | Ok true =>
      match read_address_entries fs0 path with
      | Raise exc =>
          (Ok false,
           app_with_box (mkBox BoxError "Invalid Address.txt" (str_exn exc))
             a)
      | Ok entries =>
          match missing_entries fs0 entries with
          | Raise e => (Raise e, a)
          | Ok [] =>
              (Ok true,
               app_with_box
                 (mkBox BoxInfo "Address check"
                    (PyStr.of_nat (List.length entries)
                       +++ " folders found."))
                 a)
          | Ok (m :: ms) =>
              (Ok false,
               app_with_box
                 (mkBox BoxWarning "Missing folders"
                    (PyStr.join PyStr.newline (map str_path (m :: ms))))
                 a)
          end
      end
  end.
Proof.
  intros fs0 path. unfold _verify_address.
  unfold bind at 1. unfold get at 1. fold fs0 path.
  unfold bind at 1. unfold lift_result at 1.
  destruct (is_file fs0 path) as [[|]|e]; [|reflexivity|reflexivity].
  cbn [negb].
  destruct (read_address_entries fs0 path) as [entries|exc]; [|reflexivity].
  unfold bind at 1. unfold lift_result at 1.
  destruct (missing_entries fs0 entries) as [[|m ms]|e]; reflexivity.
Qed.

(** [_verify_address] shows one message box and answers, or raises
    and changes nothing. *)
Lemma verify_address_run (a : App) :
  (exists b box,
     _verify_address a = (Ok b, app_with_box box a)
     /\ (b = true ->
         box_kind_of box = BoxInfo
         /\ exists entries,
              read_address_entries (fs (app_world a))
                (mkPath (var_address a))
              = Ok entries
              /\ missing_entries (fs (app_world a)) entries = Ok [])
     /\ (b = false -> box_kind_of box <> BoxInfo))
  \/ exists e, _verify_address a = (Raise e, a).
Proof.
  rewrite verify_address_cases. cbv zeta.
  destruct (is_file _ _) as [[|]|e]; [| |right; eauto].
  - destruct (read_address_entries _ _) as [entries|exc].
    + destruct (missing_entries _ entries) as [[|m ms]|e] eqn:Hm;
        [| |right; eauto].
      * left. eexists. eexists. split; [reflexivity|]. split.
        -- intros _. split; [reflexivity|]. exists entries. auto.
        -- discriminate.
      * left. eexists. eexists. split; [reflexivity|]. split.
        -- discriminate.
        -- intros _. discriminate.
    + left. eexists. eexists. split; [reflexivity|]. split.
      * discriminate.
      * intros _. discriminate.
  - left. eexists. eexists. split; [reflexivity|]. split.
    + discriminate.
    + intros _. discriminate.
Qed.

(** X15. The pipeline is gated by the verification of the manifest.
    When the selected manifest is not a file, or cannot be read or
    resolved, or all its entries can be examined and one of them does
    not exist, [_run_pipeline] returns after one error or warning box,
    without invoking a command, writing to the log or the disk, or
    opening the port window.  When the manifest itself or one of its
    entries cannot be examined, the [OSError] of [is_file] or [exists]
    leaves [_run_pipeline] and nothing at all has changed. *)
Theorem run_pipeline_gate (a : App) :
  let fs0 := fs (app_world a) in
  let path := mkPath (var_address a) in
  ((is_file fs0 path = Ok false
    \/ (is_file fs0 path = Ok true
        /\ exists exc, read_address_entries fs0 path = Raise exc)
    \/ (is_file fs0 path = Ok true
        /\ exists entries p,
             read_address_entries fs0 path = Ok entries
             /\ (forall q, In q entries -> is_ok (exists_ fs0 q) = true)
             /\ In p entries /\ exists_ fs0 p = Ok false)) ->
   exists box,
     box_kind_of box <> BoxInfo
     /\ _run_pipeline a = (Ok tt, app_with_box box a))
  /\ (forall e,
        (is_file fs0 path = Raise e
         \/ (is_file fs0 path = Ok true
             /\ exists pre p post,
                  read_address_entries fs0 path = Ok (pre ++ p :: post)
                  /\ (forall q, In q pre -> is_ok (exists_ fs0 q) = true)
                  /\ exists_ fs0 p = Raise e)) ->
        _run_pipeline a = (Raise e, a)).
Proof.
  intros fs0 path.
  assert (Run : forall b a', _verify_address a = (Ok b, a') -> b = false ->
                  _run_pipeline a = (Ok tt, a')).
  { intros b a' Hv ->. unfold _run_pipeline, bind. now rewrite Hv. }
  assert (Stop : forall e, _verify_address a = (Raise e, a) ->
                   _run_pipeline a = (Raise e, a)).
  { intros e Hv. unfold _run_pipeline, bind. now rewrite Hv. }
  pose proof (verify_address_cases a) as Hv. cbv zeta in Hv.
  fold fs0 path in Hv.
  split.
  - intros [Hfile|[[Hfile [exc Hr]]|[Hfile Hmiss]]];
      [| |destruct Hmiss as [entries [p [Hr [Hall [Hin Hex]]]]]];
      rewrite Hfile in Hv.
    + eexists. split; [|exact (Run _ _ Hv eq_refl)]. discriminate.
    + rewrite Hr in Hv.
      eexists. split; [|exact (Run _ _ Hv eq_refl)]. discriminate.
    + rewrite Hr in Hv.
      destruct (missing_entries_ok fs0 entries Hall)
        as [missing [Hm [_ [Hmem _]]]].
      rewrite Hm in Hv.
      destruct missing as [|m ms].
      * exfalso. apply (proj2 (Hmem p)). auto.
      * eexists. split; [|exact (Run _ _ Hv eq_refl)]. discriminate.
  - intros e [Hfile|[Hfile [pre [p [post [Hr [Hpre Hex]]]]]]];
      rewrite Hfile in Hv; [exact (Stop _ Hv)|].
    rewrite Hr in Hv. unfold missing_entries in Hv.
    rewrite (select_first_raise (fun q => not_r (exists_ fs0 q))
               pre post p e) in Hv.
    + exact (Stop _ Hv).
    + apply Forall_forall. intros q Hq. specialize (Hpre q Hq).
      destruct (exists_ fs0 q); [reflexivity|discriminate].
    + now rewrite Hex.
Qed.

(** What [log_subprocess] does, by the outcome of the child. *)
Lemma log_subprocess_cases (cmd : list string) (w : World) :
  let out := log_subprocess cmd w in
  let '(o, fs') := os_spawn cmd (fs w) in
  invoked (snd out) = invoked w ++ [cmd]
  /\ fs (snd out) = fs'
  /\ (exists text, log (snd out) = log w +++ text)
  /\ match fst out with
     | Ok true =>
         boxes (snd out) = boxes w
         /\ exists out err, o = Exited 0 out err
     | Ok false =>
         exists rc,
           boxes (snd out) = boxes w ++ [failed_box cmd rc]
           /\ ((rc <> 0%Z /\ exists out err, o = Exited rc out err)
               \/ exists c out err,
                    o = SpawnFailed (CalledProcessError c rc out err))
     | Raise e =>
         boxes (snd out) = boxes w
         /\ (o = SpawnFailed e \/ cmd = [])
     end.
Proof.
  intros out. subst out.
  remember (log_subprocess cmd w) as r eqn:E.
  unfold log_subprocess in E.
  set (hdr := PyStr.newline +++ "$ " +++ PyStr.join " " cmd
                +++ PyStr.newline) in E.
  clearbody hdr.
  unfold subprocess_run_check, note_invoked, log_insert, showerror, show,
    when, in_fs, bind, modify, raise, ret in E.
  cbn [fs log boxes invoked] in E.
  assert (Hpre : forall a b c : string, exists text,
             ((log w +++ a) +++ b) +++ c = log w +++ text)
    by (intros a b c; eexists; rewrite !append_assoc3; reflexivity).
  revert E.
  destruct (os_spawn cmd (fs w)) as [o fs'].
  destruct o as [rc out err|e].
  - destruct (rc =? 0)%Z eqn:Hrc.
    + apply Z.eqb_eq in Hrc. subst rc.
      destruct out, err; cbn; intros ->;
        cbn [fst snd fs log boxes invoked]; repeat split; eauto;
        try (exists hdr; reflexivity);
        try (eexists; rewrite ?append_assoc3; reflexivity).
    + apply Z.eqb_neq in Hrc.
      destruct cmd as [|c0 cs]; cbn; intros ->;
        cbn [fst snd fs log boxes invoked]; repeat split; auto;
        try (eexists; rewrite ?append_assoc3; reflexivity).
      exists rc. split; [reflexivity|]. left. eauto.
  - destruct e;
      try (cbn; intros ->; cbn [fst snd fs log boxes invoked];
           repeat split; auto; exists hdr; reflexivity).
    destruct cmd as [|c0 cs]; cbn; intros ->;
      cbn [fst snd fs log boxes invoked]; repeat split; auto;
      try (eexists; rewrite ?append_assoc3; reflexivity).
    exists returncode. split; [reflexivity|]. right. eauto.
Qed.

(** X16. Every call of [log_subprocess] records its command once and
    only appends to the log.  It answers [True] only for a child that
    exited with status 0, and then shows no box; it answers [False]
    exactly when it has shown the error box of the command; an
    exception leaves the boxes as they were, and is the failure to
    start the child unless the command is empty. *)
Theorem log_subprocess_records_and_appends (cmd : list string) (w : World) :
  let out := log_subprocess cmd w in
  invoked (snd out) = invoked w ++ [cmd]
  /\ (exists text, log (snd out) = log w +++ text)
  /\ (fst out = Ok true ->
      boxes (snd out) = boxes w
      /\ exists o e f, os_spawn cmd (fs w) = (Exited 0 o e, f))
  /\ (fst out = Ok false ->
      exists rc, boxes (snd out) = boxes w ++ [failed_box cmd rc])
  /\ (forall e, fst out = Raise e ->
        boxes (snd out) = boxes w
        /\ ((exists f, os_spawn cmd (fs w) = (SpawnFailed e, f))
            \/ cmd = [])).
Proof.
  intros out. subst out.
  pose proof (log_subprocess_cases cmd w) as H. cbv zeta in H.
  destruct (os_spawn cmd (fs w)) as [o f].
  destruct H as [H1 [_ [H3 H4]]].
  split; [exact H1|]. split; [exact H3|].
  destruct (fst (log_subprocess cmd w)) as [[|]|e].
  - repeat split; try discriminate.
    + apply H4.
    + destruct H4 as [_ [o' [e' ->]]]. eauto.
  - destruct H4 as [rc [Hb _]].
    repeat split; try discriminate. intros _. eauto.
  - destruct H4 as [Hb Ho].
    split; [discriminate|]. split; [discriminate|].
    intros e' He. injection He as <-. split; [exact Hb|].
    destruct Ho as [-> | ->]; eauto.
Qed.

End PanelFacts.

Section PipelineMore.
Context `{CO : Collaborators}.
Import MainApp.

Lemma tree_loop_world (paths : list Path) (st : PortsPopup.St) :
  PortsPopup.world
    (snd (for_each paths (fun path =>
            n <- PortsPopup._count_conductors path ;;
            PortsPopup.tree_insert (str_path path) (name path) n) st))
  = PortsPopup.world st.
Proof.
  revert st. induction paths as [|p rest IH]; intros st; [reflexivity|].
  simpl for_each. unfold bind at 1. unfold bind at 1.
  rewrite count_conductors_run. unfold PortsPopup.tree_insert at 1.
  unfold bind at 1. unfold get at 1.
  destruct (existsb _ (PortsPopup.tree (PortsPopup.self st)));
    [reflexivity|].
  unfold PortsPopup.on_self, modify. rewrite IH. reflexivity.
Qed.

Lemma build_ui_world (st : PortsPopup.St) :
  PortsPopup.world (snd (PortsPopup._build_ui st)) = PortsPopup.world st.
Proof.
  unfold PortsPopup._build_ui. unfold bind at 1. unfold gets at 1.
  unfold bind at 1.
  pose proof (tree_loop_world (PortsPopup.spiral_paths (PortsPopup.self st))
                st) as L.
  destruct (for_each _ _ st) as [[[]|e] s1]; cbn [snd] in L; [|exact L].
  unfold bind at 1. rewrite refresh_summary_render.
  unfold bind at 1. unfold gets at 1. cbn [PortsPopup.self].
  destruct (PortsPopup.tree _) as [|[iid row] rows].
  - exact L.
  - unfold bind, PortsPopup.on_self, modify.
    match goal with
    | |- context [PortsPopup._on_select ?s] =>
        destruct (on_select_run s) as [v ->]
    end.
    exact L.
Qed.

(** Opening the port window invokes no command and writes nothing to
    the log, whatever its outcome. *)
Lemma init_keeps_commands (address : Path) (w : World) :
  invoked (snd (PortsPopup.__init__ address w)) = invoked w
  /\ log (snd (PortsPopup.__init__ address w)) = log w.
Proof.
  remember (PortsPopup.__init__ address w) as r eqn:E.
  unfold PortsPopup.__init__ in E.
  unfold bind at 1 in E. revert E.
  destruct (PortsPopup._load_spiral_paths
              (PortsPopup.mkSt (PortsPopup.blank address) w))
    as [[paths|e] [self1 w1]] eqn:L1.
  2:{ apply load_spiral_paths_raise in L1. injection L1 as -> ->.
      intros ->. cbn. auto. }
  apply load_spiral_paths_ok in L1.
  cbn [PortsPopup.self PortsPopup.world PortsPopup.address_file
       PortsPopup.blank] in L1.
  destruct L1 as [_ [-> [_ [G1 [I1 _]]]]].
  intros E.
  unfold bind at 1 in E. unfold PortsPopup.on_self at 1, modify at 1 in E.
  unfold bind at 1 in E.
  match type of E with
  | context [PortsPopup._load_existing_ports ?s] =>
      pose proof (load_ports_loop_only_fs
                    (PortsPopup.spiral_paths (PortsPopup.self s)) [] s) as L2;
      unfold PortsPopup._load_existing_ports, bind at 1, gets at 1 in E
  end.
  cbn [PortsPopup.self PortsPopup.world] in L2, E.
  revert E.
  destruct (PortsPopup.load_ports_loop _ [] _) as [[loaded|e] s2];
    cbn [snd] in L2; apply only_fs_fields in L2;
    destruct L2 as [_ [Lg2 [_ Iv2]]];
    cbn [PortsPopup.self PortsPopup.world] in Lg2, Iv2.
  - unfold bind at 1, PortsPopup.on_self at 1, modify at 1.
    match goal with
    | |- context [PortsPopup._build_ui ?s] =>
        pose proof (build_ui_world s) as B;
        destruct (PortsPopup._build_ui s) as [[[]|e] s3]
    end; cbn [snd PortsPopup.world] in B; intros ->; cbn [snd];
      rewrite B; split; congruence.
  - intros ->. cbn [snd]. split; congruence.
Qed.

Lemma open_ports_popup_keeps_commands (a : App) :
  invoked (app_world (snd (_open_ports_popup a))) = invoked (app_world a).
Proof.
  unfold _open_ports_popup. unfold bind at 1. unfold get at 1.
  destruct (PyStr.is_empty (var_address a)); [reflexivity|].
  unfold bind, in_world.
  pose proof (init_keeps_commands (mkPath (var_address a)) (app_world a))
    as [H _].
  destruct (PortsPopup.__init__ _ _) as [[popup|e] w']; exact H.
Qed.

(** X17. Whatever the children and the port window do, one run of the
    pipeline invokes nothing, the conversion alone, or the conversion
    followed by the solvers, in that order and never more; the solvers
    are invoked only after the conversion exited with status 0, and a
    port window is opened only after both were invoked. *)
Theorem run_pipeline_invokes_in_order (a : App) :
  let c1 := convert_cmd (mkPath (var_address a)) in
  let c2 := solve_cmd (mkPath (var_address a)) (eps_of a) in
  let out := _run_pipeline a in
  exists l,
    invoked (app_world (snd out)) = invoked (app_world a) ++ l
    /\ (l = [] \/ l = [c1] \/ l = [c1; c2])
    /\ (l = [c1; c2] ->
        exists o e f, os_spawn c1 (fs (app_world a)) = (Exited 0 o e, f))
    /\ (popups (snd out) <> popups a -> l = [c1; c2]).
Proof.
  intros c1 c2 out. subst out.
  remember (_run_pipeline a) as r eqn:E.
  destruct (verify_address_run a) as [[b [box [Hv _]]]|[e0 Hv]].
  2:{ unfold _run_pipeline in E. unfold bind at 1 in E. rewrite Hv in E.
      subst r. exists []. rewrite app_nil_r. cbn.
      repeat split; auto; [discriminate|]. intros H. now contradiction H. }
  unfold _run_pipeline in E. unfold bind at 1 in E. rewrite Hv in E.
  destruct b; cbn [negb] in E.
  2:{ subst r. exists []. rewrite app_nil_r. cbn.
      repeat split; auto; [discriminate|]. intros H. now contradiction H. }
  unfold bind at 1 in E. unfold get at 1 in E. unfold bind at 1 in E.
  unfold in_world at 1 in E.
  cbn [app_with_box app_with_world var_address var_eps app_world popups]
    in E.
  change (eps_of (app_with_box box a)) with (eps_of a) in E.
  fold c1 c2 in E.
  match type of E with
  | context [log_subprocess c1 ?w] =>
      pose proof (log_subprocess_cases c1 w) as C1; cbv zeta in C1;
      cbn [fs invoked] in C1; revert E;
      destruct (os_spawn c1 (fs (app_world a))) as [o1 f1];
      destruct (log_subprocess c1 w) as [[[|]|e1] w1]
  end; cbn [fst snd] in C1; destruct C1 as [I1 [_ [_ K1]]]; cbn [negb];
    intros E.
  - (* the conversion exited with status 0 *)
    destruct K1 as [_ [out1 [err1 ->]]].
    unfold bind at 1 in E. unfold in_world at 1 in E.
    cbn [app_world var_address var_eps popups] in E.
    pose proof (log_subprocess_cases c2 w1) as C2. cbv zeta in C2.
    revert E.
    destruct (os_spawn c2 (fs w1)) as [o2 f2].
    destruct (log_subprocess c2 w1) as [[[|]|e2] w2];
      cbn [fst snd] in C2; destruct C2 as [I2 _]; intros E;
      exists [c1; c2];
      (split; [|split; [auto|split; [intros _; eauto|auto]]]).
    + unfold bind at 1 in E.
      unfold in_world at 1, showinfo at 1, show at 1, modify at 1 in E.
      cbn [app_world var_address var_eps popups] in E. subst r.
      rewrite open_ports_popup_keeps_commands. cbn [app_world invoked].
      rewrite I2, I1. now rewrite <- app_assoc.
    + unfold ret in E. subst r. cbn [snd app_world]. rewrite I2, I1.
      now rewrite <- app_assoc.
    + subst r. cbn [snd app_world]. rewrite I2, I1.
      now rewrite <- app_assoc.
  - unfold ret in E. subst r. exists [c1]. cbn [snd app_world popups].
    split; [exact I1|]. split; [auto|]. split; [discriminate|].
    intros H. now contradiction H.
  - subst r. exists [c1]. cbn [snd app_world popups].
    split; [exact I1|]. split; [auto|]. split; [discriminate|].
    intros H. now contradiction H.
Qed.

(** X18. The permittivity handed to the solver stage is the entry
    without the whitespace around it, or [1] when the entry is blank:
    it is the last argument of the command, it is never empty and never
    begins or ends with whitespace. *)
Theorem eps_argument_never_blank (a : App) :
  let eps := eps_of a in
  nth_error (solve_cmd (mkPath (var_address a)) eps) 3 = Some eps
  /\ eps <> ""
  /\ fails PyStr.is_space (first_char eps)
  /\ fails PyStr.is_space (last_char eps)
  /\ (PyStr.strip (var_eps a) = "" -> eps = "1")
  /\ (PyStr.strip (var_eps a) <> "" -> eps = PyStr.strip (var_eps a)).
Proof.
  intros eps. subst eps. unfold eps_of.
  split; [reflexivity|].
  destruct (strip_by_shape PyStr.is_space (var_eps a))
    as [pre [suf [_ [_ [_ [Hf Hl]]]]]].
  fold (PyStr.strip (var_eps a)) in Hf, Hl.
  destruct (PyStr.strip (var_eps a)) as [|c r] eqn:S; cbn [PyStr.is_empty].
  - repeat split; try discriminate; try reflexivity.
    intros H. now contradiction H.
  - repeat split; try discriminate; auto.
Qed.

End PipelineMore.

(** * Further properties of saving and plotting *)

Section SaveMore.
Context `{CO : Collaborators}.
Import PortsPopup.

(** The two lines that [_run_plots] may append to the log. *)
Lemma run_plots_cases (st : St) :
  let out := _run_plots st in
  only_fs st (mkSt (self (snd out))
                (mkWorld (fs (world (snd out))) (log (world st))
                   (boxes (world (snd out))) (invoked (world (snd out)))))
  /\ (log (world (snd out)) = log (world st)
      \/ fst out = Ok tt
         /\ (log (world (snd out))
             = log (world st)
               +++ "Plot generation finished (no records written)."
               +++ PyStr.newline
             \/ log (world (snd out))
                = log (world st)
                  +++ "Plot generation complete. Summary -> "
                  +++ str_path (parent (address_file (self st))
                                // "ports_summary.csv")
                  +++ PyStr.newline)).
Proof.
  intros out. subst out.
  remember (_run_plots st) as r eqn:E.
  unfold _run_plots in E. unfold bind at 1 in E. unfold gets at 1 in E.
  unfold bind at 1 in E.
  pose proof (plot_loop_only_fs (spiral_paths (self st)) [] st) as L.
  revert E.
  destruct (plot_loop (spiral_paths (self st)) [] st) as [[records|e] s1];
    cbn [snd] in L; destruct (only_fs_fields _ _ L) as [Hs [Hl [Hb Hi]]].
  2:{ intros ->. cbn [fst snd]. split; [|now left].
      unfold only_fs, with_fs. cbn. now rewrite Hs, Hb, Hi. }
  unfold bind at 1. unfold gets at 1. rewrite Hs.
  destruct records as [|rec recs].
  - unfold in_world, log_insert, modify. intros ->. cbn [fst snd].
    split.
    + unfold only_fs, with_fs. cbn. now rewrite Hs, Hb, Hi.
    + right. split; [reflexivity|]. left. cbn. now rewrite Hl.
  - unfold bind at 1.
    match goal with
    | |- context [in_world (in_fs ?c) s1] =>
        pose proof (in_fs_only_fs c s1) as L2;
        destruct (in_world (in_fs c) s1) as [[[]|e] s2]
    end; cbn [snd] in L2;
      destruct (only_fs_fields _ _ L2) as [Hs2 [Hl2 [Hb2 Hi2]]].
    + unfold in_world, log_insert, modify. intros ->. cbn [fst snd].
      split.
      * unfold only_fs, with_fs. cbn. rewrite Hs2, Hb2, Hi2.
        now rewrite Hs, Hb, Hi.
      * right. split; [reflexivity|]. right. cbn. now rewrite Hl2, Hl.
    + intros ->. cbn [fst snd]. split.
      * unfold only_fs, with_fs. cbn. rewrite Hs2, Hb2, Hi2.
        now rewrite Hs, Hb, Hi.
      * left. now rewrite Hl2, Hl.
Qed.

(** X19. [_run_plots] assigns no attribute of the window, shows no
    message box and invokes no command.  It appends at most one line to
    the log, the notice that no record was written or the notice naming
    the summary file beside the manifest, and only when it returns
    normally. *)
Theorem run_plots_frame (st : St) :
  let out := _run_plots st in
  self (snd out) = self st
  /\ boxes (world (snd out)) = boxes (world st)
  /\ invoked (world (snd out)) = invoked (world st)
  /\ (log (world (snd out)) <> log (world st) ->
      fst out = Ok tt
      /\ (log (world (snd out))
          = log (world st)
            +++ "Plot generation finished (no records written)."
            +++ PyStr.newline
          \/ log (world (snd out))
             = log (world st)
               +++ "Plot generation complete. Summary -> "
               +++ str_path (parent (address_file (self st))
                             // "ports_summary.csv")
               +++ PyStr.newline)).
Proof.
  intros out. subst out.
  destruct (run_plots_cases st) as [H1 H2].
  apply only_fs_fields in H1. cbn [self world log boxes invoked] in H1.
  destruct H1 as [Hs [_ [Hb Hi]]].
  repeat split; auto.
  - destruct H2 as [H2|[H2 _]]; [contradiction|exact H2].
  - destruct H2 as [H2|[_ H2]]; [contradiction|exact H2].
Qed.

(** X20. [_save_and_run] never changes the port mapping, and it closes
    the window only at the end of a run that returns normally: the port
    mapping was not empty, every configuration was written, the saving
    is logged and the plots were dispatched without an exception.  With
    an empty port mapping it only shows a warning. *)
Theorem save_and_run_closes_only_on_success (st : St) :
  let out := _save_and_run st in
  destroyed (self st) = false ->
  ports (self (snd out)) = ports (self st)
  /\ (destroyed (self (snd out)) = true ->
      fst out = Ok tt
      /\ PyDict.is_empty (ports (self st)) = false
      /\ fst (save_loop (ports (self st)) st) = Ok tt
      /\ exists text,
           log (world (snd out))
           = log (world st)
             +++ "Saved ports_config.json for all selected spirals."
             +++ PyStr.newline +++ text)
  /\ (PyDict.is_empty (ports (self st)) = true ->
      out = (Ok tt,
             with_box
               (mkBox BoxWarning "No ports"
                  "Define at least one port before generating plots.")
               st)).
Proof.
  intros out Hopen. subst out.
  remember (_save_and_run st) as r eqn:E.
  unfold _save_and_run in E. unfold bind at 1 in E. unfold gets at 1 in E.
  revert E. destruct (PyDict.is_empty (ports (self st))) eqn:Hemp.
  { intros ->. cbn. split; [reflexivity|]. split; [|auto].
    intros H. congruence. }
  unfold bind at 1. unfold PyDict.items.
  pose proof (save_loop_only_fs (ports (self st)) st) as L.
  destruct (save_loop (ports (self st)) st) as [[[]|e] s1];
    cbn [snd] in L; destruct (only_fs_fields _ _ L) as [Hs [Hl _]].
  2:{ intros ->. cbn [fst snd]. rewrite Hs. split; [reflexivity|].
      split; [|discriminate]. intros H. congruence. }
  unfold bind at 1. unfold in_world at 1, log_insert at 1, modify at 1.
  unfold bind at 1.
  match goal with
  | |- context [_run_plots ?s] =>
      pose proof (run_plots_cases s) as [P1 P2];
      destruct (_run_plots s) as [[[]|e] s2]
  end; cbn [fst snd self world log] in P1, P2;
    apply only_fs_fields in P1; cbn [self world log] in P1;
    destruct P1 as [Hs2 _].
  - unfold on_self, modify. intros ->. cbn [fst snd self ports set_destroyed].
    rewrite Hs2, Hs. split; [reflexivity|]. split; [|discriminate].
    intros _. repeat split; auto. cbn [world].
    destruct P2 as [P2|[_ [P2|P2]]]; rewrite P2, Hl.
    + exists "". now rewrite ?append_assoc3, ?append_empty_r.
    + eexists. rewrite ?append_assoc3. reflexivity.
    + eexists. rewrite ?append_assoc3. reflexivity.
  - intros ->. cbn [fst snd]. rewrite Hs2, Hs. split; [reflexivity|].
    split; [|discriminate]. intros H. congruence.
Qed.

End SaveMore.

(** * Properties of launching the generator *)

Section LaunchFacts.
Context `{CO : Collaborators} `{LA : Launcher (RT := RT)}.
Import MainApp Launch.



(** X21. [_launch_spiral_ui] never touches the disk or the commands of
    the pipeline, and it raises only when the script cannot be examined
    ([exists] raises), changing nothing then.  Otherwise either the
    script exists and the child is started: the pid is logged, no box
    is shown and one check of that child is scheduled after 1200 ms; or
    one error box is shown and nothing is logged or scheduled. *)
Theorem launch_spiral_ui_schedules_once (p : Panel) :
  let out := _launch_spiral_ui p in
  let w := app_world (app p) in
  let w' := app_world (app (snd out)) in
  (fst out = Ok tt <-> is_ok (exists_ (fs w) SPIRAL_UI) = true)
  /\ fs w' = fs w /\ invoked w' = invoked w
  /\ var_address (app (snd out)) = var_address (app p)
  /\ popups (app (snd out)) = popups (app p)
  /\ ((exists pid,
         exists_ (fs w) SPIRAL_UI = Ok true
         /\ os_popen [sys_executable; str_path SPIRAL_UI]
              (str_path (parent SPIRAL_UI)) (fs w) = Ok pid
         /\ timers (snd out) = timers p ++ [(1200, pid)]
         /\ boxes w' = boxes w
         /\ log w'
            = log w +++ "Launched spiral generator UI (pid "
                +++ PyStr.of_nat pid +++ ")." +++ PyStr.newline)
      \/ (is_ok (exists_ (fs w) SPIRAL_UI) = true
          /\ timers (snd out) = timers p /\ log w' = log w
          /\ exists title message,
               boxes w' = boxes w ++ [mkBox BoxError title message])
      \/ (exists e,
            exists_ (fs w) SPIRAL_UI = Raise e /\ out = (Raise e, p))).
Proof.
  intros out w w'. subst out w'.
  remember (_launch_spiral_ui p) as r eqn:E.
  unfold _launch_spiral_ui in E. unfold bind at 1 in E. unfold get at 1 in E.
  fold w in E. unfold bind at 1 in E. unfold lift_result at 1 in E.
  revert E.
  destruct (exists_ (fs w) SPIRAL_UI) as [[|]|e] eqn:Hex; cbn [negb is_ok].
  - destruct (os_popen _ _ (fs w)) as [pid|exc] eqn:Hp.
    + unfold bind, in_app, MainApp.in_world, log_insert, after, modify.
      intros ->. cbn. repeat split; auto. left. exists pid.
      repeat split; auto.
    + unfold in_app, MainApp.in_world, showerror, show, modify.
      intros ->. cbn. repeat split; auto. right. left. repeat split; eauto.
  - unfold in_app, MainApp.in_world, showerror, show, modify.
    intros ->. cbn. repeat split; auto. right. left. repeat split; eauto.
  - intros ->. cbn [fst snd]. split; [split; discriminate|].
    repeat split; auto. right. right. eauto.
Qed.


End LaunchFacts.

(** * A line with content is never dropped *)

Section KeptLines.
Context `{CO : Collaborators}.

Lemma all_chars_weaken (p q : ascii -> bool) (s : string) :
  (forall c, p c = true -> q c = true) ->
  all_chars p s = true -> all_chars q s = true.
Proof.
  intros Hpq. unfold all_chars.
  induction s as [|c s IH]; simpl; [auto|].
  intros H. apply andb_true_iff in H. destruct H as [Hc Hs].
  now rewrite (Hpq c Hc), IH.
Qed.

Lemma all_chars_in (p : ascii -> bool) (s : string) (c : ascii) :
  all_chars p s = true -> In c (list_ascii_of_string s) -> p c = true.
Proof.
  unfold all_chars. intros H Hin.
  rewrite forallb_forall in H. now apply H.
Qed.

Lemma skipped_line_chars (line : string) :
  clean_line line = "" -> all_chars is_blank_or_quote line = true.
Proof.
  unfold clean_line, PyStr.strip, PyStr.strip_chars. intros Hc.
  destruct (strip_by_shape PyStr.is_space line)
    as [ws1 [ws2 [H1 [H2 [H3 _]]]]].
  destruct (strip_by_shape (PyStr.mem_char PyStr.dquote)
              (PyStr.strip_by PyStr.is_space line))
    as [d1 [d2 [H4 [H5 [H6 _]]]]].
  destruct (strip_by_shape (PyStr.mem_char PyStr.squote)
              (PyStr.strip_by (PyStr.mem_char PyStr.dquote)
                 (PyStr.strip_by PyStr.is_space line)))
    as [q1 [q2 [H7 [H8 [H9 _]]]]].
  rewrite Hc in H7. rewrite H7 in H4. rewrite H4 in H1. rewrite H1.
  assert (Ws : forall s, all_chars PyStr.is_space s = true ->
                         all_chars is_blank_or_quote s = true).
  { intros s. apply all_chars_weaken. intros c Hs.
    unfold is_blank_or_quote. now rewrite Hs. }
  assert (Wd : forall s, all_chars (PyStr.mem_char PyStr.dquote) s = true ->
                         all_chars is_blank_or_quote s = true).
  { intros s. apply all_chars_weaken. intros c Hs.
    unfold is_blank_or_quote. rewrite Hs. now rewrite orb_true_r. }
  assert (Wq : forall s, all_chars (PyStr.mem_char PyStr.squote) s = true ->
                         all_chars is_blank_or_quote s = true).
  { intros s. apply all_chars_weaken. intros c Hs.
    unfold is_blank_or_quote. rewrite Hs. now rewrite orb_true_r. }
  repeat apply all_chars_append; auto.
Qed.

Lemma forall2_in_left {A B} (R : A -> B -> Prop) (l1 : list A)
  (l2 : list B) (x : A) :
  Forall2 R l1 l2 -> In x l1 -> exists y, In y l2 /\ R x y.
Proof.
  induction 1 as [|a b l1 l2 Hab _ IH]; intros Hin; [destruct Hin|].
  destruct Hin as [<-|Hin].
  - exists b. split; [now left|exact Hab].
  - destruct (IH Hin) as [y [Hy Hr]]. exists y. split; [now right|exact Hr].
Qed.

(** X23. No line with content is silently dropped from the manifest.
    A line that holds a character other than whitespace and quote
    characters has a cleaned text that is not empty, so an entry is
    computed for it: when the manifest is parsed, the resolved path of
    the line is among the entries; and when its path cannot be
    resolved, parsing raises and answers no entry at all.  A line that
    is skipped holds nothing but whitespace and quote characters. *)
Theorem content_line_gives_entry (fs : FS) (address_file : Path)
  (text line : string) (c : ascii) :
  read_text fs address_file = Ok text ->
  In line (PyStr.splitlines text) ->
  In c (list_ascii_of_string line) ->
  is_blank_or_quote c = false ->
  clean_line line <> ""
  /\ (forall entries,
        read_address_entries fs address_file = Ok entries ->
        exists q,
          entry_of fs address_file (clean_line line) = Ok q
          /\ In q entries)
  /\ (forall e,
        entry_of fs address_file (clean_line line) = Raise e ->
        exists e', read_address_entries fs address_file = Raise e').
Proof.
  intros Hread Hline Hc Hcontent.
  assert (Hne : clean_line line <> "").
  { intros Hempty. apply skipped_line_chars in Hempty.
    rewrite (all_chars_in _ _ _ Hempty Hc) in Hcontent. discriminate. }
  assert (Hkept : In (located address_file (clean_line line))
                    (map (located address_file) (kept_lines text))).
  { apply in_map. unfold kept_lines. apply filter_In. split.
    - now apply (in_map clean_line) in Hline.
    - fold (clean_line line).
      destruct (clean_line line); [now contradiction Hne|reflexivity]. }
  assert (Hok : forall entries,
            read_address_entries fs address_file = Ok entries ->
            exists q,
              entry_of fs address_file (clean_line line) = Ok q
              /\ In q entries).
  { intros entries H. rewrite (read_address_entries_run _ _ _ Hread) in H.
    apply resolve_all_ok in H.
    destruct (forall2_in_left _ _ _ _ H Hkept) as [q [Hq Hr]].
    exists q. auto. }
  split; [exact Hne|]. split; [exact Hok|].
  intros e He.
  destruct (read_address_entries fs address_file) as [entries|e'];
    [|eauto].
  destruct (Hok entries eq_refl) as [q [Hq _]]. congruence.
Qed.

End KeptLines.

(** * The further properties on the sample disk *)

Section MoreOnTheSampleDisk.
Import Sample PortsPopup.
Existing Instance all_succeed.

(** X1 on the batch [a], [b] with two signs: both get the port, [c]
    keeps no mapping. *)
Lemma apply_stores_and_frames_witness :
  let st := window solved_disk "+1 +1" [] in
  let out := _apply_to_paths ["/work/a"; "/work/b"] st in
  floats (signs_tokens "+1 +1") = Ok [1%Z; 1%Z]
  /\ fst out = Ok tt
  /\ port_lookup (ports (self (snd out))) "/work/b" "Port1" = Some series2
  /\ PyDict.get Path_eq_dec (ports (self (snd out))) "/work/c" = None.
Proof.
  intros st out.
  assert (Hf : floats (signs_tokens "+1 +1") = Ok [1%Z; 1%Z])
    by reflexivity.
  assert (Hall : forall q, In q ["/work/a"; "/work/b"] ->
                   mismatch solved_disk (signs_tokens "+1 +1") q = false)
    by (intros q [<-|[<-|[]]]; reflexivity).
  destruct (apply_stores_and_frames ["/work/a"; "/work/b"] st [1%Z; 1%Z]
              eq_refl Hall Hf) as [H1 [_ [_ [H2 [H3 _]]]]].
  split; [exact Hf|]. split; [exact H1|]. split.
  - apply H2. simpl. auto.
  - subst out. rewrite (H3 "/work/c"); [reflexivity|].
    intros [H|[H|[]]]; discriminate H.
Defined.

(** X2 on the same batch: the second call returns the state of the
    first. *)
Lemma apply_twice_same_witness :
  let st := window solved_disk "+1 +1" [] in
  let st1 := snd (_apply_to_paths ["/work/a"; "/work/b"] st) in
  PyStr.is_empty (PyStr.strip "Port1") = false
  /\ _apply_to_paths ["/work/a"; "/work/b"] st1 = (Ok tt, st1).
Proof.
  intros st st1. split; [reflexivity|].
  apply (apply_twice_same ["/work/a"; "/work/b"] st [1%Z; 1%Z]).
  - reflexivity.
  - intros q [<-|[<-|[]]]; reflexivity.
  - reflexivity.
Defined.

(** X4 on a variant without capacitance matrix: three signs are
    accepted. *)
Lemma apply_unsolved_accepts_any_length_witness :
  let st := window solved_disk "+1 -1 +1" [] in
  let out := _apply_to_paths ["/work/unsolved"] st in
  count_of solved_disk "/work/unsolved" = 0
  /\ fst out = Ok tt
  /\ has_port (ports (self (snd out))) "/work/unsolved" "Port1"
       (port_value "series" [1%Z; (-1)%Z; 1%Z]).
Proof.
  intros st out.
  assert (Hz : count_of solved_disk "/work/unsolved" = 0) by reflexivity.
  split; [exact Hz|].
  destruct (apply_unsolved_accepts_any_length ["/work/unsolved"] st
              [1%Z; (-1)%Z; 1%Z]) as [H1 H2].
  - reflexivity.
  - intros q [<-|[]]. exact Hz.
  - reflexivity.
  - split; [exact H1|]. apply H2. now left.
Defined.

(** X6 on the sample window, where [a] is selected. *)
Lemma select_then_apply_succeeds_witness :
  let st := window solved_disk "" [] in
  let out := (_on_select ;; _apply_to_selected) st in
  float_of_str "+1" = Some 1%Z
  /\ fst out = Ok tt
  /\ port_lookup (ports (self (snd out))) "/work/a" "Port1" = Some series2.
Proof.
  intros st out.
  assert (H1 : float_of_str "+1" = Some 1%Z) by reflexivity.
  split; [exact H1|].
  exact (select_then_apply_succeeds st "/work/a" 1%Z eq_refl eq_refl H1).
Defined.

(** X7 on the window with one port on each variant: the port of [a] is
    removed, the one of [b] stays. *)
Lemma remove_port_effect_witness :
  let st := window solved_disk "" three_ports in
  let out := _remove_from_selected st in
  PyDict.mem string_dec [("Port1", series2)] "Port1" = true
  /\ fst out = Ok tt
  /\ port_lookup (ports (self (snd out))) "/work/a" "Port1" = None
  /\ port_lookup (ports (self (snd out))) "/work/b" "Port1" = Some series2.
Proof.
  intros st out.
  assert (Hm : PyDict.mem string_dec [("Port1", series2)] "Port1" = true)
    by reflexivity.
  assert (Hnd : NoDup (map fst [("Port1", series2)])).
  { simpl. constructor; [intros []|constructor]. }
  destruct (remove_port_effect st "/work/a" [] [("Port1", series2)]
              eq_refl eq_refl Hnd Hm) as [H1 [_ [_ [H2 [_ H3]]]]].
  split; [exact Hm|]. split; [exact H1|]. split; [exact H2|].
  subst out. unfold port_lookup, ports_get.
  rewrite H3; [reflexivity|discriminate].
Defined.

(** X8 on the window without ports. *)
Lemma remove_port_noop_witness :
  let st := window solved_disk "" [] in
  port_lookup (ports (self st)) "/work/a" "Port1" = None
  /\ _remove_from_selected st = (Ok tt, st).
Proof.
  intros st. split; [reflexivity|].
  apply (remove_port_noop st). reflexivity.
Defined.

(** X9 on the window without ports: after defining and removing
    [Port1], [a] keeps an empty mapping. *)
Lemma define_then_remove_leaves_empty_mapping_witness :
  let st := window solved_disk "+1 +1" [] in
  let out := (_apply_to_selected ;; _remove_from_selected) st in
  PyDict.get Path_eq_dec (ports (self st)) "/work/a" = None
  /\ ports (self (snd out)) = [("/work/a", [])]
  /\ PyDict.is_empty (ports (self (snd out))) = false.
Proof.
  intros st out.
  assert (Hn : PyDict.get Path_eq_dec (ports (self st)) "/work/a" = None)
    by reflexivity.
  assert (Hm : mismatch solved_disk (signs_tokens "+1 +1") "/work/a"
               = false) by reflexivity.
  assert (Hf : floats (signs_tokens "+1 +1") = Ok [1%Z; 1%Z])
    by reflexivity.
  destruct (define_then_remove_leaves_empty_mapping st "/work/a"
              [1%Z; 1%Z] eq_refl Hn eq_refl Hm Hf)
    as [H1 [H2 _]].
  split; [exact Hn|]. split; [|exact H2].
  unfold out. rewrite H1. reflexivity.
Defined.

(** X10 on the disk where the configuration of [a] is no JSON document
    and the one of [b] may not be read: both variants get no port, [c]
    has no configuration, and the call returns. *)
Lemma load_existing_ports_isolates_witness :
  let st := window bad_configs_disk "" [] in
  ensured variants bad_configs_disk
  /\ exists_ bad_configs_disk "/work/a/Analysis/ports_config.json" = Ok true
  /\ is_ok (json_loads_ports "oops") = false
  /\ is_ok (read_text bad_configs_disk "/work/b/Analysis/ports_config.json")
     = false
  /\ is_ok (fst (_load_existing_ports st)) = true
  /\ _load_existing_ports st
     = load_ports_loop ["/work/b"; "/work/c"] [("/work/a", [])] st
  /\ fst (_load_existing_ports st) = Ok [("/work/a", []); ("/work/b", [])].
Proof.
  intros st.
  assert (He : ensured variants bad_configs_disk).
  { cbn [ensured variants].
    do 3 (eexists; eexists; eexists;
          (split; [reflexivity|]); (split; [reflexivity|]);
          (split; [reflexivity|])).
    exact I. }
  assert (Hx : exists_ bad_configs_disk "/work/a/Analysis/ports_config.json"
               = Ok true) by reflexivity.
  assert (Hbad : forall text,
            read_text bad_configs_disk "/work/a/Analysis/ports_config.json"
            = Ok text -> is_ok (json_loads_ports text) = false).
  { intros text H. injection H as <-. reflexivity. }
  destruct (load_existing_ports_isolates st) as [Hiff [_ Hfirst]].
  pose proof (Hfirst "/work/a" ["/work/b"; "/work/c"] _ _ _
                eq_refl eq_refl eq_refl Hx Hbad) as Hrun.
  split; [exact He|]. split; [exact Hx|]. split; [reflexivity|].
  split; [reflexivity|]. split; [exact (proj1 Hiff He)|].
  split; [exact Hrun|]. rewrite Hrun. reflexivity.
Defined.

(** X11 on a list that holds [a] twice: the second insertion raises. *)
Lemma build_ui_needs_distinct_ids_witness :
  let st := mkSt (set_spiral_paths ["/work/a"; "/work/a"]
                    (blank "/work/Address.txt"))
                 (world_of solved_disk) in
  tree (self st) = []
  /\ exists msg st', _build_ui st = (Raise (TclError msg), st').
Proof.
  intros st. split; [reflexivity|].
  destruct (build_ui_needs_distinct_ids st eq_refl) as [_ H].
  apply H. intros Hnd. simpl in Hnd.
  inversion Hnd as [|? ? Hnot _]. apply Hnot. now left.
Defined.

(** X12 on the sample manifest. *)
Lemma apply_to_all_targets_listed_witness :
  exists popup w',
    __init__ "/work/Address.txt" (world_of solved_disk) = (Ok popup, w')
    /\ spiral_paths popup = variants
    /\ _apply_to_all (mkSt popup w')
       = _apply_to_paths (spiral_paths popup) (mkSt popup w').
Proof.
  assert (Hok : is_ok (fst (__init__ "/work/Address.txt"
                              (world_of solved_disk))) = true)
    by (vm_compute; reflexivity).
  destruct (__init__ "/work/Address.txt" (world_of solved_disk))
    as [[popup|e] w'] eqn:E; [|discriminate Hok].
  exists popup, w'. split; [reflexivity|].
  destruct (apply_to_all_targets_listed "/work/Address.txt"
              (world_of solved_disk) w' popup (fun p => eq_refl) E)
    as [H1 H2].
  split; [|apply H2].
  rewrite H1. vm_compute. reflexivity.
Defined.

(** X13 on the sample manifest: [a] is selected with two signs. *)
Lemma init_selects_first_witness :
  exists popup w',
    __init__ "/work/Address.txt" (world_of solved_disk) = (Ok popup, w')
    /\ solved_entries solved_disk "/work/Address.txt" = variants
    /\ selection popup = ["/work/a"]
    /\ var_port_name popup = "Port1".
Proof.
  assert (Hok : is_ok (fst (__init__ "/work/Address.txt"
                              (world_of solved_disk))) = true)
    by (vm_compute; reflexivity).
  destruct (__init__ "/work/Address.txt" (world_of solved_disk))
    as [[popup|e] w'] eqn:E; [|discriminate Hok].
  assert (Hs : solved_entries solved_disk "/work/Address.txt" = variants)
    by (vm_compute; reflexivity).
  exists popup, w'. split; [reflexivity|]. split; [exact Hs|].
  destruct (init_selects_first "/work/Address.txt" (world_of solved_disk)
              w' popup "/work/a" ["/work/b"; "/work/c"] E Hs)
    as [_ [H1 [_ [_ [H2 _]]]]].
  split; assumption.
Defined.

(** X14 on three manifests: a line with a null character gives the
    read error, two entries without capacitance matrix give the
    warning, and an entry of 300 characters makes the opening raise. *)
Lemma init_nothing_solved_witness :
  (read_address_entries null_entry_disk "/work/Address.txt"
   = Raise (ValueError "embedded null byte")
   /\ __init__ "/work/Address.txt" (world_of null_entry_disk)
      = (Ok (blank "/work/Address.txt"),
         world_with_box
           (mkBox BoxError "Address read error" "embedded null byte")
           (world_of null_entry_disk)))
  /\ (read_address_entries quoted_disk "/work/Address.txt"
      = Ok ["/work/v1"; "/work/ "]
      /\ map box_title
           (boxes (snd (__init__ "/work/Address.txt" (world_of quoted_disk))))
         = ["No solved spirals"])
  /\ (read_address_entries long_entry_disk "/work/Address.txt"
      = Ok ["/work/" +++ long_name]
      /\ exists msg,
           __init__ "/work/Address.txt" (world_of long_entry_disk)
           = (Raise (OSError msg), world_of long_entry_disk)).
Proof.
  split; [|split].
  - assert (Hr : read_address_entries null_entry_disk "/work/Address.txt"
                 = Raise (ValueError "embedded null byte")) by reflexivity.
    split; [exact Hr|].
    destruct (init_nothing_solved "/work/Address.txt"
                (world_of null_entry_disk)) as [H _].
    exact (H _ Hr).
  - assert (Hr : read_address_entries quoted_disk "/work/Address.txt"
                 = Ok ["/work/v1"; "/work/ "]) by reflexivity.
    split; [exact Hr|].
    destruct (init_nothing_solved "/work/Address.txt" (world_of quoted_disk))
      as [_ [H _]].
    rewrite (H _ Hr); [reflexivity|].
    intros p [<-|[<-|[]]]; reflexivity.
  - assert (Hr : read_address_entries long_entry_disk "/work/Address.txt"
                 = Ok ["/work/" +++ long_name]) by reflexivity.
    split; [exact Hr|].
    destruct (init_nothing_solved "/work/Address.txt"
                (world_of long_entry_disk)) as [_ [_ H]].
    destruct (H _ [] ("/work/" +++ long_name) [] _ Hr eq_refl
                (fun q (F : In q []) => match F with end) eq_refl)
      as [Hrun _].
    eexists. exact Hrun.
Defined.

(** X15 on a manifest whose folder [b] is missing, and on a manifest
    whose entry cannot be examined. *)
Lemma run_pipeline_gate_witness :
  let a := panel b_missing_disk in
  let long := panel long_entry_disk in
  (exists_ b_missing_disk "/work/b" = Ok false
   /\ fst (MainApp._run_pipeline a) = Ok tt
   /\ invoked (MainApp.app_world (snd (MainApp._run_pipeline a))) = []
   /\ map box_title (boxes (MainApp.app_world (snd (MainApp._run_pipeline a))))
      = ["Missing folders"])
  /\ exists msg, MainApp._run_pipeline long = (Raise (OSError msg), long).
Proof.
  intros a long.
  assert (Hf : is_file b_missing_disk "/work/Address.txt" = Ok true)
    by reflexivity.
  assert (Hr : read_address_entries b_missing_disk "/work/Address.txt"
               = Ok variants) by reflexivity.
  assert (Hall : forall q, In q variants ->
                   is_ok (exists_ b_missing_disk q) = true)
    by (intros q [<-|[<-|[<-|[]]]]; reflexivity).
  assert (Hb : exists_ b_missing_disk "/work/b" = Ok false) by reflexivity.
  split.
  - destruct (run_pipeline_gate a) as [Hgate _].
    destruct Hgate as [box [_ Hrun]].
    { right. right. split; [exact Hf|].
      exists variants, "/work/b".
      split; [exact Hr|]. split; [exact Hall|]. split; [|exact Hb].
      simpl. auto. }
    split; [exact Hb|]. rewrite Hrun.
    assert (Hc : MainApp._run_pipeline a
                 = (Ok tt,
                    app_with_box
                      (mkBox BoxWarning "Missing folders" "/work/b") a))
      by reflexivity.
    rewrite Hrun in Hc. injection Hc as Hc.
    split; [reflexivity|]. rewrite Hc. split; reflexivity.
  - destruct (run_pipeline_gate long) as [_ Hstop].
    eexists. apply Hstop. right. split; [reflexivity|].
    exists [], ("/work/" +++ long_name), [].
    split; [reflexivity|]. split; [intros q []|reflexivity].
Defined.

(** X20 on the window with three ports: the window is closed and the
    ports are as before. *)
Lemma save_and_run_closes_only_on_success_witness :
  let st := window solved_disk "" three_ports in
  destroyed (self st) = false
  /\ ports (self (snd (_save_and_run st))) = three_ports.
Proof.
  intros st. split; [reflexivity|].
  destruct (save_and_run_closes_only_on_success st eq_refl) as [H _].
  exact H.
Defined.

(** X23 on the first line of the sample manifest, and on a line with
    a null character, which makes parsing raise. *)
Lemma content_line_gives_entry_witness :
  (In "a" (PyStr.splitlines ("a" +++ nl +++ "b" +++ nl +++ "c" +++ nl))
   /\ In "/work/a" variants)
  /\ exists e,
       read_address_entries null_entry_disk "/work/Address.txt" = Raise e.
Proof.
  split.
  - assert (Hl : In "a" (PyStr.splitlines
                           ("a" +++ nl +++ "b" +++ nl +++ "c" +++ nl)))
      by (left; reflexivity).
    split; [exact Hl|].
    destruct (content_line_gives_entry solved_disk "/work/Address.txt"
                ("a" +++ nl +++ "b" +++ nl +++ "c" +++ nl) "a" "a"%char
                eq_refl Hl (or_introl eq_refl) eq_refl) as [_ [H _]].
    destruct (H variants eq_refl) as [q [Hq Hin]].
    injection Hq as <-. exact Hin.
  - destruct (content_line_gives_entry null_entry_disk "/work/Address.txt"
                ("v" +++ String (ascii_of_nat 0) "1" +++ nl)
                ("v" +++ String (ascii_of_nat 0) "1") "v"%char
                eq_refl (or_introl eq_refl) (or_introl eq_refl) eq_refl)
      as [_ [_ H]].
    exact (H (ValueError "embedded null byte") eq_refl).
Defined.

End MoreOnTheSampleDisk.
